(** * LSD (Lisp Structured Data): parser and binder

    A shallow embedding of the Go package [lsd]: the recursive-descent
    parser (scanner, lexical classifiers, strings, lists), the printer of
    trees ([Dump]) and the binder that packs a parsed tree into a
    destination described through reflection.

    Go strings are byte sequences: they are modelled by [string], whose
    characters are the bytes.  Runes, offsets and machine integers are
    modelled by [Z]; line numbers by [N].  Offsets and line numbers are
    bounded by the length of the text and are not wrapped.

    A call of the parser is bounded by a fuel, since one of its loops
    does not always end; a call of the binder is a structural recursion
    on the tree and needs none.  A panic is an outcome of its own.

    The functions of Go's library that the package calls ([unicode/utf8],
    [unicode], [strconv], [reflect]) are modelled from their documented
    behaviour (Go 1.13 and later for the syntax of integer literals, a
    64-bit platform for [int] and [uint]); floating point numbers and
    [strconv.ParseFloat] are left abstract. *)

From Stdlib Require Import ZArith NArith Bool List String Ascii Lia.
From Stdlib Require DecimalString.
Import ListNotations.
Set Warnings "-register-all".
Local Open Scope list_scope.
Local Open Scope string_scope.
Local Open Scope Z_scope.

(* ================================================================== *)
(** ** Bytes, runes and the pieces of Go's library the package calls   *)
(* ================================================================== *)

Definition byteZ (c : ascii) : Z := Z.of_N (N_of_ascii c).
Definition byte_of_Z (z : Z) : ascii := ascii_of_N (Z.to_N z).

(** [len(s)]: the number of bytes of [s]. *)
Definition len (s : string) : Z := Z.of_nat (String.length s).

(** [s[n:]] for [0 <= n <= len(s)]. *)
Fixpoint drop (n : nat) (s : string) : string :=
  match n, s with
  | O, _ => s
  | S n', String _ t => drop n' t
  | S _, EmptyString => EmptyString
  end.

(** [s[:n]] for [0 <= n <= len(s)]. *)
Fixpoint take (n : nat) (s : string) : string :=
  match n, s with
  | O, _ => EmptyString
  | S n', String c t => String c (take n' t)
  | S _, EmptyString => EmptyString
  end.

Module utf8.

Definition RuneError : Z := 65533.

(** The size of the sequence announced by a leading byte and the range
    accepted for its second byte (Go's tables [first] and
    [acceptRanges]); [None] for a byte that cannot start a sequence. *)
Definition first (s0 : Z) : option (Z * Z * Z) :=
  if (194 <=? s0) && (s0 <=? 223) then Some (2, 128, 191)
  else if s0 =? 224 then Some (3, 160, 191)
  else if (225 <=? s0) && (s0 <=? 236) then Some (3, 128, 191)
  else if s0 =? 237 then Some (3, 128, 159)
  else if (238 <=? s0) && (s0 <=? 239) then Some (3, 128, 191)
  else if s0 =? 240 then Some (4, 144, 191)
  else if (241 <=? s0) && (s0 <=? 243) then Some (4, 128, 191)
  else if s0 =? 244 then Some (4, 128, 143)
  else None.

Definition locb : Z := 128.
Definition hicb : Z := 191.
Definition maskx : Z := 63.
Definition mask2 : Z := 31.
Definition mask3 : Z := 15.
Definition mask4 : Z := 7.

(** [utf8.DecodeRuneInString]: the first rune of [s] and its width in
    bytes; [(RuneError, 0)] on the empty string and [(RuneError, 1)] on
    an invalid encoding. *)
Definition DecodeRuneInString (s : string) : Z * Z :=
  match s with
  | EmptyString => (RuneError, 0)
  | String c0 t =>
    let s0 := byteZ c0 in
    if s0 <? 128 then (s0, 1)
    else
      match first s0 with
      | None => (RuneError, 1)
      | Some (sz, lo, hi) =>
        if len s <? sz then (RuneError, 1)
        else
          match t with
          | EmptyString => (RuneError, 1)
          | String c1 t1 =>
            let s1 := byteZ c1 in
            if (s1 <? lo) || (hi <? s1) then (RuneError, 1)
            else if sz <=? 2 then
              (Z.lor (Z.shiftl (Z.land s0 mask2) 6) (Z.land s1 maskx), 2)
            else
              match t1 with
              | EmptyString => (RuneError, 1)
              | String c2 t2 =>
                let s2 := byteZ c2 in
                if (s2 <? locb) || (hicb <? s2) then (RuneError, 1)
                else if sz <=? 3 then
                  (Z.lor (Z.lor (Z.shiftl (Z.land s0 mask3) 12)
                                (Z.shiftl (Z.land s1 maskx) 6))
                         (Z.land s2 maskx), 3)
                else
                  match t2 with
                  | EmptyString => (RuneError, 1)
                  | String c3 _ =>
                    let s3 := byteZ c3 in
                    if (s3 <? locb) || (hicb <? s3) then (RuneError, 1)
                    else
                      (Z.lor (Z.lor (Z.lor (Z.shiftl (Z.land s0 mask4) 18)
                                           (Z.shiftl (Z.land s1 maskx) 12))
                                    (Z.shiftl (Z.land s2 maskx) 6))
                             (Z.land s3 maskx), 4)
                  end
              end
          end
      end
  end.

(** [string(r)] for a rune [r]: its UTF-8 encoding, the encoding of
    [RuneError] for a surrogate or an out-of-range value. *)
Definition encode3 (r : Z) : string :=
  String (byte_of_Z (Z.lor 224 (Z.shiftr r 12)))
    (String (byte_of_Z (Z.lor 128 (Z.land (Z.shiftr r 6) maskx)))
       (String (byte_of_Z (Z.lor 128 (Z.land r maskx))) EmptyString)).

Definition EncodeRune (r : Z) : string :=
  if (0 <=? r) && (r <? 128) then String (byte_of_Z r) EmptyString
  else if (128 <=? r) && (r <? 2048) then
    String (byte_of_Z (Z.lor 192 (Z.shiftr r 6)))
      (String (byte_of_Z (Z.lor 128 (Z.land r maskx))) EmptyString)
  else if (r <? 0) || (1114111 <? r) || ((55296 <=? r) && (r <=? 57343))
  then encode3 RuneError
  else if r <? 65536 then encode3 r
  else
    String (byte_of_Z (Z.lor 240 (Z.shiftr r 18)))
      (String (byte_of_Z (Z.lor 128 (Z.land (Z.shiftr r 12) maskx)))
         (String (byte_of_Z (Z.lor 128 (Z.land (Z.shiftr r 6) maskx)))
            (String (byte_of_Z (Z.lor 128 (Z.land r maskx))) EmptyString))).

End utf8.

Module unicode.

(** [unicode.IsSpace]: the Latin-1 white space and the code points of
    the Unicode property White_Space. *)
Definition IsSpace (r : Z) : bool :=
  if (0 <=? r) && (r <=? 255) then
    ((9 <=? r) && (r <=? 13)) || (r =? 32) || (r =? 133) || (r =? 160)
  else
    (r =? 5760) || ((8192 <=? r) && (r <=? 8202)) || (r =? 8232)
    || (r =? 8233) || (r =? 8239) || (r =? 8287) || (r =? 12288).

(** [unicode.ToUpper] on the runes below 256, the only ones
    [publicName] passes to it. *)
Definition ToUpper (r : Z) : Z :=
  if (97 <=? r) && (r <=? 122) then r - 32
  else if r =? 181 then 924
  else if ((224 <=? r) && (r <=? 246)) || ((248 <=? r) && (r <=? 254))
  then r - 32
  else if r =? 255 then 376
  else r.

End unicode.

(* ================================================================== *)
(** ** The tree                                                        *)
(* ================================================================== *)

(** String value in a S-expr. *)
Record selfString := mkString { str : string; strLine : N }.

(** A generic element of a S-expr: a [selfString] or a node, which starts
    with a [selfString] (its head). *)
Inductive selfValue :=
| VString (s : selfString)
| VNode (n : selfNode)
with selfNode :=
| mkNode (head : selfString) (values : list selfValue)
         (nodeLine : N) (root : bool).

Definition head (n : selfNode) : selfString :=
  let (h, _, _, _) := n in h.
Definition values (n : selfNode) : list selfValue :=
  let (_, vs, _, _) := n in vs.
Definition nodeLine (n : selfNode) : N :=
  let (_, _, l, _) := n in l.
Definition root (n : selfNode) : bool :=
  let (_, _, _, b) := n in b.

Definition LineNumber (v : selfValue) : N :=
  match v with
  | VString s => strLine s
  | VNode n => nodeLine n
  end.

(* ================================================================== *)
(** ** The parser                                                      *)
(* ================================================================== *)

Definition sexprOpen : Z := 40.
Definition sexprClose : Z := 41.
Definition endOfLine : Z := 10.
Definition backtick : Z := 96.

(** Structure returned when a parsing error occurs. *)
Record parserError := mkParserError { message : string; errLine : N }.

(** Holds the parser state. *)
Record selfParser := mkParser {
  input : string;
  pos : Z;
  lineNumber : N;
  r : Z;
  runeWidth : Z;
  eod : bool
}.

(** What a parsing routine does: it returns a value and leaves the parser
    in a new state, returns an error, panics, or is still running when the
    fuel that bounds the nesting of its loops and calls is used up. *)
Inductive PResult (A : Type) :=
| POk (a : A) (p : selfParser)
| PErr (e : parserError)
| PPanic (msg : string)
| POutOfFuel.
Arguments POk {A} a p.
Arguments PErr {A} e.
Arguments PPanic {A} msg.
Arguments POutOfFuel {A}.

Definition pbind {A B} (m : PResult A) (k : A -> selfParser -> PResult B)
  : PResult B :=
  match m with
  | POk a p => k a p
  | PErr e => PErr e
  | PPanic msg => PPanic msg
  | POutOfFuel => POutOfFuel
  end.

Notation "' ( a , p ) <- m ;; k" := (pbind m (fun a p => k))
  (at level 61, a name, p name, m at next level, right associativity).

Definition newError (p : selfParser) (s : string) : parserError :=
  mkParserError s (lineNumber p).

Definition newErrorAtLine (s : string) (lineNum : N) : parserError :=
  mkParserError s lineNum.

(** Decode the next rune in the stream. *)
Definition next (p : selfParser) : PResult unit :=
  let pos' := pos p + runeWidth p in
  if len (input p) <=? pos' then
    POk tt (mkParser (input p) pos' (lineNumber p) (r p) (runeWidth p) true)
  else
    let line' := if r p =? endOfLine then N.succ (lineNumber p)
                 else lineNumber p in
    let (r', w') := utf8.DecodeRuneInString (drop (Z.to_nat pos') (input p)) in
    if r' =? utf8.RuneError then PPanic "bad rune"
    else POk tt (mkParser (input p) pos' line' r' w' (eod p)).

Definition isComment (c : Z) : bool := (c =? 59) || (c =? 35).

Definition isSpace (c : Z) : bool := unicode.IsSpace c.

Definition isStringChar (c : Z) : bool :=
  if isSpace c then false
  else if (c =? 91) || (c =? 93) || (c =? 40) || (c =? 41)
          || (c =? 123) || (c =? 125) || (c =? 92)
  then false
  else true.

(** Move until the next line in the stream. *)
Fixpoint skipLine (fuel : nat) (p : selfParser) : PResult unit :=
  match fuel with
  | O => POutOfFuel
  | S fuel' =>
    if negb (eod p) && negb (r p =? endOfLine) then
      '(_, p1) <- next p ;; skipLine fuel' p1
    else POk tt p
  end.

(** Skip any spaces, including comments, in the stream. *)
Fixpoint skipSpaces (fuel : nat) (p : selfParser) : PResult unit :=
  match fuel with
  | O => POutOfFuel
  | S fuel' =>
    if negb (eod p) && (isComment (r p) || isSpace (r p)) then
      if isComment (r p) then
        '(_, p1) <- skipLine fuel' p ;; skipSpaces fuel' p1
      else
        '(_, p1) <- next p ;; skipSpaces fuel' p1
    else POk tt p
  end.

Definition eodError : string := "unexpected end of data while parsing string".

(** The loop of [parseBacktickString], on its variables [str] and [prev];
    it returns them with the parser state when the loop is left. *)
Fixpoint backtickLoop (fuel : nat) (s : string) (prev : Z) (p : selfParser)
  : PResult string :=
  match fuel with
  | O => POutOfFuel
  | S fuel' =>
    if negb (eod p) then
      if negb (r p =? backtick) && (prev =? backtick) then POk s p
      else
        let s' :=
          if r p =? backtick then
            if prev =? backtick then s ++ "`" else s
          else s ++ utf8.EncodeRune (r p) in
        (* [prev = -1] in the escape case is overwritten right away *)
        let prev' := r p in
        '(_, p1) <- next p ;; backtickLoop fuel' s' prev' p1
    else POk s p
  end.

(** Parses a string value enclosed by '`' delimitors. *)
Definition parseBacktickString (fuel : nat) (p : selfParser)
  : PResult selfString :=
  let lineNum := lineNumber p in
  '(s, p1) <- backtickLoop fuel "" (-1) p ;;
  if eod p1 then PErr (newErrorAtLine eodError lineNum)
  else POk (mkString s lineNum) p1.

(** The loop of [parseBracketedString], on its variables [level] and
    [str]. *)
Fixpoint bracketLoop (fuel : nat) (level : Z) (s : string) (p : selfParser)
  : PResult string :=
  match fuel with
  | O => POutOfFuel
  | S fuel' =>
    if negb (eod p) then
      let level1 := if r p =? 93 then level - 1 else level in
      if (r p =? 93) && (level1 =? 0) then
        '(_, p1) <- next p ;; POk s p1
      else
        let level2 := if r p =? 91 then level1 + 1 else level1 in
        '(_, p1) <- next p ;;
        bracketLoop fuel' level2 (s ++ utf8.EncodeRune (r p)) p1
    else POk s p
  end.

(** Parses a string enclosed into brackets. *)
Definition parseBracketedString (fuel : nat) (p : selfParser)
  : PResult selfString :=
  let lineNum := lineNumber p in
  '(s, p1) <- bracketLoop fuel 1 "" p ;;
  if eod p1 then PErr (newErrorAtLine eodError lineNum)
  else POk (mkString s lineNum) p1.

(** The loop of the default case of [parseString]: it runs as long as the
    current rune is a string character, and does not look at [eod]. *)
Fixpoint bareLoop (fuel : nat) (s : string) (p : selfParser)
  : PResult string :=
  match fuel with
  | O => POutOfFuel
  | S fuel' =>
    if isStringChar (r p) then
      '(_, p1) <- next p ;; bareLoop fuel' (s ++ utf8.EncodeRune (r p)) p1
    else POk s p
  end.

Definition parseString (fuel : nat) (p : selfParser) : PResult selfString :=
  let lineNum := lineNumber p in
  if eod p then PErr (newError p "unexpected end of data")
  else if r p =? backtick then
    '(_, p1) <- next p ;; parseBacktickString fuel p1
  else if r p =? 91 then
    '(_, p1) <- next p ;; parseBracketedString fuel p1
  else
    '(s, p1) <- bareLoop fuel "" p ;; POk (mkString s lineNum) p1.

(** [parseNodeBody], the loop inside it and [parseNode] call each other. *)
Fixpoint parseNodeBody (fuel : nat) (rootNode : bool) (p : selfParser)
  : PResult (list selfValue) :=
  match fuel with
  | O => POutOfFuel
  | S fuel' =>
    '(_, p1) <- skipSpaces fuel' p ;;
    '(vs, p2) <- bodyLoop fuel' rootNode [] p1 ;;
    if r p2 =? sexprClose then '(_, p3) <- next p2 ;; POk vs p3
    else POk vs p2
  end

with bodyLoop (fuel : nat) (rootNode : bool) (vs : list selfValue)
              (p : selfParser) : PResult (list selfValue) :=
  match fuel with
  | O => POutOfFuel
  | S fuel' =>
    if negb (eod p) && negb (r p =? sexprClose) then
      '(v, p1) <-
         (if r p =? sexprOpen then
            '(n, q) <- parseNode fuel' p ;; POk (VNode n) q
          else if negb rootNode then
            '(s, q) <- parseString fuel' p ;; POk (VString s) q
          else PErr (newError p "Unexpected string in root node")) ;;
      '(_, p2) <- skipSpaces fuel' p1 ;;
      bodyLoop fuel' rootNode (vs ++ [v])%list p2
    else POk vs p
  end

with parseNode (fuel : nat) (p : selfParser) : PResult selfNode :=
  match fuel with
  | O => POutOfFuel
  | S fuel' =>
    let lineNum := lineNumber p in
    '(_, p1) <- skipSpaces fuel' p ;;
    if negb (r p1 =? sexprOpen) then
      PErr (newError p1 "expected `(` rune at start of list")
    else
      '(_, p2) <- next p1 ;;
      '(nodeName, p3) <- parseString fuel' p2 ;;
      '(vs, p4) <- parseNodeBody fuel' false p3 ;;
      POk (mkNode nodeName vs lineNum false) p4
  end.

(** The parser [LoadString] starts from, and the root node it builds. *)
Definition newParser (data : string) : selfParser :=
  mkParser data 0 0 endOfLine 0 false.

Definition parseRoot (fuel : nat) (data : string) : PResult selfNode :=
  '(vs, p) <- parseNodeBody fuel true (newParser data) ;;
  POk (mkNode (mkString "root" 0) vs 0 true) p.

(** How a call ends, once the parser state is dropped. *)
Inductive Run (A : Type) :=
| Returned (a : A)
| Failed (e : parserError)
| Panicked (msg : string)
| Unfinished.
Arguments Returned {A} a.
Arguments Failed {A} e.
Arguments Panicked {A} msg.
Arguments Unfinished {A}.

Definition run {A} (m : PResult A) : Run A :=
  match m with
  | POk a _ => Returned a
  | PErr e => Failed e
  | PPanic msg => Panicked msg
  | POutOfFuel => Unfinished
  end.

(** The tree [LoadString] parses out of [data]. *)
Definition parseTree (fuel : nat) (data : string) : Run selfNode :=
  run (parseRoot fuel data).

(** A call has ended when it is not out of fuel. *)
Definition finished {A} (m : PResult A) : Prop := m <> POutOfFuel.

(* ================================================================== *)
(** ** [strconv]: the conversions the binder calls                     *)
(* ================================================================== *)

Module strconv.

(** The errors of the package: [ErrSyntax] and [ErrRange] wrapped in a
    [NumError], and the errors for a bad base or bit size. *)
Inductive NumError := ErrSyntax | ErrRange | ErrBase | ErrBitSize.

(** The size in bits of [int] and [uint] (a 64-bit platform). *)
Definition IntSize : Z := 64.

Definition maxUint64 : Z := 2 ^ 64 - 1.

(** [strconv.ParseBool]. *)
Definition ParseBool (s : string) : bool * option NumError :=
  if (s =? "1")%string || (s =? "t")%string || (s =? "T")%string
     || (s =? "true")%string || (s =? "TRUE")%string || (s =? "True")%string
  then (true, None)
  else if (s =? "0")%string || (s =? "f")%string || (s =? "F")%string
     || (s =? "false")%string || (s =? "FALSE")%string
     || (s =? "False")%string
  then (false, None)
  else (false, Some ErrSyntax).

(** [lower(c)]: [c | ('x' - 'X')]. *)
Definition lower (c : Z) : Z := Z.lor c 32.

Definition isPrefixLetter (c : Z) : bool :=
  (lower c =? 98) || (lower c =? 111) || (lower c =? 120).

(** The loop of [underscoreOK] on the last thing seen:
    [94] at the beginning, [48] after a digit or a base prefix,
    [95] after an underscore, [33] after anything else. *)
Fixpoint underscoreLoop (hex : bool) (saw : Z) (s : string) : bool :=
  match s with
  | EmptyString => negb (saw =? 95)
  | String c t =>
    let b := byteZ c in
    if ((48 <=? b) && (b <=? 57))
       || (hex && (97 <=? lower b) && (lower b <=? 102))
    then underscoreLoop hex 48 t
    else if b =? 95 then
      if negb (saw =? 48) then false else underscoreLoop hex 95 t
    else if saw =? 95 then false
    else underscoreLoop hex 33 t
  end.

(** [underscoreOK]: underscores appear only between digits or between
    a base prefix and a digit. *)
Definition underscoreOK (s : string) : bool :=
  let s1 :=
    match s with
    | String c t => if (byteZ c =? 45) || (byteZ c =? 43) then t else s
    | EmptyString => s
    end in
  match s1 with
  | String c0 (String c1 t) =>
    if (byteZ c0 =? 48) && isPrefixLetter (byteZ c1)
    then underscoreLoop (lower (byteZ c1) =? 120) 48 t
    else underscoreLoop false 94 s1
  | _ => underscoreLoop false 94 s1
  end.

(** The digit loop of [ParseUint]: the accumulated value [n] (a
    [uint64]) and whether an underscore was seen. *)
Fixpoint digitLoop (base0 : bool) (base cutoff maxVal : Z)
         (n : Z) (underscores : bool) (s : string)
  : Z * bool * option NumError :=
  match s with
  | EmptyString => (n, underscores, None)
  | String ch t =>
    let c := byteZ ch in
    if (c =? 95) && base0 then digitLoop base0 base cutoff maxVal n true t
    else
      let d :=
        if (48 <=? c) && (c <=? 57) then Some (c - 48)
        else if (97 <=? lower c) && (lower c <=? 122)
             then Some (lower c - 97 + 10)
             else None in
      match d with
      | None => (0, underscores, Some ErrSyntax)
      | Some d =>
        if base <=? d then (0, underscores, Some ErrSyntax)
        else if cutoff <=? n then (maxVal, underscores, Some ErrRange)
        else
          let n' := n * base in
          let n1 := (n' + d) mod 2 ^ 64 in
          if (n1 <? n') || (maxVal <? n1)
          then (maxVal, underscores, Some ErrRange)
          else digitLoop base0 base cutoff maxVal n1 underscores t
      end
  end.

(** [strconv.ParseUint]: the value and the error ([None] for [nil]). *)
Definition ParseUint (s : string) (base bitSize : Z) : Z * option NumError :=
  match s with
  | EmptyString => (0, Some ErrSyntax)
  | String c0 rest =>
    let base0 := base =? 0 in
    let pick : option (Z * string) :=
      if (2 <=? base) && (base <=? 36) then Some (base, s)
      else if base0 then
        if byteZ c0 =? 48 then
          match rest with
          | String c1 t =>
            if (3 <=? len s) && (lower (byteZ c1) =? 98) then Some (2, t)
            else if (3 <=? len s) && (lower (byteZ c1) =? 111)
                 then Some (8, t)
            else if (3 <=? len s) && (lower (byteZ c1) =? 120)
                 then Some (16, t)
            else Some (8, rest)
          | EmptyString => Some (8, rest)
          end
        else Some (10, s)
      else None in
    match pick with
    | None => (0, Some ErrBase)
    | Some (b, digits) =>
      if (bitSize <? 0) || (64 <? bitSize) then (0, Some ErrBitSize)
      else
        let bits := if bitSize =? 0 then IntSize else bitSize in
        let cutoff := maxUint64 / b + 1 in
        let maxVal := 2 ^ bits - 1 in
        match digitLoop base0 b cutoff maxVal 0 false digits with
        | (n, _, Some e) => (n, Some e)
        | (n, underscores, None) =>
          if underscores && negb (underscoreOK s) then (0, Some ErrSyntax)
          else (n, None)
        end
    end
  end.

(** [strconv.ParseInt]. *)
Definition ParseInt (s : string) (base bitSize : Z) : Z * option NumError :=
  match s with
  | EmptyString => (0, Some ErrSyntax)
  | String c0 rest =>
    let neg := byteZ c0 =? 45 in
    let digits := if (byteZ c0 =? 43) || neg then rest else s in
    match ParseUint digits base bitSize with
    | (_, Some ErrSyntax) => (0, Some ErrSyntax)
    | (_, Some ErrBase) => (0, Some ErrBase)
    | (_, Some ErrBitSize) => (0, Some ErrBitSize)
    | (un, _) =>
      let bits := if bitSize =? 0 then IntSize else bitSize in
      let cutoff := 2 ^ (bits - 1) in
      if negb neg && (cutoff <=? un) then (cutoff - 1, Some ErrRange)
      else if neg && (cutoff <? un) then (- cutoff, Some ErrRange)
      else (if neg then - un else un, None)
    end
  end.

End strconv.

(* ================================================================== *)
(** ** [reflect]: kinds, types and values of the destination           *)
(* ================================================================== *)

Module reflect.

Inductive Kind :=
| Invalid | Bool
| Int | Int8 | Int16 | Int32 | Int64
| Uint | Uint8 | Uint16 | Uint32 | Uint64 | Uintptr
| Float32 | Float64 | Complex64 | Complex128
| Array | Chan | Func | Interface | Map | Ptr | Slice
| String | Struct | UnsafePointer.

Definition Kind_eq_dec (a b : Kind) : {a = b} + {a <> b}.
Proof. decide equality. Defined.

Definition Kind_eqb (a b : Kind) : bool :=
  if Kind_eq_dec a b then true else false.

(** [Kind.String]. *)
Definition KindString (k : Kind) : string :=
  match k with
  | Invalid => "invalid" | Bool => "bool"
  | Int => "int" | Int8 => "int8" | Int16 => "int16"
  | Int32 => "int32" | Int64 => "int64"
  | Uint => "uint" | Uint8 => "uint8" | Uint16 => "uint16"
  | Uint32 => "uint32" | Uint64 => "uint64" | Uintptr => "uintptr"
  | Float32 => "float32" | Float64 => "float64"
  | Complex64 => "complex64" | Complex128 => "complex128"
  | Array => "array" | Chan => "chan" | Func => "func"
  | Interface => "interface" | Map => "map" | Ptr => "ptr"
  | Slice => "slice" | String => "string" | Struct => "struct"
  | UnsafePointer => "unsafe.Pointer"
  end.

(** A type as the binder sees it through [reflect.Type]: its name (empty
    for an unnamed type), its kind, and for the four compound kinds its
    length, element, key and fields.  A field has a name, is exported or
    not, and has a type; embedded fields are not modelled.  [TBasic] is
    for the kinds that are not compound. *)
Inductive Type_ :=
| TBasic (name : string) (k : Kind)
| TArray (name : string) (length : Z) (elem : Type_)
| TSlice (name : string) (elem : Type_)
| TMap (name : string) (key elem : Type_)
| TStruct (name : string) (fields : list StructField)
with StructField :=
| mkField (name : string) (exported : bool) (type : Type_).

Definition Name (t : Type_) : string :=
  match t with
  | TBasic n _ | TArray n _ _ | TSlice n _ | TMap n _ _ | TStruct n _ => n
  end.

Definition KindOf (t : Type_) : Kind :=
  match t with
  | TBasic _ k => k
  | TArray _ _ _ => Array
  | TSlice _ _ => Slice
  | TMap _ _ _ => Map
  | TStruct _ _ => Struct
  end.

(** [Type.Elem], [Type.Key], [Type.Len] and the fields of a struct type;
    on a type of another kind (where Go panics, and which the binder
    never asks) they return a default. *)
Definition Elem (t : Type_) : Type_ :=
  match t with
  | TArray _ _ e | TSlice _ e | TMap _ _ e => e
  | _ => TBasic "" Invalid
  end.

Definition Key (t : Type_) : Type_ :=
  match t with
  | TMap _ k _ => k
  | _ => TBasic "" Invalid
  end.

Definition Len (t : Type_) : Z :=
  match t with
  | TArray _ n _ => n
  | _ => 0
  end.

Definition Fields (t : Type_) : list StructField :=
  match t with
  | TStruct _ fs => fs
  | _ => []
  end.

Definition fieldName (f : StructField) : string :=
  let (n, _, _) := f in n.
Definition fieldExported (f : StructField) : bool :=
  let (_, e, _) := f in e.
Definition fieldType (f : StructField) : Type_ :=
  let (_, _, t) := f in t.

Definition NumField (t : Type_) : Z := Z.of_nat (List.length (Fields t)).

(** The index of the first field called [name]. *)
Fixpoint fieldIndex (name : string) (fs : list StructField)
  : option nat :=
  match fs with
  | [] => None
  | f :: rest =>
    if (fieldName f =? name)%string then Some O
    else option_map S (fieldIndex name rest)
  end.

(** [Value.FieldByName(name).IsValid()]. *)
Definition hasField (t : Type_) (name : string) : bool :=
  match fieldIndex name (Fields t) with
  | Some _ => true
  | None => false
  end.

End reflect.

(* ================================================================== *)
(** ** The binder: scalars                                             *)
(* ================================================================== *)


(** A Go call returns its results or panics. *)
Inductive Go (A : Type) :=
| Return (a : A)
| Panic (msg : string).
Arguments Return {A} a.
Arguments Panic {A} msg.

(** Error type that can be triggered while packing values. *)
Record packError := mkPackError { packMessage : string; packLine : N }.

(** Generates an error while packing a selfString. *)
Definition stringPackError (v : selfString) (s : string) : packError :=
  mkPackError s (strLine v).

(** Generates an error while packing a selfNode. *)
Definition nodePackError (v : selfNode) (s : string) : packError :=
  mkPackError s (nodeLine v).

(** The method [newPackError] of the interface [selfValue]. *)
Definition newPackError (v : selfValue) (s : string) : packError :=
  mkPackError s (LineNumber v).

(** Capitalize the name of a structure field. *)
Definition publicName (fieldName : string) : string :=
  match fieldName with
  | EmptyString => fieldName
  | String c rest => utf8.EncodeRune (unicode.ToUpper (byteZ c)) ++ rest
  end.

(** Checks whether a kind can be packed as a single scalar value. *)
Definition isScalarKind (kind : reflect.Kind) : bool :=
  match kind with
  | reflect.Chan | reflect.Func | reflect.Interface | reflect.Map
  | reflect.Ptr | reflect.UnsafePointer | reflect.Complex64
  | reflect.Complex128 | reflect.Struct | reflect.Slice | reflect.Array =>
    false
  | _ => true
  end.

(** Checks whether a kind represents a compound type. *)
Definition isCompoundKind (kind : reflect.Kind) : bool :=
  match kind with
  | reflect.Array | reflect.Slice | reflect.Struct | reflect.Map => true
  | _ => false
  end.

(** Allowed node heads to be used as bullet points. *)
Definition isBulletPoint (s : string) : bool :=
  let (c, _) := utf8.DecodeRuneInString s in
  (c =? 45) || (c =? 42) || (c =? 8226) || (c =? 9702) || (c =? 8227)
  || (c =? 8259).

(** The slice expression [s[0:2]], which panics on a string of fewer than
    two bytes. *)
Definition slice02 (s : string) : Go string :=
  if len s <? 2 then Panic "runtime error: slice bounds out of range"
  else Return (take 2 s).

(** Extended version of strconv.ParseInt.
    Also accepts binary forms with "0b" prefix. *)
Definition parseIntEx (s : string) (bitSize : Z)
  : Go (Z * option strconv.NumError) :=
  match slice02 s with
  | Panic msg => Panic msg
  | Return prefix =>
    if (prefix =? "0b")%string
    then Return (strconv.ParseInt (drop 2 s) 2 bitSize)
    else Return (strconv.ParseInt s 0 bitSize)
  end.

(** Extended version of strconv.ParseUint.
    Also accepts binary forms with "0b" prefix. *)
Definition parseUintEx (s : string) (bitSize : Z)
  : Go (Z * option strconv.NumError) :=
  match slice02 s with
  | Panic msg => Panic msg
  | Return prefix =>
    if (prefix =? "0b")%string
    then Return (strconv.ParseUint (drop 2 s) 2 bitSize)
    else Return (strconv.ParseUint s 0 bitSize)
  end.

(** Extended version of strconv.ParseBool.
    Also accepts variations of "Yes" and "No" strings. *)
Definition parseBoolEx (repr : string) : bool * option strconv.NumError :=
  match strconv.ParseBool repr with
  | (value, Some err) =>
    if (repr =? "y")%string || (repr =? "yes")%string
       || (repr =? "YES")%string || (repr =? "Yes")%string
    then (true, None)
    else if (repr =? "n")%string || (repr =? "no")%string
       || (repr =? "NO")%string || (repr =? "No")%string
    then (false, None)
    else (value, Some err)
  | (value, None) => (value, None)
  end.

(** The bit size [encodeScalarField] asks for. *)
Definition bitSizeOf (kind : reflect.Kind) : Z :=
  match kind with
  | reflect.Int8 | reflect.Uint8 => 8
  | reflect.Int16 | reflect.Uint16 => 16
  | reflect.Int32 | reflect.Uint32 => 32
  | reflect.Int64 | reflect.Uint64 => 64
  | _ => 0
  end.

(** The bits a conversion to the integer type of a kind keeps. *)
Definition widthOf (kind : reflect.Kind) : Z :=
  if bitSizeOf kind =? 0 then strconv.IntSize else bitSizeOf kind.

(** Conversion of an [int64] to a signed type of [bits] bits, and of a
    [uint64] to an unsigned one. *)
Definition toSigned (bits i : Z) : Z :=
  (i + 2 ^ (bits - 1)) mod 2 ^ bits - 2 ^ (bits - 1).

Definition toUnsigned (bits u : Z) : Z := u mod 2 ^ bits.

Definition cannotConvert (repr : string) (kind : reflect.Kind) : string :=
  "cannot convert value `" ++ repr ++ "` to type " ++ reflect.KindString kind.

Section Binder.

(** Floating point numbers are left abstract: their type, their zero,
    their equality and [strconv.ParseFloat], which returns [None] on an
    error. *)
Variable F : Type.
Variable Fzero : F.
Variable Feqb : F -> F -> bool.
Variable ParseFloat : string -> Z -> option F.

(** The contents of a destination.  A slice and a map are modelled by
    their contents: a nil one and an empty one are the same, and two
    slices never share their elements. *)
Inductive Data :=
| DBool (b : bool)
| DInt (k : reflect.Kind) (i : Z)
| DUint (k : reflect.Kind) (u : Z)
| DFloat (k : reflect.Kind) (f : F)
| DString (s : string)
| DArray (elems : list Data)
| DSlice (elems : list Data)
| DMap (entries : list Entry)
| DStruct (fields : list Data)
| DNil
with Entry :=
| mkEntry (key : Data) (value : Data).

(** Converts a string to its native non-compound Go type.  The first
    result is the [interface{}] returned, [None] when it is [nil]. *)
Definition encodeScalarField (s : selfString) (kind : reflect.Kind)
  : Go (option Data * option packError) :=
  let repr := str s in
  match kind with
  | reflect.String => Return (Some (DString repr), None)
  | reflect.Bool =>
    match parseBoolEx repr with
    | (_, Some _) =>
      Return (None, Some (stringPackError s (cannotConvert (str s) kind)))
    | (b, None) => Return (Some (DBool b), None)
    end
  | reflect.Int | reflect.Int8 | reflect.Int16 | reflect.Int32
  | reflect.Int64 =>
    match parseIntEx repr (bitSizeOf kind) with
    | Panic msg => Panic msg
    | Return (_, Some _) =>
      Return (None, Some (stringPackError s (cannotConvert repr kind)))
    | Return (i, None) =>
      Return (Some (DInt kind (toSigned (widthOf kind) i)), None)
    end
  | reflect.Uint | reflect.Uint8 | reflect.Uint16 | reflect.Uint32
  | reflect.Uint64 =>
    match parseUintEx repr (bitSizeOf kind) with
    | Panic msg => Panic msg
    | Return (_, Some _) =>
      Return (None, Some (stringPackError s (cannotConvert repr kind)))
    | Return (u, None) =>
      Return (Some (DUint kind (toUnsigned (widthOf kind) u)), None)
    end
  | reflect.Float32 =>
    match ParseFloat repr 32 with
    | None =>
      Return (None, Some (stringPackError s (cannotConvert (str s) kind)))
    | Some f => Return (Some (DFloat reflect.Float32 f), None)
    end
  | reflect.Float64 =>
    match ParseFloat repr 64 with
    | None =>
      Return (None, Some (stringPackError s (cannotConvert (str s) kind)))
    | Some f => Return (Some (DFloat reflect.Float64 f), None)
    end
  | _ => Return (None, None)
  end.

(* ================================================================ *)
(** ** The binder: values seen through reflection                    *)
(* ================================================================ *)

(** [reflect.Zero(t)], also the contents of [reflect.New(t).Elem()] and
    of [reflect.MakeMap(t)]. *)
Fixpoint Zero (t : reflect.Type_) : Data :=
  match t with
  | reflect.TBasic _ k =>
    match k with
    | reflect.Bool => DBool false
    | reflect.Int | reflect.Int8 | reflect.Int16 | reflect.Int32
    | reflect.Int64 => DInt k 0
    | reflect.Uint | reflect.Uint8 | reflect.Uint16 | reflect.Uint32
    | reflect.Uint64 | reflect.Uintptr => DUint k 0
    | reflect.Float32 | reflect.Float64 => DFloat k Fzero
    | reflect.String => DString ""
    | _ => DNil
    end
  | reflect.TArray _ n e => DArray (repeat (Zero e) (Z.to_nat n))
  | reflect.TSlice _ _ => DSlice []
  | reflect.TMap _ _ _ => DMap []
  | reflect.TStruct _ fs =>
    DStruct (map (fun f => Zero (reflect.fieldType f)) fs)
  end.

(** A [reflect.Value] that the binder writes through: its type, whether
    it was reached through an unexported field (and then cannot be
    written), and its contents.  All of them are addressable. *)
Record Value := mkValue { typ : reflect.Type_; flagRO : bool; data : Data }.

(** A [reflect.Value] that is only read: [None] is the zero Value, which
    [reflect.ValueOf(nil)] returns. *)
Definition Made : Type := option (reflect.Type_ * Data).

(** The type of the value an [interface{}] holds. *)
Definition typeOfItem (d : Data) : reflect.Type_ :=
  match d with
  | DBool _ => reflect.TBasic "bool" reflect.Bool
  | DInt k _ | DUint k _ | DFloat k _ => reflect.TBasic (reflect.KindString k) k
  | DString _ => reflect.TBasic "string" reflect.String
  | _ => reflect.TBasic "" reflect.Invalid
  end.

Definition ValueOf (item : option Data) : Made :=
  match item with
  | None => None
  | Some d => Some (typeOfItem d, d)
  end.

(** Whether a value of type [v] can be assigned to a destination of
    type [t].  The binder builds a compound value from the type of its
    destination, and a scalar one from the predeclared type of the
    kind: the latter is not assignable to a type that has another
    name. *)
Definition assignable (v t : reflect.Type_) : bool :=
  match v, t with
  | reflect.TBasic vn vk, reflect.TBasic tn tk =>
    (vn =? tn)%string && reflect.Kind_eqb vk tk
  | reflect.TBasic _ _, _ => false
  | _, reflect.TBasic _ _ => false
  | _, _ => true
  end.

(** [field.Set(x)]: the new contents of [field]. *)
Definition Set_ (field : Value) (x : Made) : Go Data :=
  if flagRO field then
    Panic "reflect: Set using value obtained using unexported field"
  else
    match x with
    | None => Panic "reflect: call of reflect.Value.Set on zero Value"
    | Some (vt, d) =>
      if assignable vt (typ field) then Return d
      else Panic "reflect.Set: value is not assignable to type"
    end.

Definition elemsOf (d : Data) : list Data :=
  match d with
  | DArray l | DSlice l | DStruct l => l
  | _ => []
  end.

Definition entriesOf (d : Data) : list Entry :=
  match d with
  | DMap l => l
  | _ => []
  end.

(** [l] with its element [i] replaced by [d]. *)
Fixpoint updateAt (i : nat) (d : Data) (l : list Data) : list Data :=
  match i, l with
  | _, [] => []
  | O, _ :: t => d :: t
  | S i', x :: t => x :: updateAt i' d t
  end.

(** [reflect.Append(field, x)]: the new contents of the slice. *)
Definition Append (field : Value) (x : Made) : Go Data :=
  if flagRO field then
    Panic "reflect: Append using value obtained using unexported field"
  else
    match x with
    | None => Panic "reflect: call of reflect.Value.Set on zero Value"
    | Some (vt, d) =>
      if assignable vt (reflect.Elem (typ field))
      then Return (DSlice (elemsOf (data field) ++ [d])%list)
      else Panic "reflect.Set: value is not assignable to type"
    end.

(** Equality of map keys. *)
Definition keyEqb (a b : Data) : bool :=
  match a, b with
  | DBool x, DBool y => Bool.eqb x y
  | DInt _ x, DInt _ y => x =? y
  | DUint _ x, DUint _ y => x =? y
  | DFloat _ x, DFloat _ y => Feqb x y
  | DString x, DString y => (x =? y)%string
  | _, _ => false
  end.

Fixpoint mapStore (k v : Data) (l : list Entry) : list Entry :=
  match l with
  | [] => [mkEntry k v]
  | mkEntry k' v' :: t =>
    if keyEqb k' k then mkEntry k v :: t
    else mkEntry k' v' :: mapStore k v t
  end.

(** [m.SetMapIndex(key, value)]: the new contents of the map. *)
Definition SetMapIndex (m : Value) (key : Made) (value : Data) : Go Data :=
  if flagRO m then
    Panic "reflect: SetMapIndex using value obtained using unexported field"
  else
    match key with
    | None => Panic "reflect: call of reflect.Value.SetMapIndex on zero Value"
    | Some (kt, k) =>
      if assignable kt (reflect.Key (typ m))
      then Return (DMap (mapStore k value (entriesOf (data m))))
      else Panic "reflect.Value.SetMapIndex: value is not assignable to type"
    end.

(** [st.Field(i)] of a struct and [field.Index(i)] of an array. *)
Definition Field (st : Value) (i : nat) : Value :=
  match nth_error (reflect.Fields (typ st)) i with
  | Some f =>
    mkValue (reflect.fieldType f) (flagRO st || negb (reflect.fieldExported f))
            (nth i (elemsOf (data st)) DNil)
  | None => mkValue (reflect.TBasic "" reflect.Invalid) true DNil
  end.

Definition Index (field : Value) (i : nat) : Value :=
  mkValue (reflect.Elem (typ field)) (flagRO field)
          (nth i (elemsOf (data field)) DNil).

(** The struct [st] after its field [i] has got the contents [d]. *)
Definition withField (st : Data) (i : nat) (d : Data) : Data :=
  DStruct (updateAt i d (elemsOf st)).

End Binder.

Arguments DBool {F} b.
Arguments DInt {F} k i.
Arguments DUint {F} k u.
Arguments DFloat {F} k f.
Arguments DString {F} s.
Arguments DArray {F} elems.
Arguments DSlice {F} elems.
Arguments DMap {F} entries.
Arguments DStruct {F} fields.
Arguments DNil {F}.
Arguments mkEntry {F} key value.
Arguments mkValue {F} typ flagRO data.
Arguments typ {F} v.
Arguments flagRO {F} v.
Arguments data {F} v.
Arguments encodeScalarField {F} ParseFloat s kind.
Arguments Zero {F} Fzero t.
Arguments typeOfItem {F} d.
Arguments ValueOf {F} item.
Arguments Set_ {F} field x.
Arguments Append {F} field x.
Arguments SetMapIndex {F} Feqb m key value.
Arguments Field {F} st i.
Arguments Index {F} field i.
Arguments withField {F} st i d.
Arguments elemsOf {F} d.
Arguments entriesOf {F} d.
Arguments updateAt {F} i d l.
Arguments keyEqb {F} Feqb a b.
Arguments mapStore {F} Feqb k v l.

(* ================================================================== *)
(** ** The binder: lists                                               *)
(* ================================================================== *)

(** The two ways [packToStruct] fills a structure. *)
Inductive Mode := ByFieldOrder | ByFieldName.

(** The loop of [packToStruct]: the first value that is a string, or a
    list whose head is not the name of a field, sends the node to
    [packToStructByFieldOrder]; a node without such a value goes to
    [packToStructByFieldName]. *)
Fixpoint structMode (st : reflect.Type_) (vs : list selfValue) : Mode :=
  match vs with
  | [] => ByFieldName
  | VString _ :: _ => ByFieldOrder
  | VNode n :: rest =>
    if negb (reflect.hasField st (str (head n))) then ByFieldOrder
    else structMode st rest
  end.

(** Check the header value for a compound type nested into a slice or
    array. *)
Definition checkMetaHeader (node : selfNode) (elemType : reflect.Type_)
  : option packError :=
  let header := str (head node) in
  match reflect.KindOf elemType with
  | reflect.Slice | reflect.Array =>
    if negb (len header =? 0) then
      Some (stringPackError (head node)
              ("slice head has value `" ++ header ++ "` instead of []"))
    else None
  | reflect.Struct | reflect.Map =>
    if negb (isBulletPoint header)
       && negb (header =? reflect.Name elemType)%string
    then
      Some (stringPackError (head node)
              ("struct head has value `" ++ header
               ++ "` instead of bullet or `" ++ reflect.Name elemType ++ "`"))
    else None
  | _ => None
  end.

(** The [switch] at the head of the loops of [packToArray] and
    [packToSlice]: a value bound to an element of a compound kind must be
    a list, and its header is checked. *)
Definition checkElement (elemType : reflect.Type_) (n : selfValue)
  : option packError :=
  match reflect.KindOf elemType with
  | reflect.Slice | reflect.Array | reflect.Struct | reflect.Map =>
    match n with
    | VString _ =>
      Some (newPackError n
              ("compound kind `" ++ reflect.KindString (reflect.KindOf elemType)
               ++ "` expected a list of values"))
    | VNode subNode => checkMetaHeader subNode elemType
    end
  | _ => None
  end.

(** [fmt.Sprintf("%d", n)]. *)
Definition decimal (n : Z) : string :=
  DecimalString.NilZero.string_of_int (Z.to_int n).

Section Pack.

Variable F : Type.
Variable Fzero : F.
Variable Feqb : F -> F -> bool.
Variable ParseFloat : string -> Z -> option F.

(** What a method that writes into a destination returns: the new
    contents of the destination and the error ([None] for [nil]).  The
    contents are returned with an error too, since the methods write in
    place and stop at the first error. *)
Definition Packed : Type := Go (Data F * option packError).

(** What [makeValue] returns: a value and the error. *)
Definition Maked : Type := Go (Made F * option packError).

(** Packs a selfString into a new allocated reflect.Value. *)
Definition stringMakeValue (s : selfString) (t : reflect.Type_) : Maked :=
  let kind := reflect.KindOf t in
  let value : Made F := Some (t, Zero Fzero t) in
  if isScalarKind kind then
    match encodeScalarField ParseFloat s kind with
    | Panic msg => Panic msg
    | Return (_, Some err) => Return (value, Some err)
    | Return (item, None) => Return (ValueOf item, None)
    end
  else if isCompoundKind kind then
    Return (value,
            Some (stringPackError s
                    ("cannot pack string `" ++ str s
                     ++ "` into field of compound kind "
                     ++ reflect.KindString kind)))
  else
    Return (value,
            Some (stringPackError s
                    ("unsupported field kind " ++ reflect.KindString kind))).

(** Packs a selfString into a Go structure/map field.
    The field type must be scalar to hold the value. *)
Definition stringPackIntoField (s : selfString) (field : Value F) : Packed :=
  match stringMakeValue s (typ field) with
  | Panic msg => Panic msg
  | Return (_, Some err) => Return (data field, Some err)
  | Return (value, None) =>
    match Set_ field value with
    | Panic msg => Panic msg
    | Return d => Return (d, None)
    end
  end.

(** The methods of a node reach the values below it through the two
    methods of the interface [selfValue]. *)
Variable packIntoField : selfValue -> string -> Value F -> Packed.
Variable makeValue : selfValue -> reflect.Type_ -> Maked.

(** The loop of [packToArray] from the value of index [i] on, on the
    elements of the array. *)
Fixpoint arrayLoop (field : Value F) (i : nat) (vs : list selfValue)
         (elems : list (Data F)) : Go (list (Data F) * option packError) :=
  match vs with
  | [] => Return (elems, None)
  | n :: rest =>
    match checkElement (reflect.Elem (typ field)) n with
    | Some err => Return (elems, Some err)
    | None =>
      match packIntoField n ""
              (Index (mkValue (typ field) (flagRO field) (DArray elems)) i)
      with
      | Panic msg => Panic msg
      | Return (d, Some err) => Return (updateAt i d elems, Some err)
      | Return (d, None) => arrayLoop field (S i) rest (updateAt i d elems)
      end
    end
  end.

(** Packs a selfNode into a Go array. *)
Definition packToArray (node : selfNode) (field : Value F) : Packed :=
  let arraySize := reflect.Len (typ field) in
  if arraySize <? Z.of_nat (List.length (values node)) then
    Return (data field,
            Some (nodePackError node
                    ("too many values to fit into array of "
                     ++ decimal arraySize ++ " elements")))
  else
    match arrayLoop field O (values node) (elemsOf (data field)) with
    | Panic msg => Panic msg
    | Return (elems, err) => Return (DArray elems, err)
    end.

(** The loop of [packToSlice], on the contents of the slice. *)
Fixpoint sliceLoop (t : reflect.Type_) (ro : bool) (vs : list selfValue)
         (d : Data F) : Packed :=
  match vs with
  | [] => Return (d, None)
  | n :: rest =>
    match checkElement (reflect.Elem t) n with
    | Some err => Return (d, Some err)
    | None =>
      match makeValue n (reflect.Elem t) with
      | Panic msg => Panic msg
      | Return (_, Some err) => Return (d, Some err)
      | Return (value, None) =>
        match Append (mkValue t ro d) value with
        | Panic msg => Panic msg
        | Return d' => sliceLoop t ro rest d'
        end
      end
    end
  end.

(** Packs a selfNode into a Go slice. *)
Definition packToSlice (node : selfNode) (field : Value F) : Packed :=
  sliceLoop (typ field) (flagRO field) (values node) (data field).

(** The loop of [packToMap], on the contents of the map. *)
Fixpoint mapLoop (node : selfNode) (t : reflect.Type_) (ro : bool)
         (vs : list selfValue) (d : Data F) : Packed :=
  match vs with
  | [] => Return (d, None)
  | n :: rest =>
    match n with
    | VString _ =>
      Return (d, Some (newPackError n
                         ("field `" ++ str (head node)
                          ++ "` should be only made of lists")))
    | VNode valueNode =>
      let nodeHead := head valueNode in
      match encodeScalarField ParseFloat nodeHead
              (reflect.KindOf (reflect.Key t)) with
      | Panic msg => Panic msg
      | Return (_, Some err) => Return (d, Some err)
      | Return (key, None) =>
        let value := mkValue (reflect.Elem t) false
                             (Zero Fzero (reflect.Elem t)) in
        match packIntoField n (str nodeHead) value with
        | Panic msg => Panic msg
        | Return (_, Some err) => Return (d, Some err)
        | Return (v, None) =>
          match SetMapIndex Feqb (mkValue t ro d) (ValueOf key) v with
          | Panic msg => Panic msg
          | Return d' => mapLoop node t ro rest d'
          end
        end
      end
    end
  end.

(** Packs a selfNode into a Go map.
    Values must be nodes as their heads are used as keys into the map. *)
Definition packToMap (node : selfNode) (m : Value F) : Packed :=
  mapLoop node (typ m) (flagRO m) (values node) (data m).

(** The loop of [packToStructByFieldName], on the contents of the
    structure. *)
Fixpoint byNameLoop (node : selfNode) (t : reflect.Type_) (ro : bool)
         (vs : list selfValue) (d : Data F) : Packed :=
  match vs with
  | [] => Return (d, None)
  | n :: rest =>
    match n with
    | VString _ =>
      Return (d, Some (newPackError n
                         ("field `" ++ str (head node)
                          ++ "` should be only made of lists")))
    | VNode valueNode =>
      let fieldName := publicName (str (head valueNode)) in
      match reflect.fieldIndex fieldName (reflect.Fields t) with
      | None =>
        Return (d, Some (nodePackError valueNode
                           ("undefined field `" ++ fieldName
                            ++ "` for node `" ++ str (head node) ++ "`")))
      | Some i =>
        match packIntoField n fieldName (Field (mkValue t ro d) i) with
        | Panic msg => Panic msg
        | Return (fd, Some err) => Return (withField d i fd, Some err)
        | Return (fd, None) => byNameLoop node t ro rest (withField d i fd)
        end
      end
    end
  end.

(** Packs a selfNode into a Go structure.
    For each iterated member in the node, fills the corresponding
    structure field by name. *)
Definition packToStructByFieldName (node : selfNode) (st : Value F)
  : Packed :=
  byNameLoop node (typ st) (flagRO st) (values node) (data st).

(** The loop of [packToStructByFieldOrder] from the value of index [i]
    on. *)
Fixpoint byOrderLoop (t : reflect.Type_) (ro : bool) (i : nat)
         (vs : list selfValue) (d : Data F) : Packed :=
  match vs with
  | [] => Return (d, None)
  | n :: rest =>
    match packIntoField n "" (Field (mkValue t ro d) i) with
    | Panic msg => Panic msg
    | Return (fd, Some err) => Return (withField d i fd, Some err)
    | Return (fd, None) => byOrderLoop t ro (S i) rest (withField d i fd)
    end
  end.

(** Packs a selfNode into a Go structure.
    For each iterated member in the node, fills the corresponding
    structure field by order.  Node head must match with structure type
    name (empty string for anonymous struct). *)
Definition packToStructByFieldOrder (node : selfNode) (st : Value F)
  : Packed :=
  let typeName := reflect.Name (typ st) in
  if reflect.NumField (typ st) <? Z.of_nat (List.length (values node)) then
    Return (data st,
            Some (nodePackError node
                    ("too many values to fit into struct " ++ typeName)))
  else
    let nodeName := str (head node) in
    if negb (isBulletPoint nodeName) && negb (typeName =? nodeName)%string
    then
      Return (data st,
              Some (nodePackError node
                      ("bad value `" ++ nodeName ++ "`, expected `"
                       ++ typeName ++ "`")))
    else byOrderLoop (typ st) (flagRO st) O (values node) (data st).

(** Packs a selfNode into a Go structure.
    If the node only contains subnodes and their heads match field
    names, consider filling each field by name. *)
Definition packToStruct (node : selfNode) (st : Value F) : Packed :=
  match structMode (typ st) (values node) with
  | ByFieldOrder => packToStructByFieldOrder node st
  | ByFieldName => packToStructByFieldName node st
  end.

(** Packs a selfNode into a Go structure/map field. *)
Definition nodePackIntoField (node : selfNode) (name : string)
           (field : Value F) : Packed :=
  let fieldKind := reflect.KindOf (typ field) in
  if isScalarKind fieldKind then
    match values node with
    | [VString strValue] => stringPackIntoField strValue field
    | [VNode _] =>
      Return (data field,
              Some (nodePackError node
                      ("expected a string element for scalar field `"
                       ++ name ++ "`")))
    | _ =>
      Return (data field,
              Some (nodePackError node
                      ("bad number of values for scalar field `"
                       ++ name ++ "`")))
    end
  else
    match fieldKind with
    | reflect.Struct => packToStruct node field
    | reflect.Array => packToArray node field
    | reflect.Slice => packToSlice node field
    | reflect.Map =>
      (* Map requires initialization. *)
      match Set_ field (Some (typ field, Zero Fzero (typ field))) with
      | Panic msg => Panic msg
      | Return d => packToMap node (mkValue (typ field) (flagRO field) d)
      end
    | _ =>
      Return (data field,
              Some (nodePackError node
                      ("unsupported field kind "
                       ++ reflect.KindString fieldKind)))
    end.

(** What [makeValue] makes of the outcome of a method that has filled
    the fresh value of type [t]. *)
Definition made (t : reflect.Type_) (m : Packed) : Maked :=
  match m with
  | Panic msg => Panic msg
  | Return (d, err) => Return (Some (t, d), err)
  end.

(** Packs a selfNode into a new allocated reflect.Value. *)
Definition nodeMakeValue (node : selfNode) (t : reflect.Type_) : Maked :=
  let kind := reflect.KindOf t in
  let fresh := mkValue t false (Zero Fzero t) in
  if isScalarKind kind then
    Return (Some (t, Zero Fzero t),
            Some (nodePackError node
                    "expected a string element for scalar field"))
  else
    match kind with
    | reflect.Array =>
      (* [reflect.MakeSlice(t, ...)] on the array type [t] *)
      Panic "reflect.MakeSlice of non-slice type"
    | reflect.Slice => made t (packToSlice node fresh)
    | reflect.Struct => made t (packToStruct node fresh)
    | reflect.Map => made t (packToMap node fresh)
    | _ =>
      Return (Some (t, Zero Fzero t),
              Some (nodePackError node
                      ("unsupported field kind " ++ reflect.KindString kind)))
    end.

End Pack.

(** The two methods of the interface [selfValue], on its two
    implementations. *)
Fixpoint packIntoField {F : Type} (Fzero : F) (Feqb : F -> F -> bool)
         (ParseFloat : string -> Z -> option F)
         (v : selfValue) {struct v} : string -> Value F -> Packed F :=
  match v with
  | VString s => fun _ field => stringPackIntoField F Fzero ParseFloat s field
  | VNode node =>
    nodePackIntoField F Fzero Feqb ParseFloat
      (packIntoField Fzero Feqb ParseFloat) (makeValue Fzero Feqb ParseFloat)
      node
  end

with makeValue {F : Type} (Fzero : F) (Feqb : F -> F -> bool)
         (ParseFloat : string -> Z -> option F)
         (v : selfValue) {struct v} : reflect.Type_ -> Maked F :=
  match v with
  | VString s => stringMakeValue F Fzero ParseFloat s
  | VNode node =>
    nodeMakeValue F Fzero Feqb ParseFloat
      (packIntoField Fzero Feqb ParseFloat) (makeValue Fzero Feqb ParseFloat)
      node
  end.

(** How [LoadString] ends. *)
Inductive Loaded (F : Type) :=
| ParseFailed (e : parserError)
| Bound (d : Data F) (err : option packError)
| LoadPanicked (msg : string)
| LoadUnfinished.
Arguments ParseFailed {F} e.
Arguments Bound {F} d err.
Arguments LoadPanicked {F} msg.
Arguments LoadUnfinished {F}.

(** Parses a self-ml string and fills the output structure: [out] is the
    structure the pointer given to [LoadString] points to. *)
Definition LoadString {F : Type} (Fzero : F) (Feqb : F -> F -> bool)
           (ParseFloat : string -> Z -> option F)
           (fuel : nat) (data : string) (out : Value F) : Loaded F :=
  match parseTree fuel data with
  | Failed e => ParseFailed e
  | Panicked msg => LoadPanicked msg
  | Unfinished => LoadUnfinished
  | Returned rootNode =>
    match packToStructByFieldName F
            (packIntoField Fzero Feqb ParseFloat) rootNode out with
    | Panic msg => LoadPanicked msg
    | Return (d, err) => Bound d err
    end
  end.

(* ================================================================== *)
(** ** Vocabulary of the statements                                    *)
(* ================================================================== *)

(** The line feed, and a string made of one byte. *)
Definition lf : string := String (byte_of_Z 10) EmptyString.


Definition isListValue (v : selfValue) : bool :=
  match v with
  | VString _ => false
  | VNode _ => true
  end.


(** The tree without its line numbers. *)
Fixpoint eraseLines (v : selfValue) : selfValue :=
  match v with
  | VString s => VString (mkString (str s) 0)
  | VNode n => VNode (eraseNodeLines n)
  end

with eraseNodeLines (n : selfNode) : selfNode :=
  match n with
  | mkNode h vs _ rt => mkNode (mkString (str h) 0) (map eraseLines vs) 0 rt
  end.

(** The root node [LoadString] builds around the top-level lists. *)
Definition rootOf (vs : list selfValue) : selfNode :=
  mkNode (mkString "root" 0) vs 0 true.

(** The list [(label text)] written on one line: a head and one string. *)
Definition pairNode (label text : string) (line : N) : selfValue :=
  VNode (mkNode (mkString label line) [VString (mkString text line)]
                line false).

(** The signed and unsigned integer kinds [encodeScalarField] converts. *)
Definition isIntegerKind (kind : reflect.Kind) : bool :=
  match kind with
  | reflect.Int | reflect.Int8 | reflect.Int16 | reflect.Int32
  | reflect.Int64
  | reflect.Uint | reflect.Uint8 | reflect.Uint16 | reflect.Uint32
  | reflect.Uint64 => true
  | _ => false
  end.

(** The six bullet characters of the specification, as they are written
    in UTF-8: [-], [*], U+2022, U+2023, U+2043 and U+25E6. *)
Definition bulletMarkers : list string := ["-"; "*"; "•"; "‣"; "⁃"; "◦"].


(** The label begins with one of the six characters. *)
Definition startsWithBullet (label : string) : bool :=
  existsb (fun b => String.prefix b label) bulletMarkers.


(** What the meta-header rule asks of a value bound to an element of a
    compound type: to be a list, with an empty head when the element is a
    slice or an array, and with a head that begins with a bullet
    character or is the name of the element type when it is a structure
    or a map. *)
Definition elementOK (elemType : reflect.Type_) (v : selfValue) : bool :=
  match v with
  | VString _ => false
  | VNode n =>
    match reflect.KindOf elemType with
    | reflect.Slice | reflect.Array => (str (head n) =? "")%string
    | _ => startsWithBullet (str (head n))
           || (str (head n) =? reflect.Name elemType)%string
    end
  end.


(** The literals the boolean coercion takes for true and for false. *)
Definition trueLiterals : list string :=
  ["1"; "t"; "T"; "true"; "TRUE"; "True"; "y"; "yes"; "YES"; "Yes"].

Definition falseLiterals : list string :=
  ["0"; "f"; "F"; "false"; "FALSE"; "False"; "n"; "no"; "NO"; "No"].

Definition isLiteral (s : string) (l : list string) : bool :=
  existsb (String.eqb s) l.

(** The predeclared types of the examples. *)
Definition uint8Type : reflect.Type_ := reflect.TBasic "uint8" reflect.Uint8.
Definition intType : reflect.Type_ := reflect.TBasic "int" reflect.Int.
Definition stringType : reflect.Type_ := reflect.TBasic "string" reflect.String.

(** [type Info struct { Name string; Age int }]. *)
Definition infoType : reflect.Type_ :=
  reflect.TStruct "Info"
    [reflect.mkField "Name" true stringType;
     reflect.mkField "Age" true intType].

(** Floating point numbers of the examples, which have none. *)
Definition noFloat (s : string) (bitSize : Z) : option unit := None.
Definition unitEqb (a b : unit) : bool := true.




Definition noError {A} (m : Go (A * option packError)) : bool :=
  match m with
  | Return (_, None) => true
  | _ => false
  end.

(** The binder of the examples. *)
Definition pack0 : selfValue -> string -> Value unit -> Packed unit :=
  packIntoField tt unitEqb noFloat.

Definition make0 : selfValue -> reflect.Type_ -> Maked unit :=
  makeValue tt unitEqb noFloat.

(** A string on line 1, and a destination of type [Info]. *)
Definition word (s : string) : selfValue := VString (mkString s 1).

Definition infoValue (name : string) (age : Z) : Value unit :=
  mkValue infoType false (DStruct [DString name; DInt reflect.Int age]).


(** [[][]int] and [[2][]int], with their zero values. *)
Definition rowType : reflect.Type_ := reflect.TSlice "" intType.

Definition rowsValue : Value unit :=
  mkValue (reflect.TSlice "" rowType) false (DSlice []).


(** The list [(label a b)] of two strings on line 1. *)
Definition row (label a b : string) : selfValue :=
  VNode (mkNode (mkString label 1) [word a; word b] 1 false).

(** [struct { Info Info }], the destination of the documents that hold one
    record, and what [LoadString] makes of a document with it. *)
Definition profileType : reflect.Type_ :=
  reflect.TStruct "Profile" [reflect.mkField "Info" true infoType].

Definition loadProfile (fuel : nat) (data : string) : Loaded unit :=
  LoadString tt unitEqb noFloat fuel data
             (mkValue profileType false (Zero tt profileType)).

Definition profileOf (name : string) (age : Z) : Data unit :=
  DStruct [DStruct [DString name; DInt reflect.Int age]].

(** The two documents of the comment property. *)
Definition commented : string := "; comment" ++ lf ++ "(X 1)".
Definition uncommented : string := "(X 1)".

(** A list that is not closed, and the state of its parser on the rune [c]
    of index [i]. *)
Definition unclosed : string := "(X hello".

Definition unclosedAt (i c : Z) : selfParser :=
  mkParser unclosed i 1 c 1 false.

(* ================================================================== *)
(** ** Two parsers on the same text, one behind a prefix               *)
(* ================================================================== *)

(** The tree with each line number moved by [dl]. *)
Definition shiftString (dl : N) (s : selfString) : selfString :=
  mkString (str s) (strLine s + dl).

Fixpoint shiftLines (dl : N) (v : selfValue) : selfValue :=
  match v with
  | VString s => VString (shiftString dl s)
  | VNode n => VNode (shiftNodeLines dl n)
  end

with shiftNodeLines (dl : N) (n : selfNode) : selfNode :=
  match n with
  | mkNode h vs l rt =>
    mkNode (shiftString dl h) (map (shiftLines dl) vs) (l + dl) rt
  end.

(** The answer of [parseTree] with the lines of the top-level lists and of
    the error moved by [dl]; the root node keeps its line 0. *)
Definition shiftRun (dl : N) (m : Run selfNode) : Run selfNode :=
  match m with
  | Returned n => Returned (rootOf (map (shiftLines dl) (values n)))
  | Failed e => Failed (mkParserError (message e) (errLine e + dl))
  | Panicked msg => Panicked msg
  | Unfinished => Unfinished
  end.

(** The parser [p] reads behind the prefix [pre], [dl] lines further, the
    text that the parser [q] reads: they are on the same rune, and their
    next rune is at the same place of that text. *)
Definition shifted (pre : string) (dl : N) (p q : selfParser) : Prop :=
  input p = pre ++ input q
  /\ lineNumber p = (lineNumber q + dl)%N
  /\ r p = r q
  /\ eod p = eod q
  /\ 0 <= runeWidth p /\ 0 <= runeWidth q
  /\ 0 <= pos q + runeWidth q
  /\ (if eod q
      then len (input p) <= pos p /\ len (input q) <= pos q
      else pos p + runeWidth p = len pre + (pos q + runeWidth q)).

(** Two calls end the same way, with values in the relation [RA], parsers
    in the relation [shifted] and the line of the error moved by [dl]. *)
Inductive alike (pre : string) (dl : N) {A : Type} (RA : A -> A -> Prop)
  : PResult A -> PResult A -> Prop :=
| alikeOk (a1 a2 : A) (p q : selfParser) :
    RA a1 a2 -> shifted pre dl p q -> alike pre dl RA (POk a1 p) (POk a2 q)
| alikeErr (msg : string) (line : N) :
    alike pre dl RA (PErr (mkParserError msg (line + dl)))
                    (PErr (mkParserError msg line))
| alikePanic (msg : string) :
    alike pre dl RA (PPanic msg) (PPanic msg)
| alikeFuel : alike pre dl RA POutOfFuel POutOfFuel.

(** A comment text: bytes of ASCII other than the line feed. *)
Definition commentByte (c : ascii) : bool :=
  (byteZ c <? 128) && negb (byteZ c =? 10).

Fixpoint commentText (s : string) : bool :=
  match s with
  | EmptyString => true
  | String c t => commentByte c && commentText t
  end.

(** The values two such parsers return: the same ones, [dl] lines
    apart. *)
Definition sameString (dl : N) (s1 s2 : selfString) : Prop :=
  s1 = shiftString dl s2.

Definition sameNode (dl : N) (n1 n2 : selfNode) : Prop :=
  n1 = shiftNodeLines dl n2.

Definition sameValues (dl : N) (l1 l2 : list selfValue) : Prop :=
  l1 = map (shiftLines dl) l2.

(** The parser of a document that starts with a comment line, once on
    the line feed of that line. *)
Definition afterComment (c rest : string) : selfParser :=
  mkParser (";" ++ c ++ lf ++ rest) (1 + len c) 1 10 1 false.


(* ================================================================== *)
(** ** Vocabulary of the further properties                            *)
(* ================================================================== *)

(** The signed and the unsigned integer kinds. *)
Definition isSignedKind (kind : reflect.Kind) : bool :=
  match kind with
  | reflect.Int | reflect.Int8 | reflect.Int16 | reflect.Int32
  | reflect.Int64 => true
  | _ => false
  end.

Definition isUnsignedKind (kind : reflect.Kind) : bool :=
  match kind with
  | reflect.Uint | reflect.Uint8 | reflect.Uint16 | reflect.Uint32
  | reflect.Uint64 => true
  | _ => false
  end.

(** A call has panicked. *)
Definition panics {A} (m : Go A) : bool :=
  match m with
  | Panic _ => true
  | Return _ => false
  end.

Definition entryKey {F} (e : Entry F) : Data F :=
  let (k, _) := e in k.

Definition entryValue {F} (e : Entry F) : Data F :=
  let (_, v) := e in v.

(** The key of the entry [e] of a map of type [t] is the coercion of the
    head of one of the lists [vs]. *)
Definition keyOf {F} (ParseFloat : string -> Z -> option F)
           (t : reflect.Type_) (vs : list selfValue) (e : Entry F) : Prop :=
  exists n, In (VNode n) vs
            /\ encodeScalarField ParseFloat (head n)
                 (reflect.KindOf (reflect.Key t))
               = Return (Some (entryKey e), None).

(** Destinations of the examples: a [[]int] that holds 1 and 2, a
    [[3]int] that holds 7, 8 and 9, a [[][2]int], and a
    [map[string]int] that holds one entry. *)
Definition intsValue : Value unit :=
  mkValue (reflect.TSlice "" intType) false
          (DSlice [DInt reflect.Int 1; DInt reflect.Int 2]).

Definition tripleValue : Value unit :=
  mkValue (reflect.TArray "" 3 intType) false
          (DArray [DInt reflect.Int 7; DInt reflect.Int 8;
                   DInt reflect.Int 9]).

Definition pairsValue : Value unit :=
  mkValue (reflect.TSlice "" (reflect.TArray "" 2 intType)) false
          (DSlice []).

Definition countsType : reflect.Type_ :=
  reflect.TMap "" stringType intType.

Definition countsValue : Value unit :=
  mkValue countsType false
          (DMap [mkEntry (DString "old") (DInt reflect.Int 1)]).

(** The lists [(L 10 20)], [(M ([] 10 20))] and [(C (a 10) (b 20))]. *)
Definition tens : selfNode :=
  mkNode (mkString "L" 1) [word "10"; word "20"] 1 false.

Definition tensRow : selfNode :=
  mkNode (mkString "M" 1) [row "" "10" "20"] 1 false.

Definition tensByKey : selfNode :=
  mkNode (mkString "C" 1) [pairNode "a" "10" 1; pairNode "b" "20" 1] 1 false.

(* ================================================================== *)
(** ** The parser on a text of ASCII                                   *)
(* ================================================================== *)

Definition asciiByte (c : ascii) : bool := byteZ c <? 128.

Fixpoint asciiText (s : string) : bool :=
  match s with
  | EmptyString => true
  | String c t => asciiByte c && asciiText t
  end.

Definition firstByte (s : string) : ascii :=
  match s with
  | EmptyString => zero
  | String c _ => c
  end.

(** The parser of the text [inp] on its byte of index [k], a byte of
    ASCII, on the line [line]; and the parser that [next] has moved past
    the last byte, the byte of index [k]. *)
Definition cursor (inp : string) (k : nat) (line : N) : selfParser :=
  mkParser inp (Z.of_nat k) line (byteZ (firstByte (drop k inp))) 1 false.

Definition cursorEnd (inp : string) (k : nat) (line : N) : selfParser :=
  mkParser inp (Z.of_nat k + 1) line (byteZ (firstByte (drop k inp))) 1 true.

(** The line [next] is on after it has passed the byte [c]. *)
Definition lineAfter (c : ascii) (line : N) : N :=
  if byteZ c =? endOfLine then N.succ line else line.

(** A byte of a bare string: a byte of ASCII that is a string
    character; and a word made of such bytes. *)
Definition plainByte (c : ascii) : bool :=
  asciiByte c && isStringChar (byteZ c).

Fixpoint plainWord (s : string) : bool :=
  match s with
  | EmptyString => true
  | String c t => plainByte c && plainWord t
  end.

(** A line feed or a space, and a text made of them. *)
Definition blankByte (c : ascii) : bool :=
  (byteZ c =? 10) || (byteZ c =? 32).

Fixpoint blankText (s : string) : bool :=
  match s with
  | EmptyString => true
  | String c t => blankByte c && blankText t
  end.

Fixpoint hasByte (b : Z) (s : string) : bool :=
  match s with
  | EmptyString => false
  | String c t => (byteZ c =? b) || hasByte b t
  end.

(* ================================================================== *)
(** ** Printing a tree                                                 *)
(* ================================================================== *)

Module strings.

(** The runes [for _, c := range s] goes through: an invalid byte gives
    [RuneError] and is passed alone.  [skip] counts the bytes of the
    current rune still to pass. *)
Fixpoint runesFrom (skip : nat) (s : string) : list Z :=
  match s with
  | EmptyString => []
  | String _ t =>
    match skip with
    | S k => runesFrom k t
    | O =>
      let (c, w) := utf8.DecodeRuneInString s in
      c :: runesFrom (Nat.pred (Z.to_nat w)) t
    end
  end.

Definition runes (s : string) : list Z := runesFrom 0 s.

(** [strings.ContainsAny(s, chars)] for valid UTF-8 [chars]: whether a
    rune of [s] is a rune of [chars] ([RuneError], which an invalid byte
    of [s] gives, is looked for as a rune too). *)
Definition ContainsAny (s chars : string) : bool :=
  existsb (fun c => existsb (Z.eqb c) (runes chars)) (runes s).

(** [strings.Replace(s, old, new, -1)] for an [old] of one byte. *)
Fixpoint ReplaceByte (s : string) (old : ascii) (new : string) : string :=
  match s with
  | EmptyString => EmptyString
  | String c t =>
    (if Ascii.eqb c old then new else String c EmptyString)
    ++ ReplaceByte t old new
  end.

Fixpoint copies (s : string) (n : nat) : string :=
  match n with
  | O => EmptyString
  | S k => s ++ copies s k
  end.

(** [strings.Repeat(s, count)]: it panics on a negative count. *)
Definition Repeat (s : string) (count : Z) : Go string :=
  if count <? 0 then Panic "strings: negative Repeat count"
  else Return (copies s (Z.to_nat count)).

End strings.

(** [whiteSpaces]: tab, carriage return, line feed, form feed, U+00A0
    and U+0085 in UTF-8. *)
Definition whiteSpaces : string :=
  String (byte_of_Z 9) (String (byte_of_Z 13) (String (byte_of_Z 10)
    (String (byte_of_Z 12) (String (byte_of_Z 194) (String (byte_of_Z 160)
      (String (byte_of_Z 194) (String (byte_of_Z 133) EmptyString))))))).

Definition quotedChars : string :=
  whiteSpaces ++ "`#;" ++ String (byte_of_Z 92) "([{}])".

(** Converts a selfString into a printable string. *)
Definition dumpString (s : selfString) : string :=
  if len (str s) =? 0 then "[]"
  else if strings.ContainsAny (str s) quotedChars then
    "`" ++ strings.ReplaceByte (str s) "`"%char "``" ++ "`"
  else str s.

(** The loop of [selfNode.Dump] on its result [str], with the method
    [Dump] of the values as [dump]. *)
Fixpoint dumpLoop (dump : selfValue -> Z -> Go string) (isRoot : bool)
         (indent : Z) (vs : list selfValue) (acc : string) : Go string :=
  match vs with
  | [] => Return acc
  | v :: rest =>
    match strings.Repeat "    " (indent + 1) with
    | Panic msg => Panic msg
    | Return pad =>
      match dump v (indent + 1) with
      | Panic msg => Panic msg
      | Return text =>
        let acc := acc ++ lf ++ pad ++ text in
        dumpLoop dump isRoot indent rest (if isRoot then acc ++ lf else acc)
      end
    end
  end.

(** Converts a selfNode into a printable string with indentation.  The
    indentation stays far below the bounds of [int] and is not
    wrapped. *)
Fixpoint Dump (v : selfValue) (indent : Z) : Go string :=
  match v with
  | VString s => Return (dumpString s)
  | VNode n => dumpNode n indent
  end

with dumpNode (node : selfNode) (indent : Z) : Go string :=
  match node with
  | mkNode h vs _ rt =>
    let start := if negb rt then "(" ++ dumpString h else "" in
    let indent := if negb rt then indent else indent - 1 in
    match dumpLoop Dump rt indent vs start with
    | Panic msg => Panic msg
    | Return body => Return (if negb rt then body ++ ")" else body)
    end
  end.

(** What the loop of [Dump] appends for values of the texts [texts]. *)
Fixpoint joined (pad : string) (isRoot : bool) (texts : list string)
  : string :=
  match texts with
  | [] => EmptyString
  | t :: ts =>
    lf ++ pad ++ t ++ (if isRoot then lf else EmptyString)
    ++ joined pad isRoot ts
  end.

(** A string that is read back as it is printed: it is made of ASCII,
    has no backtick and, when it is printed without quotes, has no space
    and no vertical tab (the two white spaces of ASCII that
    [whiteSpaces] does not list). *)
Definition dumpable (s : string) : bool :=
  asciiText s && negb (hasByte backtick s)
  && (strings.ContainsAny s quotedChars || plainWord s).

(** A value as the parser builds them: no node under the root is a
    root; with strings that are read back as they are printed. *)
Fixpoint printable (v : selfValue) : bool :=
  match v with
  | VString s => dumpable (str s)
  | VNode n => printableNode n
  end

with printableNode (n : selfNode) : bool :=
  match n with
  | mkNode h vs _ rt =>
    negb rt && dumpable (str h) && forallb printable vs
  end.

(** A root as the parser builds it. *)
Definition printableRoot (n : selfNode) : bool :=
  root n && (str (head n) =? "root")%string
  && forallb (fun v => isListValue v && printable v) (values n).

(** The indentation [Dump] writes before the values of a list printed
    with [indent]. *)
Definition padOf (indent : Z) : string :=
  strings.copies "    " (Z.to_nat (indent + 1)).

(** What the loop of [parseNodeBody] calls, under a list, on the first
    byte of a printed value: [parseNode] on a list, [parseString] on a
    string. *)
Definition parseAs (v : selfValue) (n : nat) (p : selfParser)
  : PResult selfValue :=
  match v with
  | VString _ => '(s, q) <- parseString n p ;; POk (VString s) q
  | VNode _ => '(nd, q) <- parseNode n p ;; POk (VNode nd) q
  end.

(** The bytes [Dump] writes after a value: a line feed or a closing
    parenthesis. *)
Definition closingByte (c : ascii) : bool :=
  (byteZ c =? endOfLine) || (byteZ c =? sexprClose).

(** The value [v], printed in a text before a line feed or a closing
    parenthesis, is read back up to the line numbers, with enough
    fuel. *)
Definition readsBack (v : selfValue) : Prop :=
  forall (indent : Z) (text : string) (e : ascii) (rest inp : string)
         (k : nat) (line : N),
  printable v = true -> Dump v indent = Return text ->
  closingByte e = true -> drop k inp = text ++ String e rest ->
  exists v' line' n0,
    eraseLines v' = eraseLines v
    /\ forall n, (n0 <= n)%nat ->
       parseAs v n (cursor inp k line)
       = POk v' (cursor inp (k + String.length text) line').

(** A tree with a string of each kind: bare, empty, quoted for a
    parenthesis, a comment character and a line feed. *)
Definition printedTree : selfNode :=
  rootOf
    [VNode (mkNode (mkString "a(b" 1)
              [VString (mkString "" 2);
               VString (mkString "x;y" 3);
               VNode (mkNode (mkString "Y" 4)
                        [VString (mkString "1" 5);
                         VNode (mkNode (mkString "Z" 6) [] 6 false)]
                        4 false)]
              1 false);
     VNode (mkNode (mkString "W" 9)
              [VString (mkString ("a" ++ lf ++ "b") 10)] 9 false)].

(** The level of the loop of [parseBracketedString] after the text [s],
    read from the level [level]; [None] when a bracket of [s] closes the
    string. *)
Fixpoint bracketLevel (level : Z) (s : string) : option Z :=
  match s with
  | EmptyString => Some level
  | String c t =>
    if byteZ c =? 93 then
      if level - 1 =? 0 then None else bracketLevel (level - 1) t
    else if byteZ c =? 91 then bracketLevel (level + 1) t
    else bracketLevel level t
  end.
(* ================================================================== *)
(** ** Fuel: a call that has ended does not depend on it               *)
(* ================================================================== *)

Lemma pbind_finished {A B} (m : PResult A) (k : A -> selfParser -> PResult B) :
  finished (pbind m k) -> finished m.
Proof. destruct m; simpl; unfold finished; congruence. Qed.

Lemma pbind_mono {A B} (m1 m2 : PResult A)
      (k1 k2 : A -> selfParser -> PResult B) :
  finished (pbind m1 k1) ->
  (finished m1 -> m2 = m1) ->
  (forall a p, m1 = POk a p -> finished (k1 a p) -> k2 a p = k1 a p) ->
  pbind m2 k2 = pbind m1 k1.
Proof.
  intros Hf Hm Hk.
  rewrite (Hm (pbind_finished _ _ Hf)).
  destruct m1; simpl in *; auto.
Qed.

Ltac mono_start n IH :=
  induction n as [|n IH]; intros;
  [ match goal with H : finished _ |- _ => exfalso; apply H; reflexivity end
  | match goal with
    | Hle : (S n <= ?m)%nat |- _ =>
      destruct m as [|m]; [lia|]; assert (n <= m)%nat by lia; clear Hle
    end ].

Lemma skipLine_mono n : forall p,
  finished (skipLine n p) ->
  forall m, (n <= m)%nat -> skipLine m p = skipLine n p.
Proof.
  mono_start n IH. simpl in *.
  destruct (negb (eod p) && negb (r p =? endOfLine)); auto.
  apply pbind_mono; auto.
Qed.

Lemma skipSpaces_mono n : forall p,
  finished (skipSpaces n p) ->
  forall m, (n <= m)%nat -> skipSpaces m p = skipSpaces n p.
Proof.
  mono_start n IH. simpl in *.
  destruct (negb (eod p) && (isComment (r p) || isSpace (r p))); auto.
  destruct (isComment (r p)); apply pbind_mono; auto.
  intros Hf. apply skipLine_mono; auto.
Qed.

Lemma backtickLoop_mono n : forall s prev p,
  finished (backtickLoop n s prev p) ->
  forall m, (n <= m)%nat -> backtickLoop m s prev p = backtickLoop n s prev p.
Proof.
  mono_start n IH. simpl in *.
  destruct (negb (eod p)); auto.
  destruct (negb (r p =? backtick) && (prev =? backtick)); auto.
  apply pbind_mono; auto.
Qed.

Lemma bracketLoop_mono n : forall level s p,
  finished (bracketLoop n level s p) ->
  forall m, (n <= m)%nat -> bracketLoop m level s p = bracketLoop n level s p.
Proof.
  mono_start n IH. simpl in *.
  destruct (negb (eod p)); auto.
  destruct ((r p =? 93) && _); auto.
  apply pbind_mono; auto.
Qed.

Lemma bareLoop_mono n : forall s p,
  finished (bareLoop n s p) ->
  forall m, (n <= m)%nat -> bareLoop m s p = bareLoop n s p.
Proof.
  mono_start n IH. simpl in *.
  destruct (isStringChar (r p)); auto.
  apply pbind_mono; auto.
Qed.

Lemma parseString_mono n p :
  finished (parseString n p) ->
  forall m, (n <= m)%nat -> parseString m p = parseString n p.
Proof.
  unfold parseString, parseBacktickString, parseBracketedString.
  intros Hf m Hle.
  destruct (eod p); auto.
  destruct (r p =? backtick).
  { apply pbind_mono; auto. intros _ p1 _ Hf1.
    apply pbind_mono; auto. intros Hf2. apply backtickLoop_mono; auto. }
  destruct (r p =? 91).
  { apply pbind_mono; auto. intros _ p1 _ Hf1.
    apply pbind_mono; auto. intros Hf2. apply bracketLoop_mono; auto. }
  apply pbind_mono; auto. intros Hf2. apply bareLoop_mono; auto.
Qed.

Lemma parse_mono n :
  (forall rootNode p, finished (parseNodeBody n rootNode p) ->
     forall m, (n <= m)%nat ->
     parseNodeBody m rootNode p = parseNodeBody n rootNode p)
  /\ (forall rootNode vs p, finished (bodyLoop n rootNode vs p) ->
     forall m, (n <= m)%nat ->
     bodyLoop m rootNode vs p = bodyLoop n rootNode vs p)
  /\ (forall p, finished (parseNode n p) ->
     forall m, (n <= m)%nat -> parseNode m p = parseNode n p).
Proof.
  induction n as [|n (IHbody & IHloop & IHnode)].
  { repeat split; intros; exfalso;
      match goal with H : finished _ |- _ => apply H; reflexivity end. }
  repeat split; intros;
    (destruct m as [|m]; [lia|]); assert (Hle : (n <= m)%nat) by lia;
    simpl in *.
  - apply pbind_mono; auto.
    { intros Hf. apply skipSpaces_mono; auto. }
    intros _ p1 _ Hf1. apply pbind_mono; auto.
  - destruct (negb (eod p) && negb (r p =? sexprClose)); auto.
    apply pbind_mono; auto.
    + intros Hf. destruct (r p =? sexprOpen).
      * apply pbind_mono; auto.
      * destruct (negb rootNode); auto.
        apply pbind_mono; auto. intros Hf2. apply parseString_mono; auto.
    + intros v p1 _ Hf1. apply pbind_mono; auto.
      intros Hf2. apply skipSpaces_mono; auto.
  - apply pbind_mono; auto.
    { intros Hf. apply skipSpaces_mono; auto. }
    intros _ p1 _ Hf1.
    destruct (negb (r p1 =? sexprOpen)); auto.
    apply pbind_mono; auto. intros _ p2 _ Hf2.
    apply pbind_mono; auto.
    { intros Hf3. apply parseString_mono; auto. }
    intros nodeName p3 _ Hf3. apply pbind_mono; auto.
Qed.

Lemma parseRoot_mono n data :
  finished (parseRoot n data) ->
  forall m, (n <= m)%nat -> parseRoot m data = parseRoot n data.
Proof.
  unfold parseRoot. intros Hf m Hle.
  apply pbind_mono; auto.
  intros Hf1. apply (proj1 (parse_mono n)); auto.
Qed.

(** Once [parseTree] has given an answer with some fuel, it gives the same
    answer with any larger fuel. *)
Lemma parseTree_mono n data :
  parseTree n data <> Unfinished ->
  forall k, parseTree (n + k) data = parseTree n data.
Proof.
  unfold parseTree. intros Hf k.
  rewrite (parseRoot_mono n data); auto; try lia.
  intros E. apply Hf. rewrite E. reflexivity.
Qed.

(* ================================================================== *)
(** ** The parser on the documents of the specification                *)
(* ================================================================== *)

(** A document whose parse ends within [n] units of fuel parses to the
    same result with any fuel from [n] on. *)
Ltac parse_with_fuel :=
  intros; rewrite parseTree_mono; [ vm_compute; reflexivity
                                  | vm_compute; discriminate ].

(** C7. The documents [(X hello)], [(X `a b`)] and [(X [a [b] c])] each
    parse to one list of head [X] whose only value is the string [hello],
    [a b] and [a [b] c]: the bare string, the string between backticks
    and the bracketed string, whose inner brackets are kept. *)
Theorem strings_round_trip (k : nat) :
  parseTree (20 + k) "(X hello)" = Returned (rootOf [pairNode "X" "hello" 1])
  /\ parseTree (20 + k) "(X `a b`)" = Returned (rootOf [pairNode "X" "a b" 1])
  /\ parseTree (20 + k) "(X [a [b] c])"
     = Returned (rootOf [pairNode "X" "a [b] c" 1]).
Proof. repeat split; parse_with_fuel. Qed.

(** C9, as stated, fails: the tree of the commented document is not the
    tree of the other one, since its list and its strings are on line 2. *)
Lemma comment_changes_line_numbers :
  parseTree 20 commented = Returned (rootOf [pairNode "X" "1" 2])
  /\ parseTree 20 uncommented = Returned (rootOf [pairNode "X" "1" 1])
  /\ parseTree 20 commented <> parseTree 20 uncommented.
Proof.
  repeat split; try (vm_compute; reflexivity).
  vm_compute. discriminate.
Qed.

(** C9, amended. The commented document parses to the tree of the other
    one up to the line numbers: the comment line leaves no head, no
    string and no list, and moves what follows it from line 1 to
    line 2. *)
Theorem comment_skipped_up_to_lines (k : nat) :
  parseTree (20 + k) commented = Returned (rootOf [pairNode "X" "1" 2])
  /\ parseTree (20 + k) uncommented = Returned (rootOf [pairNode "X" "1" 1])
  /\ eraseNodeLines (rootOf [pairNode "X" "1" 2])
     = eraseNodeLines (rootOf [pairNode "X" "1" 1]).
Proof. repeat split; parse_with_fuel. Qed.

(** *** End of data *)

(** Once the end of data is reached, [next] leaves the current rune as it
    is. *)
Lemma next_at_end p :
  len (input p) <= pos p -> 0 <= runeWidth p ->
  exists p', next p = POk tt p' /\ r p' = r p /\ input p' = input p
             /\ runeWidth p' = runeWidth p /\ pos p <= pos p'.
Proof.
  intros Hlen Hw. unfold next.
  destruct (Z.leb_spec (len (input p)) (pos p + runeWidth p)); [|lia].
  eexists. split; [reflexivity|]. simpl. repeat split; try reflexivity; lia.
Qed.

(** The loop of a bare string never ends when the end of data is reached
    on a string character. *)
Lemma bareLoop_at_end (n : nat) : forall s p,
  isStringChar (r p) = true ->
  len (input p) <= pos p -> 0 <= runeWidth p ->
  bareLoop n s p = POutOfFuel.
Proof.
  induction n as [|n IH]; intros s p Hc Hlen Hw; [reflexivity|].
  simpl. rewrite Hc.
  destruct (next_at_end p Hlen Hw) as (p' & -> & Hr & Hi & Hw' & Hp).
  simpl. apply IH; [rewrite Hr; assumption | rewrite Hi; lia | lia].
Qed.

Lemma bareLoop_step (n : nat) (s : string) (p p' : selfParser) :
  isStringChar (r p) = true -> next p = POk tt p' ->
  bareLoop (S n) s p = bareLoop n (s ++ utf8.EncodeRune (r p)) p'.
Proof. intros Hc Hn. simpl. rewrite Hc, Hn. reflexivity. Qed.

(** From the [h] of [(X hello] on, the loop of the bare string runs
    for ever: after the [o] the end of data is reached, and the loop goes
    on appending the [o]. *)
Lemma bareLoop_unclosed (n : nat) (s : string) :
  bareLoop n s (unclosedAt 3 104) = POutOfFuel.
Proof.
  do 5 (destruct n as [|n]; [reflexivity|]).
  rewrite (bareLoop_step _ _ _ (unclosedAt 4 101)) by (vm_compute; reflexivity).
  rewrite (bareLoop_step _ _ _ (unclosedAt 5 108)) by (vm_compute; reflexivity).
  rewrite (bareLoop_step _ _ _ (unclosedAt 6 108)) by (vm_compute; reflexivity).
  rewrite (bareLoop_step _ _ _ (unclosedAt 7 111)) by (vm_compute; reflexivity).
  rewrite (bareLoop_step _ _ _ (mkParser unclosed 8 1 111 1 true))
    by (vm_compute; reflexivity).
  apply bareLoop_at_end; vm_compute; congruence.
Qed.

(** The calls that end before that loop, with any fuel that is enough. *)
Lemma unclosed_skip_start (k : nat) :
  skipSpaces (S (S k)) (newParser unclosed) = POk tt (unclosedAt 0 40).
Proof.
  rewrite (skipSpaces_mono 2); [reflexivity | vm_compute; discriminate | lia].
Qed.

Lemma unclosed_skip_open (k : nat) :
  skipSpaces (S k) (unclosedAt 0 40) = POk tt (unclosedAt 0 40).
Proof. reflexivity. Qed.

Lemma unclosed_head (k : nat) :
  parseString (S (S k)) (unclosedAt 1 88)
  = POk (mkString "X" 1) (unclosedAt 2 32).
Proof.
  rewrite (parseString_mono 2); [reflexivity | vm_compute; discriminate | lia].
Qed.

Lemma unclosed_skip_space (k : nat) :
  skipSpaces (S (S k)) (unclosedAt 2 32) = POk tt (unclosedAt 3 104).
Proof.
  rewrite (skipSpaces_mono 2); [reflexivity | vm_compute; discriminate | lia].
Qed.

Lemma unclosed_body (n : nat) :
  parseNodeBody n false (unclosedAt 2 32) = POutOfFuel.
Proof.
  do 3 (destruct n as [|n]; [reflexivity|]).
  cbn [parseNodeBody]. rewrite unclosed_skip_space. cbn [pbind].
  cbn [bodyLoop]. change (r (unclosedAt 3 104)) with 104.
  change (eod (unclosedAt 3 104)) with false. cbn [negb andb Z.eqb sexprClose
    sexprOpen Pos.eqb].
  unfold parseString.
  change (r (unclosedAt 3 104)) with 104.
  change (eod (unclosedAt 3 104)) with false.
  cbn [Z.eqb backtick Pos.eqb]. rewrite bareLoop_unclosed. reflexivity.
Qed.

Lemma unclosed_node (n : nat) :
  parseNode n (unclosedAt 0 40) = POutOfFuel.
Proof.
  do 3 (destruct n as [|n]; [reflexivity|]).
  cbn [parseNode]. rewrite unclosed_skip_open. cbn [pbind].
  change (r (unclosedAt 0 40)) with 40.
  change (next (unclosedAt 0 40)) with (POk tt (unclosedAt 1 88)).
  cbn [negb Z.eqb sexprOpen Pos.eqb pbind].
  rewrite unclosed_head. cbn [pbind].
  rewrite unclosed_body. reflexivity.
Qed.

(** C5, on the document [(X hello]: the end of data is reached inside the
    body of the list [X], and the parser does not return the values read
    so far: whatever the fuel, it is still running, in the loop of the
    bare string [hello]. *)
Theorem unclosed_list_never_returns (fuel : nat) :
  parseTree fuel unclosed = Unfinished.
Proof.
  do 3 (destruct fuel as [|fuel]; [reflexivity|]).
  unfold parseTree, parseRoot.
  cbn [parseNodeBody]. rewrite unclosed_skip_start. cbn [pbind].
  cbn [bodyLoop]. change (r (unclosedAt 0 40)) with 40.
  change (eod (unclosedAt 0 40)) with false.
  cbn [negb andb Z.eqb sexprClose sexprOpen Pos.eqb].
  rewrite unclosed_node. reflexivity.
Qed.

(** What the code does at the end of data: the loop of a list body stops
    and returns the values read so far, and a quoted or bracketed string
    is returned only if the end of data has not been reached. *)
Lemma bodyLoop_at_end (n : nat) (rootNode : bool) (vs : list selfValue)
      (p : selfParser) :
  eod p = true -> bodyLoop (S n) rootNode vs p = POk vs p.
Proof. intros H. simpl. rewrite H. reflexivity. Qed.

Lemma string_at_end_is_error (n : nat) (p p' : selfParser) (s : selfString) :
  parseBacktickString n p = POk s p' \/ parseBracketedString n p = POk s p' ->
  eod p' = false.
Proof.
  unfold parseBacktickString, parseBracketedString.
  intros [H|H];
    [destruct (backtickLoop n "" (-1) p) as [s1 p1| | |]
    |destruct (bracketLoop n 1 "" p) as [s1 p1| | |]];
    try discriminate H; simpl in H;
    destruct (eod p1) eqn:E; try discriminate H;
    injection H as _ <-; exact E.
Qed.

(** The same list closed, or followed by a space, is parsed; and the end
    of data inside a quoted or a bracketed string is an error. *)
Lemma end_of_data_examples (k : nat) :
  parseTree (20 + k) "(X hello " = Returned (rootOf [pairNode "X" "hello" 1])
  /\ parseTree (20 + k) "(X (Y 1)"
     = Returned (rootOf [VNode (mkNode (mkString "X" 1)
                                       [pairNode "Y" "1" 1] 1 false)])
  /\ parseTree (20 + k) "(X `abc"
     = Failed (mkParserError eodError 1)
  /\ parseTree (20 + k) "(X [abc"
     = Failed (mkParserError eodError 1)
  /\ parseTree (20 + k) "(X `abc`"
     = Failed (mkParserError eodError 1).
Proof. repeat split; parse_with_fuel. Qed.

(* ================================================================== *)
(** ** A parser behind a prefix                                        *)
(* ================================================================== *)

Lemma len_app (a b : string) : len (a ++ b) = len a + len b.
Proof.
  unfold len. induction a as [|c a IH]; [reflexivity|].
  simpl String.length. lia.
Qed.

Lemma cat_assoc (a b c : string) : (a ++ b) ++ c = a ++ (b ++ c).
Proof.
  induction a as [|x a IH]; [reflexivity|]. simpl. rewrite IH. reflexivity.
Qed.

Lemma len_nonneg (s : string) : 0 <= len s.
Proof. unfold len. lia. Qed.

Lemma drop_app (a b : string) (k : Z) :
  0 <= k -> drop (Z.to_nat (len a + k)) (a ++ b) = drop (Z.to_nat k) b.
Proof.
  intros Hk. unfold len. induction a as [|c a IH]; [reflexivity|].
  simpl String.length.
  replace (Z.to_nat (Z.of_nat (S (String.length a)) + k))
    with (S (Z.to_nat (Z.of_nat (String.length a) + k))) by lia.
  simpl. exact IH.
Qed.

Lemma decode_width (s : string) : 0 <= snd (utf8.DecodeRuneInString s).
Proof.
  unfold utf8.DecodeRuneInString.
  repeat match goal with
  | |- context [match ?x with _ => _ end] => destruct x
  end; simpl; lia.
Qed.

Section Simulation.

Variable pre : string.
Variable dl : N.

Lemma shifted_r p q : shifted pre dl p q -> r p = r q.
Proof. intros H. apply H. Qed.

Lemma shifted_eod p q : shifted pre dl p q -> eod p = eod q.
Proof. intros H. apply H. Qed.

Lemma shifted_line p q :
  shifted pre dl p q -> lineNumber p = (lineNumber q + dl)%N.
Proof. intros H. apply H. Qed.

Ltac sync H :=
  rewrite ?(shifted_r _ _ H), ?(shifted_eod _ _ H), ?(shifted_line _ _ H).

Lemma next_alike (p q : selfParser) :
  shifted pre dl p q ->
  alike pre dl (fun _ _ : unit => True) (next p) (next q).
Proof.
  intros (Hi & Hl & Hr & He & Hwp & Hwq & Hs & Hpos). unfold next.
  pose proof (len_nonneg (input q)) as Hq.
  pose proof (len_nonneg pre) as Hpre.
  assert (Hlen : len (input p) = len pre + len (input q))
    by (rewrite Hi; apply len_app).
  destruct (eod q) eqn:Eq.
  - destruct Hpos as [Hp1 Hq1].
    destruct (Z.leb_spec (len (input p)) (pos p + runeWidth p)); [|lia].
    destruct (Z.leb_spec (len (input q)) (pos q + runeWidth q)); [|lia].
    constructor; [exact I|].
    unfold shifted; simpl. repeat split; try assumption; try lia.
  - destruct (Z.leb_spec (len (input p)) (pos p + runeWidth p));
      destruct (Z.leb_spec (len (input q)) (pos q + runeWidth q)); try lia.
    + constructor; [exact I|].
      unfold shifted; simpl. repeat split; try assumption; try lia.
    + rewrite Hr, Hl, Hi, Hpos, (drop_app pre (input q) _ Hs).
      pose proof (decode_width (drop (Z.to_nat (pos q + runeWidth q))
                                     (input q))) as Hw.
      destruct (utf8.DecodeRuneInString _) as [r' w']. simpl in Hw.
      destruct (r' =? utf8.RuneError); [constructor|].
      constructor; [exact I|].
      unfold shifted; simpl. rewrite ?He.
      repeat split; try assumption; try lia.
      destruct (r q =? endOfLine); lia.
Qed.

Lemma pbind_alike {A B : Type} (RA : A -> A -> Prop) (RB : B -> B -> Prop)
      (m1 m2 : PResult A) (k1 k2 : A -> selfParser -> PResult B) :
  alike pre dl RA m1 m2 ->
  (forall a1 a2 p q, RA a1 a2 -> shifted pre dl p q ->
                     alike pre dl RB (k1 a1 p) (k2 a2 q)) ->
  alike pre dl RB (pbind m1 k1) (pbind m2 k2).
Proof.
  intros Hm Hk. destruct Hm; simpl; try constructor. apply Hk; assumption.
Qed.

Lemma skipLine_alike (n : nat) : forall p q,
  shifted pre dl p q ->
  alike pre dl (fun _ _ : unit => True) (skipLine n p) (skipLine n q).
Proof.
  induction n as [|n IH]; intros p q H; simpl; [constructor|].
  sync H. destruct (negb (eod q) && negb (r q =? endOfLine)).
  - apply pbind_alike with (RA := fun _ _ => True);
      [apply next_alike; assumption | intros; apply IH; assumption].
  - constructor; [exact I|assumption].
Qed.

Lemma skipSpaces_alike (n : nat) : forall p q,
  shifted pre dl p q ->
  alike pre dl (fun _ _ : unit => True) (skipSpaces n p) (skipSpaces n q).
Proof.
  induction n as [|n IH]; intros p q H; simpl; [constructor|].
  sync H. destruct (negb (eod q) && (isComment (r q) || isSpace (r q))).
  - destruct (isComment (r q)).
    + apply pbind_alike with (RA := fun _ _ => True);
        [apply skipLine_alike; assumption | intros; apply IH; assumption].
    + apply pbind_alike with (RA := fun _ _ => True);
        [apply next_alike; assumption | intros; apply IH; assumption].
  - constructor; [exact I|assumption].
Qed.

Lemma backtickLoop_alike (n : nat) : forall s prev p q,
  shifted pre dl p q ->
  alike pre dl eq (backtickLoop n s prev p) (backtickLoop n s prev q).
Proof.
  induction n as [|n IH]; intros s prev p q H; simpl; [constructor|].
  sync H. destruct (negb (eod q)); [|constructor; auto].
  destruct (negb (r q =? backtick) && (prev =? backtick));
    [constructor; auto|].
  apply pbind_alike with (RA := fun _ _ => True);
    [apply next_alike; assumption | intros; apply IH; assumption].
Qed.

Lemma bracketLoop_alike (n : nat) : forall level s p q,
  shifted pre dl p q ->
  alike pre dl eq (bracketLoop n level s p) (bracketLoop n level s q).
Proof.
  induction n as [|n IH]; intros level s p q H; simpl; [constructor|].
  sync H. destruct (negb (eod q)); [|constructor; auto].
  destruct ((r q =? 93) && _).
  - apply pbind_alike with (RA := fun _ _ => True);
      [apply next_alike; assumption | intros; constructor; auto].
  - apply pbind_alike with (RA := fun _ _ => True);
      [apply next_alike; assumption | intros; apply IH; assumption].
Qed.

Lemma bareLoop_alike (n : nat) : forall s p q,
  shifted pre dl p q ->
  alike pre dl eq (bareLoop n s p) (bareLoop n s q).
Proof.
  induction n as [|n IH]; intros s p q H; simpl; [constructor|].
  sync H. destruct (isStringChar (r q)); [|constructor; auto].
  apply pbind_alike with (RA := fun _ _ => True);
    [apply next_alike; assumption | intros; apply IH; assumption].
Qed.

Lemma quoted_alike (n : nat) (line : N) (p q : selfParser) :
  shifted pre dl p q ->
  alike pre dl (sameString dl)
    ('(s, p1) <- backtickLoop n "" (-1) p ;;
     if eod p1 then PErr (newErrorAtLine eodError (line + dl))
     else POk (mkString s (line + dl)) p1)
    ('(s, p1) <- backtickLoop n "" (-1) q ;;
     if eod p1 then PErr (newErrorAtLine eodError line)
     else POk (mkString s line) p1).
Proof.
  intros H. apply pbind_alike with (RA := eq);
    [apply backtickLoop_alike; assumption|].
  intros s1 s2 p1 q1 <- H1. sync H1.
  destruct (eod q1); constructor; [reflexivity|assumption].
Qed.

Lemma bracketed_alike (n : nat) (line : N) (p q : selfParser) :
  shifted pre dl p q ->
  alike pre dl (sameString dl)
    ('(s, p1) <- bracketLoop n 1 "" p ;;
     if eod p1 then PErr (newErrorAtLine eodError (line + dl))
     else POk (mkString s (line + dl)) p1)
    ('(s, p1) <- bracketLoop n 1 "" q ;;
     if eod p1 then PErr (newErrorAtLine eodError line)
     else POk (mkString s line) p1).
Proof.
  intros H. apply pbind_alike with (RA := eq);
    [apply bracketLoop_alike; assumption|].
  intros s1 s2 p1 q1 <- H1. sync H1.
  destruct (eod q1); constructor; [reflexivity|assumption].
Qed.

Lemma parseString_alike (n : nat) (p q : selfParser) :
  shifted pre dl p q ->
  alike pre dl (sameString dl) (parseString n p) (parseString n q).
Proof.
  intros H.
  unfold parseString, parseBacktickString, parseBracketedString, newError.
  sync H. destruct (eod q); [constructor|].
  destruct (r q =? backtick).
  { apply pbind_alike with (RA := fun _ _ => True);
      [apply next_alike; assumption|].
    intros _ _ p1 q1 _ H1. sync H1. apply quoted_alike. assumption. }
  destruct (r q =? 91).
  { apply pbind_alike with (RA := fun _ _ => True);
      [apply next_alike; assumption|].
    intros _ _ p1 q1 _ H1. sync H1. apply bracketed_alike. assumption. }
  apply pbind_alike with (RA := eq); [apply bareLoop_alike; assumption|].
  intros s1 s2 p1 q1 <- H1. constructor; [reflexivity|assumption].
Qed.

Lemma parse_alike (n : nat) :
  (forall rootNode p q, shifted pre dl p q ->
     alike pre dl (sameValues dl) (parseNodeBody n rootNode p)
                             (parseNodeBody n rootNode q))
  /\ (forall rootNode vs p q, shifted pre dl p q ->
     alike pre dl (sameValues dl)
       (bodyLoop n rootNode (map (shiftLines dl) vs) p)
       (bodyLoop n rootNode vs q))
  /\ (forall p q, shifted pre dl p q ->
     alike pre dl (sameNode dl) (parseNode n p) (parseNode n q)).
Proof.
  induction n as [|n (IHbody & IHloop & IHnode)];
    [repeat split; intros; constructor|].
  repeat split.
  - intros rootNode p q H. simpl.
    apply pbind_alike with (RA := fun _ _ => True);
      [apply skipSpaces_alike; assumption|].
    intros _ _ p1 q1 _ H1.
    apply pbind_alike with (RA := (sameValues dl));
      [apply (IHloop _ []); assumption|].
    intros vs1 vs2 p2 q2 Hvs H2. sync H2.
    destruct (r q2 =? sexprClose); [|constructor; assumption].
    apply pbind_alike with (RA := fun _ _ => True);
      [apply next_alike; assumption|].
    intros; constructor; assumption.
  - intros rootNode vs p q H. simpl. unfold newError. sync H.
    destruct (negb (eod q) && negb (r q =? sexprClose));
      [|constructor; [reflexivity|assumption]].
    apply pbind_alike with (RA := fun v1 v2 => v1 = shiftLines dl v2).
    + destruct (r q =? sexprOpen).
      * apply pbind_alike with (RA := (sameNode dl));
          [apply IHnode; assumption|].
        intros n1 n2 p1 q1 -> H1. constructor; [reflexivity|assumption].
      * destruct (negb rootNode); [|constructor].
        apply pbind_alike with (RA := (sameString dl));
          [apply parseString_alike; assumption|].
        intros s1 s2 p1 q1 -> H1. constructor; [reflexivity|assumption].
    + intros v1 v2 p1 q1 -> H1.
      apply pbind_alike with (RA := fun _ _ => True);
        [apply skipSpaces_alike; assumption|].
      intros _ _ p2 q2 _ H2.
      replace (map (shiftLines dl) vs ++ [shiftLines dl v2])%list
        with (map (shiftLines dl) (vs ++ [v2]))
        by (rewrite map_app; reflexivity).
      apply IHloop. assumption.
  - intros p q H. simpl. sync H.
    apply pbind_alike with (RA := fun _ _ => True);
      [apply skipSpaces_alike; assumption|].
    intros _ _ p1 q1 _ H1. unfold newError. sync H1.
    destruct (negb (r q1 =? sexprOpen)); [constructor|].
    apply pbind_alike with (RA := fun _ _ => True);
      [apply next_alike; assumption|].
    intros _ _ p2 q2 _ H2.
    apply pbind_alike with (RA := (sameString dl));
      [apply parseString_alike; assumption|].
    intros s1 s2 p3 q3 -> H3.
    apply pbind_alike with (RA := (sameValues dl)); [apply IHbody; assumption|].
    intros vs1 vs2 p4 q4 -> H4. constructor; [reflexivity|assumption].
Qed.

End Simulation.

(* ================================================================== *)
(** ** A comment line before a document                                *)
(* ================================================================== *)

Lemma alike_finished (pre : string) (dl : N) {A : Type}
      (RA : A -> A -> Prop) (m1 m2 : PResult A) :
  alike pre dl RA m1 m2 -> finished m2 -> finished m1.
Proof. intros H Hf. destruct H; unfold finished in *; congruence. Qed.

Lemma drop_one (a t : string) (x : ascii) :
  drop (Z.to_nat (len a + 1)) (a ++ String x t) = t.
Proof. rewrite drop_app by lia. reflexivity. Qed.

Lemma commentByte_decode (x : ascii) (t : string) :
  commentByte x = true ->
  utf8.DecodeRuneInString (String x t) = (byteZ x, 1)
  /\ (byteZ x =? utf8.RuneError) = false
  /\ (byteZ x =? endOfLine) = false.
Proof.
  unfold commentByte. intros H. apply andb_true_iff in H as [H1 H2].
  unfold utf8.DecodeRuneInString. rewrite H1.
  apply Z.ltb_lt in H1. apply negb_true_iff in H2.
  repeat split; [|exact H2].
  apply Z.eqb_neq. unfold utf8.RuneError. lia.
Qed.

(** [skipLine] on the byte [x] of a comment goes to the line feed that
    ends the comment. *)
Lemma skipLine_comment (rest : string) : forall (b a : string) (x : ascii)
                                                (n : nat),
  commentText b = true -> commentByte x = true ->
  (String.length b + 2 <= n)%nat ->
  skipLine n (mkParser (a ++ String x (b ++ String (byte_of_Z 10) rest))
                       (len a) 1 (byteZ x) 1 false)
  = POk tt (mkParser (a ++ String x (b ++ String (byte_of_Z 10) rest))
                     (len a + 1 + len b) 1 10 1 false).
Proof.
  induction b as [|y b IH]; intros a x n Hb Hx Hn;
    (destruct n as [|n]; [simpl in Hn; lia|]);
    destruct (commentByte_decode x "" Hx) as (_ & _ & Hlf);
    simpl skipLine; cbn [eod r negb andb]; rewrite Hlf; cbn [negb];
    unfold next; cbn [pos runeWidth input r lineNumber eod];
    rewrite Hlf, drop_one;
    match goal with
    | |- context [?u <=? ?v] => destruct (Z.leb_spec u v) as [Hle|_]
    end;
    try (rewrite len_app in Hle; unfold len in Hle; simpl in Hle; lia).
  - destruct n as [|n]; [simpl in Hn; lia|].
    cbn. do 2 f_equal. lia.
  - simpl in Hb. apply andb_true_iff in Hb as [Hy Hb].
    cbn [append].
    destruct (commentByte_decode y (b ++ String (byte_of_Z 10) rest) Hy)
      as (Hd & Hre & _).
    rewrite Hd, Hre. cbn [pbind].
    replace (a ++ String x (String y (b ++ String (byte_of_Z 10) rest)))
      with ((a ++ String x "") ++ String y (b ++ String (byte_of_Z 10) rest))
      by (rewrite cat_assoc; reflexivity).
    replace (len a + 1) with (len (a ++ String x ""))
      by (rewrite len_app; reflexivity).
    rewrite IH; [|assumption|assumption|simpl in Hn; lia].
    do 2 f_equal. rewrite len_app. unfold len. simpl String.length. lia.
Qed.

Lemma skipSpaces_space_step (n : nat) (p p' : selfParser) :
  eod p = false -> isComment (r p) = false -> isSpace (r p) = true ->
  next p = POk tt p' ->
  skipSpaces (S n) p = skipSpaces n p'.
Proof. intros He Hc Hs Hn. simpl. rewrite He, Hc, Hs, Hn. reflexivity. Qed.

Lemma skipSpaces_comment_step (n : nat) (p p' : selfParser) :
  eod p = false -> isComment (r p) = true ->
  skipLine n p = POk tt p' ->
  skipSpaces (S n) p = skipSpaces n p'.
Proof. intros He Hc Hn. simpl. rewrite He, Hc, Hn. reflexivity. Qed.

(** The first call of [next], on a document that starts with a byte of
    ASCII. *)
Lemma next_start (x : ascii) (t : string) :
  commentByte x = true ->
  next (newParser (String x t))
  = POk tt (mkParser (String x t) 0 1 (byteZ x) 1 false).
Proof.
  intros Hx. destruct (commentByte_decode x t Hx) as (Hd & Hre & _).
  unfold next, newParser. cbn [pos runeWidth input r lineNumber eod].
  destruct (Z.leb_spec (len (String x t)) (0 + 0)) as [Hle|_].
  { unfold len in Hle. simpl String.length in Hle. lia. }
  change (Z.to_nat (0 + 0)) with O. cbn [drop]. rewrite Hd, Hre.
  reflexivity.
Qed.

Lemma skipSpaces_comment (c rest : string) (m : nat) :
  commentText c = true -> (String.length c + 2 <= m)%nat ->
  skipSpaces (S (S m)) (newParser (";" ++ c ++ lf ++ rest))
  = skipSpaces m (afterComment c rest).
Proof.
  intros Hc Hm.
  change (";" ++ c ++ lf ++ rest)
    with (String ";" (c ++ String (byte_of_Z 10) rest)).
  rewrite (skipSpaces_space_step (S m)
             (newParser (String ";" (c ++ String (byte_of_Z 10) rest)))
             (mkParser (String ";" (c ++ String (byte_of_Z 10) rest))
                       0 1 59 1 false));
    [|reflexivity|reflexivity|reflexivity|apply (next_start ";"); reflexivity].
  apply skipSpaces_comment_step; try reflexivity.
  exact (skipLine_comment rest c "" ";"%char m Hc eq_refl Hm).
Qed.

Lemma afterComment_shifted (c rest : string) :
  shifted (";" ++ c ++ lf) 1 (afterComment c rest) (newParser rest).
Proof.
  unfold shifted, afterComment, newParser. cbn [input lineNumber r eod pos
    runeWidth].
  repeat split; try reflexivity; try lia.
  - cbn [append]. f_equal. rewrite cat_assoc. reflexivity.
  - change (";" ++ c ++ lf) with (String ";" (c ++ lf)).
    unfold len. simpl String.length.
    assert (H : String.length (c ++ lf) = S (String.length c)).
    { induction c as [|x c IH]; [reflexivity|]. simpl. rewrite IH.
      reflexivity. }
    rewrite H. lia.
Qed.

(** A comment line before a document changes nothing but the line
    numbers: for a comment text [c] of ASCII bytes, the document
    [;c] followed by a line feed and by [rest] parses to the tree of
    [rest], or fails with the error of [rest], one line further. *)
Theorem comment_line_skipped (c rest : string) (fuel : nat) :
  commentText c = true ->
  parseTree fuel rest <> Unfinished ->
  parseTree (fuel + String.length c + 4) (";" ++ c ++ lf ++ rest)
  = shiftRun 1 (parseTree fuel rest).
Proof.
  intros Hc Hfin.
  destruct fuel as [|m]; [exfalso; apply Hfin; reflexivity|].
  set (M := (m + String.length c + 2)%nat).
  replace (S m + String.length c + 4)%nat with (S (S (S M))) by (unfold M; lia).
  set (pre := ";" ++ c ++ lf).
  set (p1 := afterComment c rest). set (q := newParser rest).
  assert (Hsh : shifted pre 1 p1 q) by apply afterComment_shifted.
  (* the parse of [rest] has ended *)
  assert (Hq : finished (parseNodeBody (S m) true q)).
  { intros E. apply Hfin. unfold parseTree, parseRoot. fold q. rewrite E.
    reflexivity. }
  assert (Hqs : finished (skipSpaces m q))
    by (simpl in Hq; apply (pbind_finished _ _ Hq)).
  assert (Hle : (S m <= S (S (S M)))%nat) by (unfold M; lia).
  pose proof (proj1 (parse_mono (S m)) true q Hq _ Hle) as Hmono.
  (* the comment is skipped *)
  assert (Hstart : parseNodeBody (S (S (S M))) true
                                 (newParser (";" ++ c ++ lf ++ rest))
                   = parseNodeBody (S (S (S M))) true p1).
  { cbn [parseNodeBody].
    rewrite (skipSpaces_comment c rest M Hc) by (unfold M; lia).
    fold p1.
    pose proof (alike_finished _ _ _ _ _ (skipSpaces_alike pre 1 m p1 q Hsh)
                  Hqs) as Hps.
    rewrite (skipSpaces_mono m p1 Hps M) by (unfold M; lia).
    rewrite (skipSpaces_mono m p1 Hps (S (S M))) by (unfold M; lia).
    reflexivity. }
  pose proof (proj1 (parse_alike pre 1 (S (S (S M)))) true p1 q Hsh) as Hal.
  unfold parseTree, parseRoot. fold q. rewrite Hstart, <- Hmono.
  destruct Hal as [vs1 vs2 p2 q2 Hvs _| | |]; simpl; try reflexivity.
  unfold sameValues in Hvs. rewrite Hvs. reflexivity.
Qed.

(** Moving the line numbers changes nothing else in a tree. *)
Lemma eraseLines_shift (dl : N) :
  forall v, eraseLines (shiftLines dl v) = eraseLines v.
Proof.
  fix IH 1. intros [s|[h vs l rt]]; simpl; [reflexivity|].
  do 2 f_equal. induction vs as [|v vs IHvs]; [reflexivity|].
  simpl. f_equal; [apply IH|exact IHvs].
Qed.

(** X11. The comment line leaves the tree as it is, line numbers apart. *)
Corollary comment_line_erased (c rest : string) (fuel : nat)
          (n : selfNode) :
  commentText c = true ->
  parseTree fuel rest = Returned n ->
  exists n',
    parseTree (fuel + String.length c + 4) (";" ++ c ++ lf ++ rest)
    = Returned n'
    /\ eraseNodeLines n' = eraseNodeLines n.
Proof.
  intros Hc Hn.
  rewrite (comment_line_skipped c rest fuel Hc) by (rewrite Hn; discriminate).
  rewrite Hn. simpl. eexists. split; [reflexivity|].
  destruct n as [h vs l rt].
  unfold parseTree in Hn. unfold parseRoot in Hn.
  destruct (parseNodeBody fuel true (newParser rest)); try discriminate Hn.
  simpl in Hn. injection Hn as <- <- <- <-.
  unfold rootOf. simpl. f_equal.
  induction a as [|v vs' IH]; [reflexivity|].
  simpl. f_equal; [apply eraseLines_shift|exact IH].
Qed.

(* ================================================================== *)
(** ** Coercion of scalars                                             *)
(* ================================================================== *)

Section ScalarFacts.

Variable F : Type.
Variable Fzero : F.
Variable Feqb : F -> F -> bool.
Variable ParseFloat : string -> Z -> option F.

(** C2. Bound to a destination of type [uint8], the string [0x1F]
    gives 31 and the string [0b101] gives 5; the string [256] gives an
    error and leaves the destination as it is, since [ParseUint] reports
    that 256 is out of the range of 8 bits. *)
Theorem radix_coercion_uint8 (line : N) (d : Data F) :
  packIntoField Fzero Feqb ParseFloat
    (VString (mkString "0x1F" line)) "" (mkValue uint8Type false d)
  = Return (DUint reflect.Uint8 31, None)
  /\ packIntoField Fzero Feqb ParseFloat
       (VString (mkString "0b101" line)) "" (mkValue uint8Type false d)
     = Return (DUint reflect.Uint8 5, None)
  /\ parseUintEx "256" 8 = Return (255, Some strconv.ErrRange)
  /\ packIntoField Fzero Feqb ParseFloat
       (VString (mkString "256" line)) "" (mkValue uint8Type false d)
     = Return (d, Some (mkPackError
                          "cannot convert value `256` to type uint8" line)).
Proof. repeat split. Qed.

(** The slice expression panics exactly on the strings of fewer than
    two bytes. *)
Lemma slice02_short (s : string) :
  (String.length s < 2)%nat ->
  slice02 s = Panic "runtime error: slice bounds out of range".
Proof.
  intros H. unfold slice02, len.
  destruct (Z.ltb_spec (Z.of_nat (String.length s)) 2); [reflexivity|lia].
Qed.

Lemma slice02_long (s : string) :
  (2 <= String.length s)%nat -> slice02 s = Return (take 2 s).
Proof.
  intros H. unfold slice02, len.
  destruct (Z.ltb_spec (Z.of_nat (String.length s)) 2); [lia|reflexivity].
Qed.

(** C10. For each of the ten signed and unsigned integer kinds, the
    coercion of a string of fewer than two bytes (Go's [len] counts
    bytes) panics on the slice expression [s[0:2]] of [parseIntEx] and
    [parseUintEx]: it returns neither a value nor an error, and so does
    the binding of the string to a destination of that kind. *)
Theorem short_integer_literal_panics
        (kind : reflect.Kind) (s : string) (line : N) :
  isIntegerKind kind = true ->
  (String.length s < 2)%nat ->
  encodeScalarField ParseFloat (mkString s line) kind
  = Panic "runtime error: slice bounds out of range"
  /\ forall (name : string) (field : Value F),
       reflect.KindOf (typ field) = kind ->
       packIntoField Fzero Feqb ParseFloat
         (VString (mkString s line)) name field
       = Panic "runtime error: slice bounds out of range".
Proof.
  intros Hk Hs.
  assert (He : encodeScalarField ParseFloat (mkString s line) kind
               = Panic "runtime error: slice bounds out of range").
  { destruct kind; try discriminate Hk;
      unfold encodeScalarField, parseIntEx, parseUintEx; simpl str;
      rewrite (slice02_short s Hs); reflexivity. }
  split; [exact He|].
  intros name field Hf. simpl.
  unfold stringPackIntoField, stringMakeValue. rewrite Hf.
  replace (isScalarKind kind) with true
    by (destruct kind; try discriminate Hk; reflexivity).
  rewrite He. reflexivity.
Qed.

(** With two bytes or more, [parseIntEx] and [parseUintEx] do not
    panic. *)
Lemma long_integer_literal_returns (s : string) (bitSize : Z) :
  (2 <= String.length s)%nat ->
  (exists v, parseIntEx s bitSize = Return v)
  /\ (exists v, parseUintEx s bitSize = Return v).
Proof.
  intros H. unfold parseIntEx, parseUintEx. rewrite (slice02_long s H).
  destruct (take 2 s =? "0b")%string; split; eexists; reflexivity.
Qed.

(** C6, amended. The boolean coercion takes the literals of
    [strconv.ParseBool] and four spellings of yes and of no: it gives
    true on [1 t T true TRUE True y yes YES Yes], false on
    [0 f F false FALSE False n no NO No], and an error on every other
    string. *)
Theorem bool_coercion (s : string) (line : N) :
  encodeScalarField ParseFloat (mkString s line) reflect.Bool
  = if isLiteral s trueLiterals then Return (Some (DBool true), None)
    else if isLiteral s falseLiterals then Return (Some (DBool false), None)
    else Return (None,
                 Some (mkPackError
                         ("cannot convert value `" ++ s ++ "` to type bool")
                         line)).
Proof.
  unfold encodeScalarField, parseBoolEx, strconv.ParseBool, isLiteral,
    trueLiterals, falseLiterals.
  simpl str. simpl existsb.
  repeat match goal with
  | |- context [(s =? ?l)%string] =>
    destruct (String.eqb_spec s l) as [->|_]; [reflexivity|]; simpl
  end.
  reflexivity.
Qed.

End ScalarFacts.

(** C6, as stated, fails: [Y], [N] and [yEs] are spellings of y, n and
    yes, and the coercion gives an error on them. *)
Lemma bool_coercion_is_case_sensitive :
  parseBoolEx "Y" = (false, Some strconv.ErrSyntax)
  /\ parseBoolEx "N" = (false, Some strconv.ErrSyntax)
  /\ parseBoolEx "yEs" = (false, Some strconv.ErrSyntax)
  /\ encodeScalarField noFloat (mkString "Y" 1) reflect.Bool
     = Return (None,
               Some (mkPackError "cannot convert value `Y` to type bool" 1)).
Proof. repeat split. Qed.

(** The digit [5] bound to an [int] and the empty string bound to a
    [uint16]. *)
Lemma short_integer_literal_panics_witness :
  isIntegerKind reflect.Int = true
  /\ (String.length "5" < 2)%nat
  /\ encodeScalarField noFloat (mkString "5" 1) reflect.Int
     = Panic "runtime error: slice bounds out of range"
  /\ packIntoField tt unitEqb noFloat (VString (mkString "" 1)) "Port"
       (mkValue (reflect.TBasic "uint16" reflect.Uint16) false
                (DUint reflect.Uint16 0))
     = Panic "runtime error: slice bounds out of range".
Proof.
  split; [reflexivity|]. split; [simpl; lia|]. split.
  - apply (short_integer_literal_panics unit tt unitEqb noFloat
             reflect.Int "5" 1); [reflexivity | simpl; lia].
  - apply (short_integer_literal_panics unit tt unitEqb noFloat
             reflect.Uint16 "" 1); [reflexivity | simpl; lia | reflexivity].
Defined.

(* ================================================================== *)
(** ** Bullet points                                                   *)
(* ================================================================== *)

(** [isBulletPoint] decodes the first rune of the head and compares it
    with the six bullets.  The lemmas below read the decoding on the
    bytes: the head passes exactly when its first bytes are the UTF-8
    encoding of a bullet. *)

Lemma byte_of_byteZ (c : ascii) : byte_of_Z (byteZ c) = c.
Proof.
  unfold byte_of_Z, byteZ. rewrite N2Z.id. apply ascii_N_embedding.
Qed.























(* ================================================================== *)
(** ** Structures: the choice of the mode                              *)
(* ================================================================== *)




Section StructFacts.

Variable F : Type.
Variable Fzero : F.
Variable Feqb : F -> F -> bool.
Variable ParseFloat : string -> Z -> option F.
Variable pack : selfValue -> string -> Value F -> Packed F.
Variable make : selfValue -> reflect.Type_ -> Maked F.


(* ================================================================ *)
(** ** Structures: binding by field order                            *)
(* ================================================================ *)



(* ================================================================ *)
(** ** Structures: binding by field name                             *)
(* ================================================================ *)

Lemma fieldIndex_name (name : string) (fs : list reflect.StructField) :
  forall i, reflect.fieldIndex name fs = Some i ->
  exists f, nth_error fs i = Some f /\ reflect.fieldName f = name.
Proof.
  induction fs as [|f fs IH]; intros i H; [discriminate|].
  simpl in H. destruct (String.eqb_spec (reflect.fieldName f) name).
  - injection H as <-. exists f. split; [reflexivity|assumption].
  - destruct (reflect.fieldIndex name fs) as [j|]; [|discriminate].
    injection H as <-. simpl. apply IH. reflexivity.
Qed.

Lemma nth_updateAt_other (i j : nat) (d dflt : Data F) :
  forall l, i <> j -> nth i (updateAt j d l) dflt = nth i l dflt.
Proof.
  revert i. induction j as [|j IH]; intros i l Hij.
  - destruct l; [reflexivity|]. destruct i; [congruence|reflexivity].
  - destruct l; [reflexivity|]. destruct i; [reflexivity|].
    simpl. apply IH. congruence.
Qed.

Lemma nth_withField_other (st d : Data F) (i j : nat) :
  i <> j ->
  nth i (elemsOf (withField st j d)) DNil = nth i (elemsOf st) DNil.
Proof. intros H. simpl. apply nth_updateAt_other. assumption. Qed.

(** The loop by name leaves alone the field of index [i] when no value
    names it. *)
Lemma byNameLoop_frame (node : selfNode) (t : reflect.Type_) (ro : bool)
      (i : nat) (f : reflect.StructField) :
  nth_error (reflect.Fields t) i = Some f ->
  forall vs,
    (forall n, In (VNode n) vs ->
               publicName (str (head n)) <> reflect.fieldName f) ->
    forall d d' err,
      byNameLoop F pack node t ro vs d = Return (d', err) ->
      nth i (elemsOf d') DNil = nth i (elemsOf d) DNil.
Proof.
  intros Hf vs. induction vs as [|v vs IH]; intros Hvs d d' err H.
  - injection H as <- _. reflexivity.
  - simpl in H. destruct v as [s|n].
    { injection H as <- _. reflexivity. }
    destruct (reflect.fieldIndex (publicName (str (head n)))
                                 (reflect.Fields t)) as [j|] eqn:Hj.
    2:{ injection H as <- _. reflexivity. }
    assert (Hij : i <> j).
    { intros <-. destruct (fieldIndex_name _ _ _ Hj) as (f' & Hf' & Hn).
      rewrite Hf in Hf'. injection Hf' as <-.
      apply (Hvs n); [left; reflexivity | symmetry; exact Hn]. }
    destruct (pack (VNode n) _ _) as [[fd [e|]]|msg]; [| |discriminate].
    + injection H as <- _. apply nth_withField_other. assumption.
    + rewrite (IH (fun n' Hin => Hvs n' (or_intror Hin)) _ _ _ H).
      apply nth_withField_other. assumption.
Qed.

(** C8. After a binding by name, with or without an error, each field
    of the structure whose name is the public name of the head of no
    value of the node has the contents it had before. *)
Theorem by_name_frame (node : selfNode) (st : Value F)
        (i : nat) (f : reflect.StructField) (d : Data F)
        (err : option packError) :
  nth_error (reflect.Fields (typ st)) i = Some f ->
  (forall n, In (VNode n) (values node) ->
             publicName (str (head n)) <> reflect.fieldName f) ->
  packToStructByFieldName F pack node st = Return (d, err) ->
  nth i (elemsOf d) DNil = nth i (elemsOf (data st)) DNil.
Proof.
  intros Hf Hvs H.
  exact (byNameLoop_frame node (typ st) (flagRO st) i f Hf
           (values node) Hvs (data st) d err H).
Qed.

(** A node without values binds by name to any structure, which it
    leaves as it is. *)
Lemma by_name_empty (h : selfString) (line : N) (rt : bool) (st : Value F) :
  packToStructByFieldName F pack (mkNode h [] line rt) st
  = Return (data st, None).
Proof. reflexivity. Qed.

End StructFacts.

(* ================================================================== *)
(** ** Sequences: the meta-header of compound elements                 *)
(* ================================================================== *)

Lemma len_zero (s : string) : (len s =? 0) = (s =? "")%string.
Proof. destruct s; reflexivity. Qed.




Section SequenceFacts.

Variable F : Type.
Variable Fzero : F.
Variable Feqb : F -> F -> bool.
Variable ParseFloat : string -> Z -> option F.
Variable pack : selfValue -> string -> Value F -> Packed F.
Variable make : selfValue -> reflect.Type_ -> Maked F.







End SequenceFacts.

(* ================================================================== *)
(** ** The theorems on the documents of the specification              *)
(* ================================================================== *)





(** The node [(X (Age 30))] bound by name to an [Info] that holds
    [bob] and [7]: the binding has no error, [Age] becomes 30 and [Name],
    which the node does not name, stays [bob]. *)
Lemma by_name_frame_witness :
  packToStructByFieldName unit pack0
    (mkNode (mkString "X" 1) [pairNode "Age" "30" 1] 1 false)
    (infoValue "bob" 7)
  = Return (DStruct [DString "bob"; DInt reflect.Int 30], None)
  /\ nth 0 (elemsOf (DStruct [DString "bob"; DInt reflect.Int 30])) DNil
     = nth 0 (elemsOf (data (infoValue "bob" 7))) (@DNil unit).
Proof.
  split; [reflexivity|].
  apply (by_name_frame unit pack0
           (mkNode (mkString "X" 1) [pairNode "Age" "30" 1] 1 false)
           (infoValue "bob" 7) 0
           (reflect.mkField "Name" true stringType)
           (DStruct [DString "bob"; DInt reflect.Int 30]) None).
  - reflexivity.
  - intros n [H|[]]. injection H as <-. vm_compute. discriminate.
  - reflexivity.
Defined.


(** The sequence of the specification: [(M ([] 10 20) ([] 30 40))] is
    bound to a [[][]int]. *)
Lemma nested_rows_bound :
  packToSlice unit make0
    (mkNode (mkString "M" 1) [row "" "10" "20"; row "" "30" "40"] 1 false)
    rowsValue
  = Return (DSlice [DSlice [DInt reflect.Int 10; DInt reflect.Int 20];
                    DSlice [DInt reflect.Int 30; DInt reflect.Int 40]],
            None).
Proof. reflexivity. Qed.

(** From the text to the structure: the record [Info] written by order,
    by name, with a bullet point in a sequence of records, and in part;
    and a field of one digit, on which the load panics. *)
Lemma load_examples :
  loadProfile 30 "(Info alice 30)" = Bound (profileOf "alice" 30) None
  /\ loadProfile 30 "(Info (Name alice) (Age 30))"
     = Bound (profileOf "alice" 30) None
  /\ loadProfile 30 "(Info (Age 0x1e))" = Bound (profileOf "" 30) None
  /\ loadProfile 30 "(Info (Age 7))"
     = LoadPanicked "runtime error: slice bounds out of range".
Proof. repeat split. Qed.

(** A bullet point and the name of the type are the same head for a
    record bound by order. *)
Lemma bullet_equivalence :
  packToStruct unit pack0
    (mkNode (mkString "‣" 1) [word "alice"; word "30"] 1 false)
    (infoValue "" 0)
  = packToStruct unit pack0
      (mkNode (mkString "Info" 1) [word "alice"; word "30"] 1 false)
      (infoValue "" 0)
  /\ packToStruct unit pack0
       (mkNode (mkString "Info" 1) [word "alice"; word "30"] 1 false)
       (infoValue "" 0)
     = Return (DStruct [DString "alice"; DInt reflect.Int 30], None).
Proof. repeat split. Qed.

(** The heads [isBulletPoint] takes for bullet points are those whose
    first rune is one of the six bullets; the empty head and a name are
    not. *)
Lemma bullet_points :
  map isBulletPoint ["-"; "*"; "•"; "◦"; "‣"; "⁃"]
  = [true; true; true; true; true; true]
  /\ map isBulletPoint [""; "Info"; "+"; "- x"; "-x"]
     = [false; false; false; true; true].
Proof. split; reflexivity. Qed.

(* ================================================================== *)
(** ** Further properties: names and scalars                           *)
(* ================================================================== *)

Ltac each_byte c :=
  destruct c as [[] [] [] [] [] [] [] []].

(** X1. On a name that starts with a byte of ASCII, [publicName] changes
    the first byte only, into its upper case, and a second call changes
    nothing. *)
Theorem publicName_ascii (c : ascii) (rest : string) :
  byteZ c < 128 ->
  publicName (String c rest)
  = String (byte_of_Z (unicode.ToUpper (byteZ c))) rest
  /\ publicName (publicName (String c rest)) = publicName (String c rest).
Proof.
  intros H. each_byte c; try (vm_compute in H; discriminate H);
    split; reflexivity.
Qed.

Lemma publicName_ascii_witness :
  byteZ "n" < 128
  /\ publicName "name" = "Name"
  /\ publicName (publicName "name") = publicName "name".
Proof.
  split; [reflexivity|].
  exact (publicName_ascii "n" "ame" eq_refl).
Defined.

(** X2. On a name that starts with a byte that is not ASCII, the first
    byte of a character of several bytes, [publicName] takes this byte
    alone for a rune and writes the two bytes of its upper case: the
    name becomes one byte longer. *)
Theorem publicName_not_ascii (c : ascii) (rest : string) :
  128 <= byteZ c ->
  len (publicName (String c rest)) = len (String c rest) + 1
  /\ publicName (String c rest) <> String c rest.
Proof.
  intros H.
  assert (E : exists a b, publicName (String c rest) = String a (String b rest)).
  { each_byte c; try (vm_compute in H; exfalso; apply H; reflexivity);
      eexists; eexists; reflexivity. }
  destruct E as (a & b & E). rewrite E. split.
  - unfold len. simpl String.length. lia.
  - intros E'. apply (f_equal String.length) in E'. simpl in E'. lia.
Qed.

Lemma publicName_not_ascii_witness :
  128 <= byteZ "195"%char
  /\ len (publicName ("é" ++ "cole")) = len ("é" ++ "cole") + 1.
Proof.
  split; [vm_compute; discriminate|].
  exact (proj1 (publicName_not_ascii "195"%char _ ltac:(vm_compute; discriminate))).
Defined.

(** *** Integers *)

Lemma digitLoop_range (base0 : bool) (base cutoff maxVal : Z) (s : string) :
  forall n0 u0 n u,
    0 <= n0 <= maxVal ->
    strconv.digitLoop base0 base cutoff maxVal n0 u0 s = (n, u, None) ->
    0 <= n <= maxVal.
Proof.
  induction s as [|ch s IH]; intros n0 u0 n u Hn H;
    cbn [strconv.digitLoop] in H.
  - injection H as <- _. exact Hn.
  - destruct ((byteZ ch =? 95) && base0); [apply (IH _ _ _ _ Hn H)|].
    match type of H with
    | match ?x with _ => _ end = _ => destruct x as [d|]
    end; [|discriminate H].
    destruct (base <=? d); [discriminate H|].
    destruct (cutoff <=? n0); [discriminate H|].
    destruct (Z.ltb_spec maxVal ((n0 * base + d) mod 2 ^ 64)) as [|Hle];
      [rewrite orb_true_r in H; discriminate H|].
    destruct ((n0 * base + d) mod 2 ^ 64 <? n0 * base);
      [discriminate H|]. cbn [orb] in H.
    apply (IH _ _ _ _ (conj (proj1 (Z.mod_pos_bound _ (2 ^ 64) eq_refl)) Hle)
              H).
Qed.

(** A number that [strconv.ParseUint] returns without an error is below
    two to the power of the bit size, and one that [strconv.ParseInt]
    returns is in the signed range of the bit size. *)
Lemma ParseUint_range (s : string) (base bitSize n : Z) :
  strconv.ParseUint s base bitSize = (n, None) ->
  0 <= n < 2 ^ (if bitSize =? 0 then strconv.IntSize else bitSize).
Proof.
  unfold strconv.ParseUint. destruct s as [|c0 rest]; [discriminate|].
  match goal with
  | |- match ?x with _ => _ end = _ -> _ => destruct x as [[b digits]|]
  end; [|discriminate].
  destruct ((bitSize <? 0) || (64 <? bitSize)) eqn:Eb; [discriminate|].
  apply orb_false_iff in Eb as [Eb1 Eb2].
  apply Z.ltb_ge in Eb1. apply Z.ltb_ge in Eb2.
  set (bits := if bitSize =? 0 then strconv.IntSize else bitSize).
  assert (Hbits : 0 <= bits).
  { unfold bits, strconv.IntSize. destruct (bitSize =? 0); lia. }
  pose proof (Z.pow_pos_nonneg 2 bits eq_refl Hbits) as Hpow.
  destruct (strconv.digitLoop _ _ _ _ _ _ _) as [[m u] [e|]] eqn:Ed;
    [discriminate|].
  apply digitLoop_range in Ed; [|lia].
  destruct (u && negb (strconv.underscoreOK (String c0 rest)));
    [discriminate|].
  intros H. injection H as <-. lia.
Qed.

Lemma digitLoop_overflow (base0 : bool) (base cutoff maxVal : Z)
      (s : string) :
  forall n0 u0 n u,
    strconv.digitLoop base0 base cutoff maxVal n0 u0 s
    = (n, u, Some strconv.ErrRange) ->
    n = maxVal.
Proof.
  induction s as [|ch s IH]; intros n0 u0 n u H;
    cbn [strconv.digitLoop] in H; [discriminate H|].
  destruct ((byteZ ch =? 95) && base0); [apply (IH _ _ _ _ H)|].
  match type of H with
  | match ?x with _ => _ end = _ => destruct x as [d|]
  end; [|discriminate H].
  destruct (base <=? d); [discriminate H|].
  destruct (cutoff <=? n0); [injection H as <- _; reflexivity|].
  destruct (_ || _); [injection H as <- _; reflexivity|].
  apply (IH _ _ _ _ H).
Qed.

Lemma ParseUint_overflow (s : string) (base bitSize n : Z) :
  strconv.ParseUint s base bitSize = (n, Some strconv.ErrRange) ->
  n = 2 ^ (if bitSize =? 0 then strconv.IntSize else bitSize) - 1.
Proof.
  unfold strconv.ParseUint. destruct s as [|c0 rest]; [discriminate|].
  match goal with
  | |- match ?x with _ => _ end = _ -> _ => destruct x as [[b digits]|]
  end; [|discriminate].
  destruct ((bitSize <? 0) || (64 <? bitSize)); [discriminate|].
  destruct (strconv.digitLoop _ _ _ _ _ _ _) as [[m u] [e|]] eqn:Ed.
  - intros H. injection H as <- ->.
    apply digitLoop_overflow in Ed. exact Ed.
  - destruct (u && negb (strconv.underscoreOK (String c0 rest)));
      discriminate.
Qed.

Lemma ParseInt_range (s : string) (base bitSize i : Z) :
  0 < (if bitSize =? 0 then strconv.IntSize else bitSize) ->
  strconv.ParseInt s base bitSize = (i, None) ->
  - 2 ^ ((if bitSize =? 0 then strconv.IntSize else bitSize) - 1) <= i
  < 2 ^ ((if bitSize =? 0 then strconv.IntSize else bitSize) - 1).
Proof.
  intros Hbits. unfold strconv.ParseInt.
  destruct s as [|c0 rest]; [discriminate|].
  set (bits := if bitSize =? 0 then strconv.IntSize else bitSize) in *.
  pose proof (Z.pow_pos_nonneg 2 (bits - 1) eq_refl ltac:(lia)) as Hpow.
  destruct (strconv.ParseUint _ base bitSize) as [un [e|]] eqn:Eu.
  - destruct e; try discriminate.
    apply ParseUint_overflow in Eu. fold bits in Eu.
    assert (2 * 2 ^ (bits - 1) = 2 ^ bits).
    { rewrite <- Z.pow_succ_r by lia. f_equal. lia. }
    destruct (byteZ c0 =? 45); cbn [negb andb].
    + destruct (Z.ltb_spec (2 ^ (bits - 1)) un); [discriminate|].
      intros E. injection E as <-. lia.
    + destruct (Z.leb_spec (2 ^ (bits - 1)) un); [discriminate|].
      intros E. injection E as <-. lia.
  - apply ParseUint_range in Eu. fold bits in Eu.
    destruct (byteZ c0 =? 45); cbn [negb andb].
    + destruct (Z.ltb_spec (2 ^ (bits - 1)) un); [discriminate|].
      intros E. injection E as <-. lia.
    + destruct (Z.leb_spec (2 ^ (bits - 1)) un); [discriminate|].
      intros E. injection E as <-. lia.
Qed.

Lemma parseIntEx_range (s : string) (bitSize i : Z) :
  0 < (if bitSize =? 0 then strconv.IntSize else bitSize) ->
  parseIntEx s bitSize = Return (i, None) ->
  - 2 ^ ((if bitSize =? 0 then strconv.IntSize else bitSize) - 1) <= i
  < 2 ^ ((if bitSize =? 0 then strconv.IntSize else bitSize) - 1).
Proof.
  intros Hb. unfold parseIntEx. destruct (slice02 s); [|discriminate].
  destruct (a =? "0b")%string; intros H; injection H as H;
    apply ParseInt_range in H; assumption.
Qed.

Lemma parseUintEx_range (s : string) (bitSize u : Z) :
  parseUintEx s bitSize = Return (u, None) ->
  0 <= u < 2 ^ (if bitSize =? 0 then strconv.IntSize else bitSize).
Proof.
  unfold parseUintEx. destruct (slice02 s); [|discriminate].
  destruct (a =? "0b")%string; intros H; injection H as H;
    apply ParseUint_range in H; assumption.
Qed.

Lemma toSigned_fits (bits i : Z) :
  0 < bits -> - 2 ^ (bits - 1) <= i < 2 ^ (bits - 1) ->
  toSigned bits i = i.
Proof.
  intros Hb Hi. unfold toSigned.
  assert (2 * 2 ^ (bits - 1) = 2 ^ bits).
  { rewrite <- Z.pow_succ_r by lia. f_equal. lia. }
  rewrite Z.mod_small by lia. lia.
Qed.

Section ScalarExtras.

Variable F : Type.
Variable Fzero : F.
Variable Feqb : F -> F -> bool.
Variable ParseFloat : string -> Z -> option F.

(** X3. An integer that the coercion returns is the number that the
    conversion of the string gave: it is in the range of the kind of the
    destination, and the conversion to the type of the destination cuts
    nothing of it. *)
Theorem integer_fits (s : selfString) (kind : reflect.Kind) (item : Data F) :
  isIntegerKind kind = true ->
  encodeScalarField ParseFloat s kind = Return (Some item, None) ->
  (isSignedKind kind = true
   /\ exists i,
        item = DInt kind i
        /\ parseIntEx (str s) (bitSizeOf kind) = Return (i, None)
        /\ - 2 ^ (widthOf kind - 1) <= i < 2 ^ (widthOf kind - 1))
  \/ (isUnsignedKind kind = true
      /\ exists u,
           item = DUint kind u
           /\ parseUintEx (str s) (bitSizeOf kind) = Return (u, None)
           /\ 0 <= u < 2 ^ widthOf kind).
Proof.
  intros Hk H.
  assert (Hw : 0 < widthOf kind) by (destruct kind; reflexivity).
  destruct kind; try discriminate Hk; unfold encodeScalarField in H;
    match type of H with
    | match ?x with _ => _ end = _ =>
      destruct x as [[z [e|]]|msg] eqn:Ep; try discriminate H
    end;
    injection H as <-;
    [ left | left | left | left | left
    | right | right | right | right | right ];
    (split; [reflexivity|]); exists z.
  all: try (match type of Ep with
            | parseIntEx ?a ?b = _ =>
              pose proof (parseIntEx_range a b z Hw Ep) as Hr
            end;
            rewrite (toSigned_fits _ _ Hw Hr);
            split; [reflexivity | split; [reflexivity | exact Hr]]).
  all: pose proof (parseUintEx_range _ _ _ Ep) as Hr;
    unfold toUnsigned; rewrite Z.mod_small by exact Hr;
    split; [reflexivity | split; [reflexivity | exact Hr]].
Qed.

(** X4. No string is bound to a destination of kind [uintptr]: the kind
    counts as a scalar, the coercion has no case for it and returns
    [nil] without an error, and writing [nil] panics. *)
Theorem uintptr_panics (s : selfString) (name : string) (field : Value F) :
  reflect.KindOf (typ field) = reflect.Uintptr ->
  encodeScalarField ParseFloat s reflect.Uintptr = Return (None, None)
  /\ panics (packIntoField Fzero Feqb ParseFloat (VString s) name field)
     = true.
Proof.
  intros Hk. split; [reflexivity|].
  simpl. unfold stringPackIntoField, stringMakeValue. rewrite Hk. simpl.
  unfold Set_. destruct (flagRO field); reflexivity.
Qed.

End ScalarExtras.

Lemma integer_fits_witness :
  isIntegerKind reflect.Int8 = true
  /\ encodeScalarField noFloat (mkString "-0x80" 1) reflect.Int8
     = Return (Some (DInt reflect.Int8 (-128)), None)
  /\ ((isSignedKind reflect.Int8 = true
       /\ exists i,
            DInt reflect.Int8 (-128) = @DInt unit reflect.Int8 i
            /\ parseIntEx "-0x80" 8 = Return (i, None)
            /\ - 2 ^ (8 - 1) <= i < 2 ^ (8 - 1))
      \/ (isUnsignedKind reflect.Int8 = true
          /\ exists u,
               DInt reflect.Int8 (-128) = @DUint unit reflect.Int8 u
               /\ parseUintEx "-0x80" 8 = Return (u, None)
               /\ 0 <= u < 2 ^ 8)).
Proof.
  split; [reflexivity|]. split; [reflexivity|].
  exact (integer_fits unit noFloat (mkString "-0x80" 1) reflect.Int8
           (DInt reflect.Int8 (-128)) eq_refl eq_refl).
Defined.

Lemma uintptr_panics_witness :
  reflect.KindOf (reflect.TBasic "uintptr" reflect.Uintptr) = reflect.Uintptr
  /\ panics (pack0 (word "42") "Addr"
               (mkValue (reflect.TBasic "uintptr" reflect.Uintptr) false
                        (DUint reflect.Uintptr 0)))
     = true.
Proof.
  split; [reflexivity|].
  exact (proj2 (uintptr_panics unit tt unitEqb noFloat (mkString "42" 1)
                  "Addr"
                  (mkValue (reflect.TBasic "uintptr" reflect.Uintptr) false
                           (DUint reflect.Uintptr 0)) eq_refl)).
Defined.

(* ================================================================== *)
(** ** Further properties: slices, arrays, maps and structures         *)
(* ================================================================== *)

Section ContainerExtras.

Variable F : Type.
Variable Fzero : F.
Variable Feqb : F -> F -> bool.
Variable ParseFloat : string -> Z -> option F.
Variable pack : selfValue -> string -> Value F -> Packed F.
Variable make : selfValue -> reflect.Type_ -> Maked F.

(** *** Slices *)

Lemma sliceLoop_appends (t : reflect.Type_) (ro : bool)
      (vs : list selfValue) :
  forall d d' err,
    sliceLoop F make t ro vs d = Return (d', err) ->
    exists new,
      elemsOf d' = (elemsOf d ++ new)%list
      /\ (List.length new <= List.length vs)%nat
      /\ (err = None -> List.length new = List.length vs).
Proof.
  induction vs as [|v vs IH]; intros d d' err H; simpl in H.
  - injection H as <- <-. exists []. rewrite app_nil_r. auto.
  - destruct (checkElement (reflect.Elem t) v).
    { injection H as <- <-. exists []. rewrite app_nil_r.
      repeat split; [simpl; lia | discriminate]. }
    destruct (make v (reflect.Elem t)) as [[value [e|]]|msg];
      [| |discriminate H].
    { injection H as <- <-. exists []. rewrite app_nil_r.
      repeat split; [simpl; lia | discriminate]. }
    unfold Append in H. cbn [flagRO typ data] in H.
    destruct ro; [discriminate H|].
    destruct value as [[vt x]|]; [|discriminate H].
    destruct (assignable vt (reflect.Elem t)); [|discriminate H].
    destruct (IH _ _ _ H) as (new & E & Hle & Hok).
    exists (x :: new). cbn [elemsOf] in E. rewrite E, <- app_assoc.
    repeat split; [simpl; lia | intros He; simpl; rewrite (Hok He); reflexivity].
Qed.

(** X5. A binding to a slice appends to what the slice holds: the
    elements it had stay where they were, and one element is appended
    for each value of the node, up to the value that raises an error. *)
Theorem slice_appends (node : selfNode) (field : Value F) (d : Data F)
        (err : option packError) :
  packToSlice F make node field = Return (d, err) ->
  exists new,
    elemsOf d = (elemsOf (data field) ++ new)%list
    /\ (List.length new <= List.length (values node))%nat
    /\ (err = None -> List.length new = List.length (values node)).
Proof. apply sliceLoop_appends. Qed.

(** *** Arrays and structures bound by order *)

Lemma length_updateAt (i : nat) (d : Data F) :
  forall l, List.length (updateAt i d l) = List.length l.
Proof.
  induction i as [|i IH]; intros [|x l]; simpl; auto.
Qed.

Lemma arrayLoop_frame (field : Value F) (vs : list selfValue) :
  forall i elems elems' err,
    arrayLoop F pack field i vs elems = Return (elems', err) ->
    List.length elems' = List.length elems
    /\ forall j, (j < i \/ i + List.length vs <= j)%nat ->
                 nth j elems' DNil = nth j elems DNil.
Proof.
  induction vs as [|v vs IH]; intros i elems elems' err H; simpl in H.
  - injection H as <- _. auto.
  - destruct (checkElement (reflect.Elem (typ field)) v).
    { injection H as <- _. auto. }
    destruct (pack v "" _) as [[d [e|]]|msg]; [| |discriminate H].
    + injection H as <- _. split; [apply length_updateAt|].
      intros j Hj. apply nth_updateAt_other. simpl in Hj. lia.
    + destruct (IH _ _ _ _ H) as (Hlen & Hnth).
      split; [rewrite Hlen; apply length_updateAt|].
      intros j Hj. rewrite Hnth by (simpl in Hj; lia).
      apply nth_updateAt_other. simpl in Hj. lia.
Qed.

(** X6. A binding to an array keeps the number of its elements, and
    leaves as they were the elements from the index that is the number
    of values of the node on: a node with fewer values than the array
    has elements fills the first ones only. *)
Theorem array_frame (node : selfNode) (field : Value F) (d : Data F)
        (err : option packError) :
  packToArray F pack node field = Return (d, err) ->
  List.length (elemsOf d) = List.length (elemsOf (data field))
  /\ forall j, (List.length (values node) <= j)%nat ->
               nth j (elemsOf d) DNil = nth j (elemsOf (data field)) DNil.
Proof.
  unfold packToArray.
  destruct (reflect.Len (typ field) <? _).
  { intros H. injection H as <- _. auto. }
  destruct (arrayLoop F pack field 0 (values node) (elemsOf (data field)))
    as [[elems e]|msg] eqn:E; [|discriminate].
  intros H. injection H as <- _.
  destruct (arrayLoop_frame _ _ _ _ _ _ E) as (Hlen & Hnth).
  split; [exact Hlen|]. intros j Hj. apply Hnth. simpl. lia.
Qed.

Lemma byOrderLoop_frame (t : reflect.Type_) (ro : bool)
      (vs : list selfValue) :
  forall i d d' err,
    byOrderLoop F pack t ro i vs d = Return (d', err) ->
    forall j, (j < i \/ i + List.length vs <= j)%nat ->
              nth j (elemsOf d') DNil = nth j (elemsOf d) DNil.
Proof.
  induction vs as [|v vs IH]; intros i d d' err H j Hj; simpl in H.
  - injection H as <- _. reflexivity.
  - destruct (pack v "" _) as [[fd [e|]]|msg]; [| |discriminate H].
    + injection H as <- _. apply nth_withField_other. simpl in Hj. lia.
    + rewrite (IH _ _ _ _ H) by (simpl in Hj; lia).
      apply nth_withField_other. simpl in Hj. lia.
Qed.

(** X7. A binding by order to a structure leaves as they were the fields
    from the index that is the number of values of the node on: a record
    written with fewer values than the structure has fields is accepted,
    and fills the first fields only. *)
Theorem by_order_frame (node : selfNode) (st : Value F) (d : Data F)
        (err : option packError) :
  packToStructByFieldOrder F pack node st = Return (d, err) ->
  forall j, (List.length (values node) <= j)%nat ->
            nth j (elemsOf d) DNil = nth j (elemsOf (data st)) DNil.
Proof.
  unfold packToStructByFieldOrder.
  destruct (reflect.NumField (typ st) <? _).
  { intros H. injection H as <- _. reflexivity. }
  destruct (negb _ && negb _).
  { intros H. injection H as <- _. reflexivity. }
  intros H j Hj. apply (byOrderLoop_frame _ _ _ _ _ _ _ H). simpl. lia.
Qed.

End ContainerExtras.

Section RealBinder.

Variable F : Type.
Variable Fzero : F.
Variable Feqb : F -> F -> bool.
Variable ParseFloat : string -> Z -> option F.

(** X8. No value is bound to a slice of arrays: a string and a list with
    a head are errors of the meta-header rule, and for a list with an
    empty head [makeValue] calls [reflect.MakeSlice] on the array type,
    which panics. *)
Theorem slice_of_arrays_panics (node : selfNode) (field : Value F)
        (v : selfValue) (rest : list selfValue) :
  reflect.KindOf (reflect.Elem (typ field)) = reflect.Array ->
  values node = v :: rest ->
  noError (packToSlice F (makeValue Fzero Feqb ParseFloat) node field)
  = false
  /\ (elementOK (reflect.Elem (typ field)) v = true ->
      packToSlice F (makeValue Fzero Feqb ParseFloat) node field
      = Panic "reflect.MakeSlice of non-slice type").
Proof.
  intros Hk Hvs. unfold packToSlice. rewrite Hvs. cbn [sliceLoop].
  unfold checkElement, elementOK, checkMetaHeader. rewrite Hk.
  destruct v as [s|n]; [split; [reflexivity|discriminate]|].
  rewrite len_zero. destruct (str (head n) =? "")%string; cbn [negb].
  - cbn [makeValue]. unfold nodeMakeValue. rewrite Hk. cbn [isScalarKind].
    split; reflexivity.
  - split; [reflexivity|discriminate].
Qed.

End RealBinder.

Section MapExtras.

Variable F : Type.
Variable Fzero : F.
Variable Feqb : F -> F -> bool.
Variable ParseFloat : string -> Z -> option F.
Variable pack : selfValue -> string -> Value F -> Packed F.
Variable make : selfValue -> reflect.Type_ -> Maked F.

Lemma mapStore_entries (k v : Data F) (l : list (Entry F)) :
  forall e, In e (mapStore Feqb k v l) -> e = mkEntry k v \/ In e l.
Proof.
  induction l as [|[k' v'] l IH]; intros e H; simpl in H.
  - destruct H as [<-|[]]. left. reflexivity.
  - destruct (keyEqb Feqb k' k).
    + destruct H as [<-|H]; [left; reflexivity | right; right; exact H].
    + destruct H as [<-|H]; [right; left; reflexivity|].
      destruct (IH e H) as [->|Hin]; [left; reflexivity|right; right; exact Hin].
Qed.

Lemma length_mapStore (k v : Data F) (l : list (Entry F)) :
  (List.length (mapStore Feqb k v l) <= S (List.length l))%nat.
Proof.
  induction l as [|[k' v'] l IH]; simpl; [lia|].
  destruct (keyEqb Feqb k' k); simpl; lia.
Qed.

Lemma mapLoop_keys (node : selfNode) (t : reflect.Type_) (ro : bool)
      (all : list selfValue) (vs : list selfValue) :
  (forall v, In v vs -> In v all) ->
  forall d d' err,
    mapLoop F Fzero Feqb ParseFloat pack node t ro vs d = Return (d', err) ->
    (forall e, In e (entriesOf d) -> keyOf ParseFloat t all e) ->
    (forall e, In e (entriesOf d') -> keyOf ParseFloat t all e)
    /\ (List.length (entriesOf d')
        <= List.length (entriesOf d) + List.length vs)%nat.
Proof.
  induction vs as [|v vs IH]; intros Hall d d' err H Hd; simpl in H.
  - injection H as <- _. split; [exact Hd|lia].
  - destruct v as [s|n].
    { injection H as <- _. split; [exact Hd|lia]. }
    destruct (encodeScalarField ParseFloat (head n) _)
      as [[key [e|]]|msg] eqn:Ek; [| |discriminate H].
    { injection H as <- _. split; [exact Hd|lia]. }
    destruct (pack (VNode n) _ _) as [[x [e|]]|msg]; [| |discriminate H].
    { injection H as <- _. split; [exact Hd|lia]. }
    unfold SetMapIndex in H. cbn [flagRO typ data] in H.
    destruct ro; [discriminate H|].
    destruct key as [k|]; [|discriminate H]. cbn [ValueOf] in H.
    destruct (assignable _ _); [|discriminate H].
    destruct (IH (fun v Hv => Hall v (or_intror Hv)) _ _ _ H) as (Hk & Hl).
    + cbn [entriesOf]. intros e He.
      destruct (mapStore_entries _ _ _ _ He) as [->|Hin]; [|apply Hd, Hin].
      exists n. split; [apply Hall; left; reflexivity|exact Ek].
    + split; [exact Hk|]. cbn [entriesOf] in Hl.
      pose proof (length_mapStore k x (entriesOf d)). simpl. lia.
Qed.

(** X9. A binding to a field that is a map starts from a new map:
    whatever the field held, the map has afterwards only entries whose
    key is the coercion of the head of a list of the node, and no more
    entries than the node has values. *)
Theorem map_holds_node_keys (node : selfNode) (name : string)
        (field : Value F) (d : Data F) (err : option packError) :
  reflect.KindOf (typ field) = reflect.Map ->
  nodePackIntoField F Fzero Feqb ParseFloat pack make node name field
  = Return (d, err) ->
  (forall e, In e (entriesOf d) -> keyOf ParseFloat (typ field) (values node) e)
  /\ (List.length (entriesOf d) <= List.length (values node))%nat.
Proof.
  intros Hk. unfold nodePackIntoField. rewrite Hk. cbn [isScalarKind].
  unfold Set_. destruct (flagRO field) eqn:Ero; [discriminate|].
  destruct (assignable (typ field) (typ field)); [|discriminate].
  unfold packToMap. cbn [typ flagRO data]. intros H.
  assert (Hz : entriesOf (Zero Fzero (typ field)) = []).
  { destruct (typ field) as [n k| | | |]; try discriminate Hk;
      try reflexivity. simpl in Hk. subst k. reflexivity. }
  destruct (mapLoop_keys node (typ field) false (values node) (values node)
              (fun v Hv => Hv) _ _ _ H) as (Hkeys & Hlen).
  - rewrite Hz. intros e [].
  - split; [exact Hkeys|]. rewrite Hz in Hlen. exact Hlen.
Qed.

(** *** Structures bound by name *)

Lemma updateAt_swap (i j : nat) (a b : Data F) :
  i <> j ->
  forall l, updateAt i a (updateAt j b l) = updateAt j b (updateAt i a l).
Proof.
  revert j. induction i as [|i IH]; intros [|j] Hij [|x l]; simpl;
    try reflexivity; try congruence.
  f_equal. apply IH. congruence.
Qed.

Lemma Field_withField_other (t : reflect.Type_) (ro : bool) (d x : Data F)
      (i j : nat) :
  i <> j ->
  Field (mkValue t ro (withField d j x)) i = Field (mkValue t ro d) i.
Proof.
  intros Hij. unfold Field. cbn [typ flagRO data].
  destruct (nth_error (reflect.Fields t) i); [|reflexivity].
  f_equal. apply nth_withField_other. exact Hij.
Qed.

Lemma byNameLoop_app (node : selfNode) (t : reflect.Type_) (ro : bool)
      (pre rest : list selfValue) :
  forall d,
    byNameLoop F pack node t ro (pre ++ rest)%list d
    = match byNameLoop F pack node t ro pre d with
      | Return (d', None) => byNameLoop F pack node t ro rest d'
      | other => other
      end.
Proof.
  induction pre as [|v pre IH]; intros d; [reflexivity|].
  simpl. destruct v as [s|n]; [reflexivity|].
  destruct (reflect.fieldIndex _ _) as [i|]; [|reflexivity].
  destruct (pack (VNode n) _ _) as [[fd [e|]]|msg]; try reflexivity.
  apply IH.
Qed.

(** The loop by name uses the node for the head in its messages only. *)
Lemma byNameLoop_head (node' node : selfNode) (t : reflect.Type_)
      (ro : bool) :
  str (head node') = str (head node) ->
  forall vs d,
    byNameLoop F pack node' t ro vs d = byNameLoop F pack node t ro vs d.
Proof.
  intros Hh. induction vs as [|v vs IH]; intros d; [reflexivity|].
  simpl. rewrite Hh. destruct v as [s|n]; [reflexivity|].
  destruct (reflect.fieldIndex _ _); [|reflexivity].
  destruct (pack (VNode n) _ _) as [[fd [e|]]|msg]; try reflexivity.
  apply IH.
Qed.

(** X10. The order of two neighbouring lists of a node bound by name
    does not matter when they name two fields: if the binding ends
    without an error, so does the binding of the node with the two lists
    exchanged, and the structure is the same. *)
Theorem by_name_order (node node' : selfNode) (st : Value F)
        (pre post : list selfValue) (a b : selfNode) (i j : nat)
        (d : Data F) :
  values node = (pre ++ VNode a :: VNode b :: post)%list ->
  values node' = (pre ++ VNode b :: VNode a :: post)%list ->
  str (head node') = str (head node) ->
  reflect.fieldIndex (publicName (str (head a))) (reflect.Fields (typ st))
  = Some i ->
  reflect.fieldIndex (publicName (str (head b))) (reflect.Fields (typ st))
  = Some j ->
  i <> j ->
  packToStructByFieldName F pack node st = Return (d, None) ->
  packToStructByFieldName F pack node' st = Return (d, None).
Proof.
  intros Hv Hv' Hh Hi Hj Hij. unfold packToStructByFieldName.
  rewrite Hv, Hv', !byNameLoop_app.
  pose proof (byNameLoop_head node' node (typ st) (flagRO st) Hh) as Hpre.
  rewrite Hpre.
  destruct (byNameLoop F pack node (typ st) (flagRO st) pre (data st))
    as [[d0 [e|]]|msg]; try (intros H; exact H).
  cbn [byNameLoop]. rewrite Hi, Hj.
  destruct (pack (VNode a) _ (Field (mkValue (typ st) (flagRO st) d0) i))
    as [[fa [e|]]|msg] eqn:Ea; try discriminate.
  rewrite (Field_withField_other _ _ _ _ j i) by congruence.
  destruct (pack (VNode b) _ (Field (mkValue (typ st) (flagRO st) d0) j))
    as [[fb [e|]]|msg] eqn:Eb; try discriminate.
  rewrite (Field_withField_other _ _ _ _ i j) by congruence.
  rewrite Ea. rewrite Hpre.
  replace (withField (withField d0 j fb) i fa)
    with (withField (withField d0 i fa) j fb); [intros H; exact H|].
  unfold withField. cbn [elemsOf]. f_equal. apply updateAt_swap. congruence.
Qed.

End MapExtras.

(** *** The properties on examples *)

Lemma slice_appends_witness :
  packToSlice unit make0 tens intsValue
  = Return (DSlice [DInt reflect.Int 1; DInt reflect.Int 2;
                    DInt reflect.Int 10; DInt reflect.Int 20], None)
  /\ exists new : list (Data unit),
       [DInt reflect.Int 1; DInt reflect.Int 2;
        DInt reflect.Int 10; DInt reflect.Int 20]
       = (elemsOf (data intsValue) ++ new)%list
       /\ (List.length new <= List.length (values tens))%nat
       /\ (@None packError = None ->
           List.length new = List.length (values tens)).
Proof.
  split; [reflexivity|].
  exact (slice_appends unit make0 tens intsValue _ None eq_refl).
Defined.

Lemma array_frame_witness :
  packToArray unit pack0 tens tripleValue
  = Return (DArray [DInt reflect.Int 10; DInt reflect.Int 20;
                    DInt reflect.Int 9], None)
  /\ nth 2 [DInt reflect.Int 10; DInt reflect.Int 20; DInt reflect.Int 9]
         DNil
     = nth 2 (elemsOf (data tripleValue)) (@DNil unit).
Proof.
  split; [reflexivity|].
  apply (proj2 (array_frame unit pack0 tens tripleValue _ None eq_refl) 2%nat).
  simpl. lia.
Defined.

Lemma by_order_frame_witness :
  packToStructByFieldOrder unit pack0
    (mkNode (mkString "Info" 1) [word "alice"] 1 false) (infoValue "bob" 7)
  = Return (DStruct [DString "alice"; DInt reflect.Int 7], None)
  /\ nth 1 [DString "alice"; DInt reflect.Int 7] DNil
     = nth 1 (elemsOf (data (infoValue "bob" 7))) (@DNil unit).
Proof.
  split; [reflexivity|].
  apply (by_order_frame unit pack0
           (mkNode (mkString "Info" 1) [word "alice"] 1 false)
           (infoValue "bob" 7) _ None eq_refl 1%nat).
  simpl. lia.
Defined.

Lemma slice_of_arrays_panics_witness :
  reflect.KindOf (reflect.Elem (typ pairsValue)) = reflect.Array
  /\ elementOK (reflect.Elem (typ pairsValue)) (row "" "10" "20") = true
  /\ packToSlice unit make0 tensRow pairsValue
     = Panic "reflect.MakeSlice of non-slice type".
Proof.
  split; [reflexivity|]. split; [reflexivity|].
  exact (proj2 (slice_of_arrays_panics unit tt unitEqb noFloat tensRow
                  pairsValue (row "" "10" "20") [] eq_refl eq_refl)
               eq_refl).
Defined.

Lemma map_holds_node_keys_witness :
  reflect.KindOf (typ countsValue) = reflect.Map
  /\ pack0 (VNode tensByKey) "C" countsValue
     = Return (DMap [mkEntry (DString "a") (DInt reflect.Int 10);
                     mkEntry (DString "b") (DInt reflect.Int 20)], None)
  /\ (List.length
        (entriesOf (DMap [mkEntry (DString "a") (DInt reflect.Int 10);
                          mkEntry (DString "b")
                                  (@DInt unit reflect.Int 20)]))
      <= List.length (values tensByKey))%nat.
Proof.
  split; [reflexivity|]. split; [reflexivity|].
  exact (proj2 (map_holds_node_keys unit tt unitEqb noFloat pack0 make0
                  tensByKey "C" countsValue _ None eq_refl eq_refl)).
Defined.

Lemma by_name_order_witness :
  packToStructByFieldName unit pack0
    (mkNode (mkString "X" 1) [pairNode "name" "bob" 1; pairNode "age" "41" 1]
            1 false) (infoValue "" 0)
  = Return (DStruct [DString "bob"; DInt reflect.Int 41], None)
  /\ packToStructByFieldName unit pack0
       (mkNode (mkString "X" 1)
               [pairNode "age" "41" 1; pairNode "name" "bob" 1] 1 false)
       (infoValue "" 0)
     = Return (DStruct [DString "bob"; DInt reflect.Int 41], None).
Proof.
  split; [reflexivity|].
  apply (by_name_order unit pack0
           (mkNode (mkString "X" 1)
                   [pairNode "name" "bob" 1; pairNode "age" "41" 1] 1 false)
           (mkNode (mkString "X" 1)
                   [pairNode "age" "41" 1; pairNode "name" "bob" 1] 1 false)
           (infoValue "" 0) [] []
           (mkNode (mkString "name" 1) [word "bob"] 1 false)
           (mkNode (mkString "age" 1) [word "41"] 1 false) 0%nat 1%nat);
    try reflexivity.
  discriminate.
Defined.

(* ================================================================== *)
(** ** Further properties: the parser on a text                        *)
(* ================================================================== *)

(** *** What the parser returns for the root *)

Lemma bodyLoop_root (n : nat) : forall vs p vs' p',
  bodyLoop n true vs p = POk vs' p' ->
  forallb isListValue vs = true -> forallb isListValue vs' = true.
Proof.
  induction n as [|n IH]; intros vs p vs' p' H Hvs; [discriminate H|].
  simpl in H.
  destruct (negb (eod p) && negb (r p =? sexprClose)).
  2:{ injection H as <- _. exact Hvs. }
  destruct (r p =? sexprOpen); [|discriminate H].
  destruct (parseNode n p) as [nd q| | |]; try discriminate H.
  cbn [pbind] in H.
  destruct (skipSpaces n q) as [[] q'| | |]; try discriminate H.
  cbn [pbind] in H. apply (IH _ _ _ _ H).
  rewrite forallb_app, Hvs. reflexivity.
Qed.

(** X12. The tree of a document has only lists under its root: a string
    at the top level is an error, whatever comes before or after it. *)
Theorem root_holds_lists (fuel : nat) (data : string) (n : selfNode) :
  parseTree fuel data = Returned n ->
  root n = true /\ forallb isListValue (values n) = true.
Proof.
  unfold parseTree, parseRoot. destruct fuel as [|fuel]; [discriminate|].
  cbn [parseNodeBody].
  destruct (skipSpaces fuel (newParser data)) as [[] p1| | |];
    try discriminate.
  cbn [pbind].
  destruct (bodyLoop fuel true [] p1) as [vs p2| | |] eqn:E;
    try discriminate.
  cbn [pbind]. apply bodyLoop_root in E; [|reflexivity].
  destruct (r p2 =? sexprClose).
  - destruct (next p2) as [[] p3| | |]; try discriminate.
    intros H. injection H as <-. split; [reflexivity|exact E].
  - intros H. injection H as <-. split; [reflexivity|exact E].
Qed.

Lemma root_holds_lists_witness :
  parseTree 20 "(X 1) (Y (Z 2))"
  = Returned (rootOf [pairNode "X" "1" 1;
                      VNode (mkNode (mkString "Y" 1) [pairNode "Z" "2" 1]
                                    1 false)])
  /\ forallb isListValue
       (values (rootOf [pairNode "X" "1" 1;
                        VNode (mkNode (mkString "Y" 1) [pairNode "Z" "2" 1]
                                      1 false)]))
     = true.
Proof.
  split; [vm_compute; reflexivity|].
  exact (proj2 (root_holds_lists 20 "(X 1) (Y (Z 2))" _
                  ltac:(vm_compute; reflexivity))).
Defined.

Lemma comment_line_erased_witness :
  commentText " comment" = true
  /\ parseTree 20 "(X 1)" = Returned (rootOf [pairNode "X" "1" 1])
  /\ exists n',
       parseTree (20 + String.length " comment" + 4)
                 (";" ++ " comment" ++ lf ++ "(X 1)")
       = Returned n'
       /\ eraseNodeLines n' = eraseNodeLines (rootOf [pairNode "X" "1" 1]).
Proof.
  split; [reflexivity|]. split; [vm_compute; reflexivity|].
  exact (comment_line_erased " comment" "(X 1)" 20 _ eq_refl
           ltac:(vm_compute; reflexivity)).
Defined.

(* ================================================================== *)
(** ** Further properties: printing a tree and reading it back         *)
(* ================================================================== *)

(** *** The parser on a byte of the text *)

Lemma drop_next (k : nat) : forall (inp : string) (c : ascii) (t : string),
  drop k inp = String c t -> drop (S k) inp = t.
Proof.
  induction k as [|k IH]; intros [|x inp] c t H; simpl in *;
    try discriminate.
  - injection H as _ <-. reflexivity.
  - exact (IH _ _ _ H).
Qed.

Lemma drop_plus (a : string) : forall (k : nat) (inp b : string),
  drop k inp = a ++ b -> drop (k + String.length a) inp = b.
Proof.
  induction a as [|x a IH]; intros k inp b H; simpl in *.
  - rewrite Nat.add_0_r. exact H.
  - rewrite Nat.add_succ_r. apply (IH (S k)). exact (drop_next _ _ _ _ H).
Qed.

Lemma drop_len (k : nat) : forall (inp : string) (c : ascii) (t : string),
  drop k inp = String c t -> len inp = Z.of_nat k + 1 + len t.
Proof.
  unfold len.
  induction k as [|k IH]; intros [|x inp] c t H; simpl in H;
    try discriminate.
  - injection H as _ <-. simpl String.length. lia.
  - specialize (IH _ _ _ H). simpl String.length. lia.
Qed.

Lemma cursor_r inp k line c t :
  drop k inp = String c t -> r (cursor inp k line) = byteZ c.
Proof. intros H. unfold cursor. simpl. rewrite H. reflexivity. Qed.

(** [next] on a byte that is not the last one. *)
Lemma next_cursor inp k line c d t :
  drop k inp = String c (String d t) -> asciiByte d = true ->
  next (cursor inp k line) = POk tt (cursor inp (S k) (lineAfter c line)).
Proof.
  intros H Hd. unfold next, cursor. cbn [input pos runeWidth r lineNumber eod].
  pose proof (drop_len _ _ _ _ H) as Hl. pose proof (len_nonneg t) as Ht.
  change (len (String d t)) with (Z.of_nat (S (String.length t))) in Hl.
  destruct (Z.leb_spec (len inp) (Z.of_nat k + 1)); [lia|].
  replace (Z.to_nat (Z.of_nat k + 1)) with (S k) by lia.
  rewrite (drop_next _ _ _ _ H), H. cbn [firstByte].
  unfold utf8.DecodeRuneInString. unfold asciiByte in Hd. rewrite Hd.
  unfold lineAfter.
  assert ((byteZ d =? utf8.RuneError) = false) as ->.
  { apply Z.eqb_neq. apply Z.ltb_lt in Hd. unfold utf8.RuneError. lia. }
  replace (Z.of_nat k + 1) with (Z.of_nat (S k)) by lia. reflexivity.
Qed.

(** [next] on the last byte. *)
Lemma next_cursor_last inp k line c :
  drop k inp = String c EmptyString ->
  next (cursor inp k line) = POk tt (cursorEnd inp k line).
Proof.
  intros H. unfold next, cursor, cursorEnd.
  cbn [input pos runeWidth r lineNumber eod].
  pose proof (drop_len _ _ _ _ H) as Hl. change (len "") with 0 in Hl.
  destruct (Z.leb_spec (len inp) (Z.of_nat k + 1)); [|lia]. reflexivity.
Qed.

Lemma blankByte_facts c :
  blankByte c = true ->
  asciiByte c = true /\ isSpace (byteZ c) = true
  /\ isComment (byteZ c) = false /\ (byteZ c =? sexprClose) = false.
Proof.
  unfold blankByte, asciiByte. intros H. apply orb_true_iff in H.
  destruct H as [H|H]; apply Z.eqb_eq in H; rewrite H; repeat split.
Qed.

(** White space before the byte [e], which is no white space and starts
    no comment. *)
Lemma skipSpaces_blanks (e : ascii) (rest : string) :
  asciiByte e = true -> isSpace (byteZ e) = false ->
  isComment (byteZ e) = false ->
  forall (bl inp : string) (k : nat) (line : N),
  blankText bl = true -> drop k inp = bl ++ String e rest ->
  exists line', forall n, (String.length bl < n)%nat ->
    skipSpaces n (cursor inp k line)
    = POk tt (cursor inp (k + String.length bl) line').
Proof.
  intros He Hs Hc. induction bl as [|c bl IH]; intros inp k line Hb Hd.
  - exists line. intros [|n] Hn; [simpl in Hn; lia|].
    simpl in Hd. cbn [skipSpaces]. cbn [eod cursor].
    rewrite (cursor_r _ _ _ _ _ Hd), Hs, Hc. simpl.
    rewrite Nat.add_0_r. reflexivity.
  - simpl in Hb. apply andb_true_iff in Hb. destruct Hb as [Hc' Hb].
    destruct (blankByte_facts _ Hc') as (Ha & Hsp & Hco & _).
    cbn [String.append] in Hd.
    assert (exists d t, bl ++ String e rest = String d t
                        /\ asciiByte d = true) as (d & t & Et & Had).
    { destruct bl as [|d bl]; simpl.
      - exists e, rest. split; [reflexivity|exact He].
      - simpl in Hb. apply andb_true_iff in Hb.
        exists d, (bl ++ String e rest). split; [reflexivity|].
        apply (blankByte_facts d). tauto. }
    destruct (IH inp (S k) (lineAfter c line) Hb (drop_next _ _ _ _ Hd))
      as [line' IH'].
    exists line'. intros [|n] Hn; [lia|].
    cbn [skipSpaces]. cbn [eod cursor].
    rewrite (cursor_r _ _ _ _ _ Hd), Hsp, Hco. cbn [negb andb orb].
    rewrite Et in Hd. rewrite (next_cursor _ _ _ _ _ _ Hd Had).
    cbn [pbind]. rewrite IH' by (simpl in Hn; lia).
    simpl String.length. rewrite Nat.add_succ_r. reflexivity.
Qed.

(** White space up to the end of the text. *)
Lemma skipSpaces_blanks_end :
  forall (bl inp : string) (k : nat) (line : N) (c : ascii),
  blankByte c = true -> blankText bl = true -> drop k inp = String c bl ->
  exists p', eod p' = true /\ (r p' =? sexprClose) = false
    /\ forall n, (S (String.length bl) < n)%nat ->
       skipSpaces n (cursor inp k line) = POk tt p'.
Proof.
  induction bl as [|d bl IH]; intros inp k line c Hc Hb Hd;
    destruct (blankByte_facts _ Hc) as (Ha & Hsp & Hco & Hcl).
  - exists (cursorEnd inp k line). split; [reflexivity|]. split.
    { unfold cursorEnd. cbn [r]. rewrite Hd. exact Hcl. }
    intros [|[|n]] Hn; try (simpl in Hn; lia).
    cbn [skipSpaces]. cbn [eod cursor].
    rewrite (cursor_r _ _ _ _ _ Hd), Hsp, Hco. cbn [negb andb orb].
    rewrite (next_cursor_last _ _ _ _ Hd). reflexivity.
  - simpl in Hb. apply andb_true_iff in Hb. destruct Hb as [Hd' Hb].
    destruct (IH inp (S k) (lineAfter c line) d Hd' Hb
                 (drop_next _ _ _ _ Hd)) as (p' & E1 & E2 & IH').
    exists p'. split; [exact E1|]. split; [exact E2|].
    intros [|n] Hn; [lia|].
    cbn [skipSpaces]. cbn [eod cursor].
    rewrite (cursor_r _ _ _ _ _ Hd), Hsp, Hco. cbn [negb andb orb].
    rewrite (next_cursor _ _ _ _ _ _ Hd (proj1 (blankByte_facts _ Hd'))).
    cbn [pbind]. apply IH'. simpl in Hn. lia.
Qed.

Lemma byteZ_nonneg (c : ascii) : 0 <= byteZ c.
Proof. unfold byteZ. lia. Qed.

Lemma encode_ascii (c : ascii) :
  asciiByte c = true -> utf8.EncodeRune (byteZ c) = String c EmptyString.
Proof.
  unfold asciiByte, utf8.EncodeRune. intros H.
  pose proof (byteZ_nonneg c) as H0. apply Z.leb_le in H0.
  rewrite H0, H, byte_of_byteZ. reflexivity.
Qed.

Lemma cat_one (a : string) (c : ascii) (b : string) :
  (a ++ String c EmptyString) ++ b = a ++ String c b.
Proof. rewrite cat_assoc. reflexivity. Qed.

Lemma plainByte_line (c : ascii) (line : N) :
  plainByte c = true -> lineAfter c line = line.
Proof.
  unfold plainByte, lineAfter, isStringChar, isSpace. intros H.
  apply andb_true_iff in H. destruct H as [_ H].
  destruct (byteZ c =? endOfLine) eqn:E; [|reflexivity].
  apply Z.eqb_eq in E. rewrite E in H. discriminate H.
Qed.

(** A bare string before the byte [e], which is no string character. *)
Lemma bareLoop_word (e : ascii) (rest : string) :
  asciiByte e = true -> isStringChar (byteZ e) = false ->
  forall (w inp : string) (k : nat) (line : N) (acc : string),
  plainWord w = true -> drop k inp = w ++ String e rest ->
  forall n, (String.length w < n)%nat ->
    bareLoop n acc (cursor inp k line)
    = POk (acc ++ w) (cursor inp (k + String.length w) line).
Proof.
  intros He Hs. induction w as [|c w IH]; intros inp k line acc Hw Hd n Hn.
  - destruct n as [|n]; [simpl in Hn; lia|].
    simpl in Hd. cbn [bareLoop].
    rewrite (cursor_r _ _ _ _ _ Hd), Hs.
    rewrite Nat.add_0_r. f_equal.
    clear. induction acc; simpl; congruence.
  - simpl in Hw. apply andb_true_iff in Hw. destruct Hw as [Hc Hw].
    pose proof Hc as Hc'. unfold plainByte in Hc'.
    apply andb_true_iff in Hc'. destruct Hc' as [Ha Hst].
    cbn [String.append] in Hd.
    assert (exists d t, w ++ String e rest = String d t
                        /\ asciiByte d = true) as (d & t & Et & Had).
    { destruct w as [|d w]; simpl.
      - exists e, rest. split; [reflexivity|exact He].
      - simpl in Hw. apply andb_true_iff in Hw. destruct Hw as [Hw _].
        exists d, (w ++ String e rest). split; [reflexivity|].
        unfold plainByte in Hw. apply andb_true_iff in Hw. tauto. }
    destruct n as [|n]; [lia|]. cbn [bareLoop].
    rewrite (cursor_r _ _ _ _ _ Hd), Hst.
    pose proof (drop_next _ _ _ _ Hd) as Hd'.
    rewrite Et in Hd. rewrite (next_cursor _ _ _ _ _ _ Hd Had).
    cbn [pbind]. rewrite (plainByte_line _ _ Hc), (encode_ascii _ Ha).
    rewrite (IH inp (S k) line _ Hw Hd') by (simpl in Hn; lia).
    rewrite cat_one. simpl String.length. rewrite Nat.add_succ_r.
    reflexivity.
Qed.

(** The text of a quoted string without a backtick, before the closing
    backtick and the byte [e], which is no backtick. *)
Lemma backtickLoop_text (e : ascii) (rest : string) :
  asciiByte e = true -> (byteZ e =? backtick) = false ->
  forall (s inp : string) (k : nat) (line : N) (acc : string) (prev : Z),
  asciiText s = true -> hasByte backtick s = false ->
  (prev =? backtick) = false ->
  drop k inp = s ++ String "`"%char (String e rest) ->
  exists line', forall n, (S (String.length s) < n)%nat ->
    backtickLoop n acc prev (cursor inp k line)
    = POk (acc ++ s) (cursor inp (k + S (String.length s)) line').
Proof.
  intros He Hb. induction s as [|c s IH];
    intros inp k line acc prev Ha Hs Hp Hd.
  - simpl in Hd. exists (lineAfter "`"%char line).
    intros [|[|n]] Hn; try (simpl in Hn; lia).
    cbn [backtickLoop]. cbn [eod cursor].
    rewrite (cursor_r _ _ _ _ _ Hd).
    change (byteZ "`" =? backtick) with true. cbn [negb andb].
    rewrite Hp, (next_cursor _ _ _ _ _ _ Hd He). cbn [pbind].
    cbn [eod cursor].
    rewrite (cursor_r _ _ _ _ _ (drop_next _ _ _ _ Hd)), Hb.
    change (byteZ "`" =? backtick) with true. cbn [negb andb].
    simpl String.length. rewrite Nat.add_1_r. f_equal.
    clear. induction acc; simpl; congruence.
  - simpl in Ha, Hs. apply andb_true_iff in Ha. destruct Ha as [Hc Ha].
    apply orb_false_iff in Hs. destruct Hs as [Hcb Hs].
    cbn [String.append] in Hd.
    assert (exists d t, s ++ String "`"%char (String e rest) = String d t
                        /\ asciiByte d = true) as (d & t & Et & Had).
    { destruct s as [|d s]; simpl.
      - exists "`"%char, (String e rest). split; reflexivity.
      - simpl in Ha. apply andb_true_iff in Ha.
        exists d, (s ++ String "`"%char (String e rest)).
        split; [reflexivity|tauto]. }
    destruct (IH inp (S k) (lineAfter c line) (acc ++ String c EmptyString)
                 (byteZ c) Ha Hs Hcb (drop_next _ _ _ _ Hd)) as [line' IH'].
    exists line'. intros [|n] Hn; [lia|].
    cbn [backtickLoop]. cbn [eod cursor].
    rewrite (cursor_r _ _ _ _ _ Hd), Hcb. cbn [negb andb].
    rewrite Hp. cbn [andb].
    rewrite Et in Hd. rewrite (next_cursor _ _ _ _ _ _ Hd Had).
    cbn [pbind]. rewrite (encode_ascii _ Hc).
    rewrite IH' by (simpl in Hn; lia).
    rewrite cat_one. simpl String.length. rewrite !Nat.add_succ_r.
    reflexivity.
Qed.

Lemma ContainsAny_cons (c : ascii) (t chars : string) :
  asciiByte c = true ->
  strings.ContainsAny (String c t) chars
  = existsb (Z.eqb (byteZ c)) (strings.runes chars)
    || strings.ContainsAny t chars.
Proof.
  unfold strings.ContainsAny, strings.runes, asciiByte. intros H.
  cbn [strings.runesFrom utf8.DecodeRuneInString]. rewrite H. reflexivity.
Qed.

Lemma ReplaceByte_none (s : string) (new : string) :
  hasByte backtick s = false -> strings.ReplaceByte s "`"%char new = s.
Proof.
  induction s as [|c s IH]; simpl; [reflexivity|]. intros H.
  apply orb_false_iff in H. destruct H as [Hc Hs].
  rewrite (IH Hs). destruct (Ascii.eqb_spec c "`"%char) as [->|_].
  - discriminate Hc.
  - reflexivity.
Qed.

Lemma len_zero_empty (s : string) : (len s =? 0) = true -> s = EmptyString.
Proof.
  destruct s; [reflexivity|]. intros H. apply Z.eqb_eq in H.
  unfold len in H. cbn [String.length] in H. lia.
Qed.

(** How a printed string starts. *)
Lemma dumpString_first (s : selfString) :
  dumpable (str s) = true ->
  exists c t, dumpString s = String c t
    /\ asciiByte c = true /\ isSpace (byteZ c) = false
    /\ isComment (byteZ c) = false
    /\ (byteZ c =? sexprOpen) = false /\ (byteZ c =? sexprClose) = false.
Proof.
  unfold dumpable, dumpString. intros H.
  destruct (len (str s) =? 0) eqn:El.
  { exists "["%char, "]". repeat split. }
  destruct (strings.ContainsAny (str s) quotedChars) eqn:Eq.
  { eexists "`"%char, _. repeat split. }
  rewrite orb_false_l in H. apply andb_true_iff in H.
  destruct H as [H Hp]. apply andb_true_iff in H. destruct H as [Ha _].
  destruct (str s) as [|c t]; [discriminate El|].
  exists c, t. simpl in Ha, Hp.
  apply andb_true_iff in Ha. destruct Ha as [Hc _].
  apply andb_true_iff in Hp. destruct Hp as [Hp _].
  rewrite (ContainsAny_cons _ _ _ Hc) in Eq.
  apply orb_false_iff in Eq. destruct Eq as [Eq _].
  vm_compute strings.runes in Eq. cbn [existsb] in Eq.
  unfold plainByte in Hp. apply andb_true_iff in Hp. destruct Hp as [_ Hp].
  unfold isStringChar in Hp.
  destruct (isSpace (byteZ c)); [discriminate Hp|].
  unfold isComment, sexprOpen, sexprClose.
  repeat (apply orb_false_iff in Eq; destruct Eq as [? Eq]).
  repeat split; try assumption.
  apply orb_false_iff. split; assumption.
Qed.

(** A printed string before the byte [e], which is no string character
    and no backtick, is read back. *)
Lemma parseString_dumped (e : ascii) (rest : string) :
  asciiByte e = true -> isStringChar (byteZ e) = false ->
  (byteZ e =? backtick) = false ->
  forall (s : selfString) (inp : string) (k : nat) (line : N),
  dumpable (str s) = true ->
  drop k inp = dumpString s ++ String e rest ->
  exists line', forall n, (String.length (dumpString s) + 2 < n)%nat ->
    parseString n (cursor inp k line)
    = POk (mkString (str s) line)
          (cursor inp (k + String.length (dumpString s)) line').
Proof.
  intros He Hs Hb s inp k line Hd Hi.
  destruct (dumpString_first s Hd) as (c0 & t0 & E0 & _).
  unfold dumpable in Hd. unfold dumpString in *.
  apply andb_true_iff in Hd. destruct Hd as [Hd Hq].
  apply andb_true_iff in Hd. destruct Hd as [Ha Hn].
  apply negb_true_iff in Hn.
  destruct (len (str s) =? 0) eqn:El.
  - (* the empty string, printed as [[]] *)
    apply len_zero_empty in El. rewrite El. clear E0.
    cbn [String.append] in Hi. exists line.
    intros [|n] Hlt; [lia|]. simpl in Hlt.
    unfold parseString. cbn [eod cursor].
    rewrite (cursor_r _ _ _ _ _ Hi).
    change (byteZ "[" =? backtick) with false.
    change (byteZ "[" =? 91) with true. cbv iota.
    rewrite (next_cursor _ _ _ _ _ _ Hi eq_refl). cbn [pbind].
    pose proof (drop_next _ _ _ _ Hi) as Hi'.
    unfold parseBracketedString. cbn [bracketLoop]. cbn [eod cursor].
    rewrite (cursor_r _ _ _ _ _ Hi').
    change (byteZ "]" =? 93) with true. cbn [negb andb]. cbv iota.
    change (1 - 1 =? 0) with true. cbv iota.
    rewrite (next_cursor _ _ _ _ _ _ Hi' He). cbn [pbind].
    cbn [eod cursor lineNumber]. unfold lineAfter.
    change (byteZ "[" =? endOfLine) with false.
    change (byteZ "]" =? endOfLine) with false. cbv iota.
    cbn [String.length]. replace (k + 2)%nat with (S (S k)) by lia.
    reflexivity.
  - destruct (strings.ContainsAny (str s) quotedChars) eqn:Eq.
    + (* a quoted string *)
      rewrite (ReplaceByte_none _ _ Hn) in *. clear E0.
      change ("`" ++ str s ++ "`") with (String "`"%char (str s ++ "`")) in *.
      cbn [String.append] in Hi. rewrite cat_one in Hi.
      destruct (backtickLoop_text e rest He Hb (str s) inp (S k) line
                  EmptyString (-1) Ha Hn eq_refl (drop_next _ _ _ _ Hi))
        as [line' Hloop].
      exists line'. intros n Hlt.
      assert (String.length (String "`"%char (str s ++ "`"))
              = S (S (String.length (str s)))) as El'.
      { simpl. f_equal. clear. induction (str s); simpl; congruence. }
      rewrite El' in *.
      unfold parseString. cbn [eod cursor].
      rewrite (cursor_r _ _ _ _ _ Hi).
      change (byteZ "`" =? backtick) with true. cbv iota.
      assert (exists d t, str s ++ String "`"%char (String e rest)
                          = String d t /\ asciiByte d = true)
        as (d & t & Et & Had).
      { destruct (str s) as [|d u]; simpl.
        - eexists _, _. split; reflexivity.
        - simpl in Ha. apply andb_true_iff in Ha.
          eexists _, _. split; [reflexivity|tauto]. }
      rewrite Et in Hi. rewrite (next_cursor _ _ _ _ _ _ Hi Had).
      cbn [pbind]. unfold parseBacktickString.
      rewrite Hloop by lia. cbn [pbind]. cbn [eod cursor lineNumber].
      unfold lineAfter. change (byteZ "`" =? endOfLine) with false.
      cbv iota. cbn [String.append].
      replace (S k + S (String.length (str s)))%nat
        with (k + S (S (String.length (str s))))%nat by lia.
      reflexivity.
    + (* a bare string *)
      rewrite orb_false_l in Hq. exists line. intros n Hlt.
      unfold parseString. cbn [eod cursor].
      rewrite E0 in Hi. cbn [String.append] in Hi.
      rewrite (cursor_r _ _ _ _ _ Hi).
      assert (Hc : asciiByte c0 = true).
      { rewrite E0 in Ha. simpl in Ha. apply andb_true_iff in Ha. tauto. }
      rewrite E0 in Eq. rewrite (ContainsAny_cons _ _ _ Hc) in Eq.
      apply orb_false_iff in Eq. destruct Eq as [Eq _].
      vm_compute strings.runes in Eq. cbn [existsb] in Eq.
      repeat (apply orb_false_iff in Eq; destruct Eq as [? Eq]).
      unfold backtick in *.
      match goal with H : (byteZ c0 =? 96) = false |- _ => rewrite H end.
      match goal with H : (byteZ c0 =? 91) = false |- _ => rewrite H end.
      change (String c0 (t0 ++ String e rest))
        with (String c0 t0 ++ String e rest) in Hi. rewrite <- E0 in Hi.
      rewrite (bareLoop_word e rest He Hs _ _ _ _ _ Hq Hi) by lia.
      reflexivity.
Qed.

Lemma value_induction (P : selfValue -> Prop) :
  (forall s, P (VString s)) ->
  (forall h vs l rt, Forall P vs -> P (VNode (mkNode h vs l rt))) ->
  forall v, P v.
Proof.
  intros Hs Hn. fix IH 1. intros [s|[h vs l rt]]; [apply Hs|].
  apply Hn. induction vs as [|v vs IHvs]; constructor; [apply IH|exact IHvs].
Qed.

Lemma length_cat (a b : string) :
  String.length (a ++ b) = (String.length a + String.length b)%nat.
Proof. induction a; simpl; congruence. Qed.

Lemma cat_empty (a : string) : a ++ EmptyString = a.
Proof. induction a; simpl; congruence. Qed.

Lemma blankText_app (a b : string) :
  blankText a = true -> blankText b = true -> blankText (a ++ b) = true.
Proof.
  induction a as [|c a IH]; simpl; [tauto|]. intros H Hb.
  apply andb_true_iff in H. destruct H as [-> H]. exact (IH H Hb).
Qed.

Lemma blankText_copies (n : nat) : blankText (strings.copies "    " n) = true.
Proof. induction n as [|n IH]; [reflexivity|]. simpl. exact IH. Qed.

Lemma Repeat_pad (indent : Z) (pad : string) :
  strings.Repeat "    " (indent + 1) = Return pad -> pad = padOf indent.
Proof.
  unfold strings.Repeat, padOf. destruct (indent + 1 <? 0); [discriminate|].
  intros H. injection H as <-. reflexivity.
Qed.

(** What the loop of [Dump] builds. *)
Lemma dumpLoop_joined (rt : bool) (indent : Z) :
  forall (vs : list selfValue) (acc body : string),
  dumpLoop Dump rt indent vs acc = Return body ->
  exists texts,
    Forall2 (fun v t => Dump v (indent + 1) = Return t) vs texts
    /\ body = acc ++ joined (padOf indent) rt texts.
Proof.
  induction vs as [|v vs IH]; intros acc body H; cbn [dumpLoop] in H.
  - injection H as <-. exists []. split; [constructor|].
    simpl. symmetry. apply cat_empty.
  - destruct (strings.Repeat "    " (indent + 1)) as [pad|] eqn:Ep;
      [|discriminate H].
    apply Repeat_pad in Ep. subst pad.
    destruct (Dump v (indent + 1)) as [t|] eqn:Et; [|discriminate H].
    destruct (IH _ _ H) as (ts & Hts & ->).
    exists (t :: ts). split; [constructor; assumption|].
    cbn [joined]. destruct rt; rewrite ?cat_assoc; reflexivity.
Qed.

(** [Dump] returns from an indentation that is not negative. *)
Lemma Dump_returns : forall (v : selfValue) (indent : Z),
  printable v = true -> -1 <= indent -> exists t, Dump v indent = Return t.
Proof.
  induction v as [s|h vs l rt IH] using value_induction; intros indent Hp Hi.
  - eexists. reflexivity.
  - cbn [printable printableNode] in Hp.
    apply andb_true_iff in Hp. destruct Hp as [Hp Hvs].
    apply andb_true_iff in Hp. destruct Hp as [Hrt _].
    apply negb_true_iff in Hrt. subst rt.
    cbn [Dump dumpNode negb]. generalize ("(" ++ dumpString h).
    induction vs as [|v vs IHvs]; intros acc.
    + eexists. reflexivity.
    + cbn [dumpLoop]. unfold strings.Repeat.
      destruct (Z.ltb_spec (indent + 1) 0); [lia|].
      simpl in Hvs. apply andb_true_iff in Hvs. destruct Hvs as [Hv Hvs].
      inversion IH as [|? ? IHv IHrest]; subst.
      destruct (IHv (indent + 1) Hv ltac:(lia)) as [t ->].
      destruct (IHvs IHrest Hvs (acc ++ lf ++
                 strings.copies "    " (Z.to_nat (indent + 1)) ++ t))
        as [t' E].
      destruct (dumpLoop Dump false indent vs _); [|discriminate E].
      eexists. reflexivity.
Qed.

(** How a printed value starts. *)
Lemma Dump_first (v : selfValue) (indent : Z) (text : string) :
  printable v = true -> Dump v indent = Return text ->
  exists c t, text = String c t
    /\ asciiByte c = true /\ isSpace (byteZ c) = false
    /\ isComment (byteZ c) = false /\ (byteZ c =? sexprClose) = false
    /\ (byteZ c =? sexprOpen) = isListValue v.
Proof.
  destruct v as [s|[h vs l rt]]; cbn [printable printableNode Dump dumpNode].
  - intros Hp H. injection H as <-.
    destruct (dumpString_first s Hp) as (c & t & E & H1 & H2 & H3 & H4 & H5).
    exists c, t. repeat split; assumption.
  - intros Hp H. apply andb_true_iff in Hp. destruct Hp as [Hp _].
    apply andb_true_iff in Hp. destruct Hp as [Hrt _].
    apply negb_true_iff in Hrt. subst rt. cbn [negb] in H.
    destruct (dumpLoop Dump false indent vs _) as [body|] eqn:E;
      [|discriminate H].
    injection H as <-. apply dumpLoop_joined in E.
    destruct E as (ts & _ & ->).
    eexists "("%char, _. split; [reflexivity|]. repeat split.
Qed.

Lemma closingByte_facts (e : ascii) :
  closingByte e = true ->
  asciiByte e = true /\ isStringChar (byteZ e) = false
  /\ (byteZ e =? backtick) = false.
Proof.
  unfold closingByte, asciiByte. intros H. apply orb_true_iff in H.
  destruct H as [H|H]; apply Z.eqb_eq in H; rewrite H; repeat split.
Qed.

Lemma joined_closing (pad : string) (ts : list string) (R : string) :
  exists e rest, joined pad false ts ++ String ")"%char R = String e rest
                 /\ closingByte e = true.
Proof.
  destruct ts as [|t ts]; cbn [joined].
  - exists ")"%char, R. split; reflexivity.
  - eexists _, _. split; [reflexivity|reflexivity].
Qed.

Lemma readsBack_string (s : selfString) : readsBack (VString s).
Proof.
  intros indent text e rest inp k line Hp Hd He Hi.
  cbn [printable Dump] in Hp, Hd. injection Hd as <-.
  destruct (closingByte_facts _ He) as (Ha & Hs & Hb).
  destruct (parseString_dumped e rest Ha Hs Hb s inp k line Hp Hi)
    as [line' H].
  exists (VString (mkString (str s) line)), line',
         (String.length (dumpString s) + 3)%nat.
  split; [reflexivity|]. intros n Hn. cbn [parseAs].
  rewrite H by lia. reflexivity.
Qed.

(** The values of a list, printed one per line before the closing
    parenthesis. *)
Lemma bodyLoop_values (indent : Z) (R : string) :
  forall (vs : list selfValue) (texts : list string)
         (acc : list selfValue) (inp : string) (k : nat) (line : N),
  Forall readsBack vs -> forallb printable vs = true ->
  Forall2 (fun v t => Dump v (indent + 1) = Return t) vs texts ->
  drop k inp = joined (padOf indent) false texts ++ String ")"%char R ->
  exists vs' line' n0,
    map eraseLines vs' = map eraseLines vs
    /\ forall n, (n0 <= n)%nat ->
       ('(_, p1) <- skipSpaces n (cursor inp k line) ;;
        bodyLoop n false acc p1)
       = POk (acc ++ vs')%list
             (cursor inp (k + String.length
                                (joined (padOf indent) false texts)) line').
Proof.
  induction vs as [|v vs IH]; intros texts acc inp k line Hrb Hp Hd Hi.
  - inversion Hd; subst. cbn [joined String.append] in *.
    exists [], line, 1%nat. split; [reflexivity|].
    intros [|n] Hn; [lia|]. cbn [skipSpaces]. cbn [eod cursor].
    rewrite (cursor_r _ _ _ _ _ Hi).
    change (isComment (byteZ ")")) with false.
    change (isSpace (byteZ ")")) with false.
    cbn [negb andb orb]. cbv iota.
    cbn [pbind bodyLoop]. cbn [eod cursor].
    rewrite (cursor_r _ _ _ _ _ Hi). change (byteZ ")" =? sexprClose) with true.
    cbn [negb andb]. cbv iota. rewrite app_nil_r, Nat.add_0_r. reflexivity.
  - inversion Hd as [|? t ? ts Hv Hts]; subst. clear Hd.
    inversion Hrb as [|? ? Hrv Hrvs]; subst. clear Hrb.
    cbn [forallb] in Hp. apply andb_true_iff in Hp. destruct Hp as [Hpv Hp].
    destruct (Dump_first _ _ _ Hpv Hv)
      as (c & t' & Et & Hc1 & Hc2 & Hc3 & Hc4 & Hc5).
    destruct (joined_closing (padOf indent) ts R) as (e & rest & Ej & He).
    cbn [joined] in Hi. cbn [String.append] in Hi.
    assert (Hi1 : drop k inp
                  = (lf ++ padOf indent) ++ String c (t' ++ String e rest)).
    { rewrite Hi, Et, <- Ej. rewrite !cat_assoc. reflexivity. }
    destruct (skipSpaces_blanks c _ Hc1 Hc2 Hc3 (lf ++ padOf indent) inp k
                line (blankText_app lf _ eq_refl (blankText_copies _)) Hi1)
      as [line1 Hsk].
    apply drop_plus in Hi1.
    set (k1 := (k + String.length (lf ++ padOf indent))%nat) in *.
    assert (Hi2 : drop k1 inp = t ++ String e rest).
    { rewrite Hi1, Et. reflexivity. }
    destruct (Hrv (indent + 1) t e rest inp k1 line1 Hpv Hv He Hi2)
      as (v' & line2 & n2 & Ev & Hpar).
    apply drop_plus in Hi2. rewrite <- Ej in Hi2.
    destruct (IH ts (acc ++ [v'])%list inp _ line2 Hrvs Hp Hts Hi2)
      as (vs' & line3 & n3 & Evs & Hrest).
    exists (v' :: vs'), line3,
      (S (String.length (lf ++ padOf indent) + n2 + n3))%nat.
    split; [simpl; rewrite Ev, Evs; reflexivity|].
    intros [|n] Hn; [lia|]. rewrite Hsk by lia. cbn [pbind].
    cbn [bodyLoop]. fold k1.
    change (eod (cursor inp k1 line1)) with false.
    rewrite (cursor_r _ _ _ _ _ Hi1), Hc4, Hc5. cbn [negb andb]. cbv iota.
    assert (Hbr : (if isListValue v
                   then '(nd, q) <- parseNode n (cursor inp k1 line1) ;;
                        POk (VNode nd) q
                   else '(s, q) <- parseString n (cursor inp k1 line1) ;;
                        POk (VString s) q)
                  = parseAs v n (cursor inp k1 line1)).
    { destruct v; reflexivity. }
    rewrite Hbr, Hpar by lia. cbn [pbind].
    rewrite Hrest by lia. f_equal.
    + rewrite <- app_assoc. reflexivity.
    + f_equal. unfold k1. cbn [joined]. rewrite !length_cat.
      cbn [String.length]. lia.
Qed.

Lemma pbind_assoc {A B C : Type} (m : PResult A)
      (f : A -> selfParser -> PResult B) (g : B -> selfParser -> PResult C) :
  pbind (pbind m f) g = pbind m (fun a p => pbind (f a p) g).
Proof. destruct m; reflexivity. Qed.

Ltac regroup :=
  match goal with
  | |- context [pbind (skipSpaces ?n ?q)
                      (fun a p => pbind (@?f a p) ?g)] =>
    rewrite <- (pbind_assoc (skipSpaces n q) f g)
  end.

(** A printed value is read back, up to the line numbers. *)
Lemma reads_back : forall v, readsBack v.
Proof.
  induction v as [s|h vs l rt IH] using value_induction;
    [apply readsBack_string|].
  intros indent text e rest inp k line Hp Hd He Hi.
  cbn [printable printableNode] in Hp.
  apply andb_true_iff in Hp. destruct Hp as [Hp Hvs].
  apply andb_true_iff in Hp. destruct Hp as [Hrt Hh].
  apply negb_true_iff in Hrt. subst rt.
  cbn [Dump dumpNode negb] in Hd.
  destruct (dumpLoop Dump false indent vs _) as [body|] eqn:E;
    [|discriminate Hd].
  injection Hd as <-. apply dumpLoop_joined in E.
  destruct E as (ts & Hts & ->).
  destruct (closingByte_facts _ He) as (Hea & _ & _).
  destruct (dumpString_first h Hh) as (c & t & Eh & Hc & _).
  destruct (joined_closing (padOf indent) ts (String e rest))
    as (e1 & rest1 & Ej & He1).
  destruct (closingByte_facts _ He1) as (Ha1 & Hs1 & Hb1).
  assert (Hi0 : drop k inp
                = String "("%char
                    (dumpString h ++ joined (padOf indent) false ts
                     ++ String ")"%char (String e rest))).
  { rewrite Hi. rewrite !cat_assoc. reflexivity. }
  pose proof (drop_next _ _ _ _ Hi0) as Hi1. rewrite Ej in Hi1.
  destruct (parseString_dumped e1 rest1 Ha1 Hs1 Hb1 h inp (S k) line Hh Hi1)
    as [line1 Hstr].
  apply drop_plus in Hi1. rewrite <- Ej in Hi1.
  destruct (bodyLoop_values indent (String e rest) vs ts [] inp _ line1
              IH Hvs Hts Hi1) as (vs' & line2 & n2 & Evs & Hbody).
  apply drop_plus in Hi1.
  eexists (VNode (mkNode (mkString (str h) line) vs' line false)), _,
    (S (S (String.length (dumpString h) + 3 + n2)))%nat.
  split; [cbn [eraseLines eraseNodeLines str]; rewrite Evs; reflexivity|].
  intros [|[|n]] Hn; try lia. cbn [parseAs parseNode].
  cbn [skipSpaces]. change (eod (cursor inp k line)) with false.
  rewrite (cursor_r _ _ _ _ _ Hi0).
  change (isComment (byteZ "(")) with false.
  change (isSpace (byteZ "(")) with false.
  cbn [negb andb orb]. cbv iota. cbn [pbind].
  rewrite (cursor_r _ _ _ _ _ Hi0).
  change (byteZ "(" =? sexprOpen) with true. cbn [negb]. cbv iota.
  rewrite Eh in Hi0. cbn [String.append] in Hi0.
  rewrite (next_cursor _ _ _ _ _ _ Hi0 Hc). cbn [pbind].
  change (lineAfter "(" line) with line.
  rewrite Hstr by lia. cbn [pbind].
  cbn [parseNodeBody]. regroup. rewrite Hbody by lia. cbn [pbind].
  rewrite (cursor_r _ _ _ _ _ Hi1).
  change (byteZ ")" =? sexprClose) with true. cbv iota.
  rewrite (next_cursor _ _ _ _ _ _ Hi1 Hea). cbn [pbind].
  cbn [lineNumber cursor]. f_equal. f_equal.
  rewrite ?length_cat. cbn [String.length]. rewrite ?length_cat.
  cbn [String.length]. lia.
Qed.

(** The lists of a document, printed with an empty line between them,
    up to the end of the text. *)
Lemma bodyLoop_root_values (indent : Z) :
  forall (vs : list selfValue) (texts : list string) (bl : string)
         (acc : list selfValue) (inp : string) (k : nat) (line : N),
  vs <> [] ->
  forallb (fun v => isListValue v && printable v) vs = true ->
  Forall2 (fun v t => Dump v (indent + 1) = Return t) vs texts ->
  blankText bl = true ->
  drop k inp = bl ++ joined (padOf indent) true texts ->
  exists vs' p' n0,
    map eraseLines vs' = map eraseLines vs
    /\ eod p' = true /\ (r p' =? sexprClose) = false
    /\ forall n m, (n0 <= n)%nat -> (n0 <= m)%nat ->
       ('(_, p1) <- skipSpaces n (cursor inp k line) ;;
        bodyLoop m true acc p1)
       = POk (acc ++ vs')%list p'.
Proof.
  induction vs as [|v vs IH]; intros texts bl acc inp k line Hne Hp Hd Hb Hi;
    [contradiction|]. clear Hne.
  inversion Hd as [|? t ? ts Hv Hts]; subst. clear Hd.
  cbn [forallb] in Hp. apply andb_true_iff in Hp. destruct Hp as [Hpv Hp].
  apply andb_true_iff in Hpv. destruct Hpv as [Hlv Hpv].
  destruct (Dump_first _ _ _ Hpv Hv)
    as (c & t' & Et & Hc1 & Hc2 & Hc3 & Hc4 & Hc5).
  rewrite Hlv in Hc5.
  cbn [joined] in Hi.
  assert (Hi1 : drop k inp
                = (bl ++ lf ++ padOf indent)
                  ++ String c (t' ++ String (byte_of_Z 10)
                                       (joined (padOf indent) true ts))).
  { rewrite Hi, Et. rewrite !cat_assoc. reflexivity. }
  assert (Hbl : blankText (bl ++ lf ++ padOf indent) = true).
  { apply blankText_app; [exact Hb|].
    apply (blankText_app lf); [reflexivity|apply blankText_copies]. }
  destruct (skipSpaces_blanks c _ Hc1 Hc2 Hc3 _ inp k line Hbl Hi1)
    as [line1 Hsk].
  apply drop_plus in Hi1.
  set (k1 := (k + String.length (bl ++ lf ++ padOf indent))%nat) in *.
  assert (Hi2 : drop k1 inp
                = t ++ String (byte_of_Z 10) (joined (padOf indent) true ts)).
  { rewrite Hi1, Et. reflexivity. }
  destruct (reads_back v (indent + 1) t (byte_of_Z 10) _ inp k1 line1
              Hpv Hv eq_refl Hi2)
    as (v' & line2 & n2 & Ev & Hpar).
  apply drop_plus in Hi2.
  assert (Hstep : forall n m,
            (String.length (bl ++ lf ++ padOf indent) < n)%nat ->
            (n2 <= m)%nat ->
            ('(_, p1) <- skipSpaces n (cursor inp k line) ;;
             bodyLoop (S m) true acc p1)
            = '(_, p2) <- skipSpaces m
                            (cursor inp (k1 + String.length t) line2) ;;
              bodyLoop m true (acc ++ [v'])%list p2).
  { intros n m Hn Hm. rewrite Hsk by lia. cbn [pbind]. cbn [bodyLoop].
    fold k1.
    change (eod (cursor inp k1 line1)) with false.
    rewrite (cursor_r _ _ _ _ _ Hi1), Hc4, Hc5. cbn [negb andb]. cbv iota.
    assert (Hbr : ('(nd, q) <- parseNode m (cursor inp k1 line1) ;;
                   POk (VNode nd) q)
                  = parseAs v m (cursor inp k1 line1)).
    { destruct v; [discriminate Hlv|reflexivity]. }
    rewrite Hbr, Hpar by lia. reflexivity. }
  destruct vs as [|v2 vs].
  - inversion Hts; subst. cbn [joined] in Hi2.
    destruct (skipSpaces_blanks_end EmptyString inp _ line2 (byte_of_Z 10)
                eq_refl eq_refl Hi2) as (p' & E1 & E2 & Hend).
    exists [v'], p', (S (String.length (bl ++ lf ++ padOf indent) + n2 + 2)).
    split; [simpl; rewrite Ev; reflexivity|].
    split; [exact E1|]. split; [exact E2|].
    intros n [|m] Hn Hm; [lia|]. rewrite Hstep by lia.
    rewrite Hend by (simpl; lia). cbn [pbind].
    destruct m as [|m]; [lia|]. cbn [bodyLoop]. rewrite E1. reflexivity.
  - destruct (IH ts (String (byte_of_Z 10) EmptyString) (acc ++ [v'])%list
                inp _ line2 ltac:(discriminate) Hp Hts eq_refl Hi2)
      as (vs' & p' & n3 & Evs & E1 & E2 & Hrest).
    exists (v' :: vs'), p',
      (S (String.length (bl ++ lf ++ padOf indent) + n2 + n3)).
    split; [simpl; rewrite Ev, Evs; reflexivity|].
    split; [exact E1|]. split; [exact E2|].
    intros n [|m] Hn Hm; [lia|]. rewrite Hstep by lia.
    rewrite Hrest by lia. rewrite <- app_assoc. reflexivity.
Qed.

(** [newParser] passes its first line feed and is on the first byte. *)
Lemma skipSpaces_start (c : ascii) (t : string) (n : nat) :
  asciiByte c = true ->
  skipSpaces (S n) (newParser (String c t))
  = skipSpaces n (cursor (String c t) 0 1).
Proof.
  intros Hc. cbn [skipSpaces]. unfold newParser at 1 2 3. cbn [eod r].
  change (isComment endOfLine) with false.
  change (isSpace endOfLine) with true. cbn [negb andb orb]. cbv iota.
  unfold next, newParser. cbn [input pos runeWidth r lineNumber eod].
  change (0 + 0) with 0.
  assert ((len (String c t) <=? 0) = false) as ->.
  { apply Z.leb_gt. pose proof (len_nonneg t). unfold len in *.
    cbn [String.length]. lia. }
  change (Z.to_nat 0) with O. cbn [drop utf8.DecodeRuneInString].
  unfold asciiByte in Hc. rewrite Hc.
  assert ((byteZ c =? utf8.RuneError) = false) as ->.
  { apply Z.eqb_neq. apply Z.ltb_lt in Hc. unfold utf8.RuneError. lia. }
  reflexivity.
Qed.

(** X13. A tree as the parser builds it, with strings that are read back
    as they are printed, is read back from its printed form up to the
    line numbers. *)
Theorem dump_round_trip (node : selfNode) (indent : Z) :
  printableRoot node = true -> 0 <= indent ->
  exists text fuel node',
    dumpNode node indent = Return text
    /\ (forall k, parseTree (fuel + k) text = Returned node')
    /\ eraseNodeLines node' = eraseNodeLines node.
Proof.
  destruct node as [h vs l rt]. unfold printableRoot. cbn [root head values].
  intros Hp Hi. apply andb_true_iff in Hp. destruct Hp as [Hp Hvs].
  apply andb_true_iff in Hp. destruct Hp as [Hrt Hh]. subst rt.
  apply String.eqb_eq in Hh.
  cbn [dumpNode negb].
  assert (exists body, dumpLoop Dump true (indent - 1) vs "" = Return body)
    as [body E].
  { generalize "". clear Hh. induction vs as [|v vs IH]; intros acc.
    - eexists. reflexivity.
    - cbn [dumpLoop]. unfold strings.Repeat.
      destruct (Z.ltb_spec (indent - 1 + 1) 0); [lia|].
      cbn [forallb] in Hvs. apply andb_true_iff in Hvs.
      destruct Hvs as [Hv Hvs]. apply andb_true_iff in Hv.
      destruct (Dump_returns v (indent - 1 + 1) (proj2 Hv) ltac:(lia))
        as [t ->].
      apply (IH Hvs). }
  rewrite E. apply dumpLoop_joined in E. destruct E as (ts & Hts & ->).
  cbn [String.append].
  assert (exists fuel node',
            parseTree fuel (joined (padOf (indent - 1)) true ts)
            = Returned node'
            /\ eraseNodeLines node'
               = eraseNodeLines (mkNode h vs l true))
    as (fuel & node' & Hrun & Her).
  { destruct vs as [|v vs].
    - inversion Hts; subst. exists 3%nat, (rootOf []).
      split; [reflexivity|]. cbn. rewrite Hh. reflexivity.
    - destruct ts as [|t ts]; [inversion Hts|].
      destruct (bodyLoop_root_values (indent - 1) (v :: vs) (t :: ts)
                  EmptyString [] (joined (padOf (indent - 1)) true (t :: ts))
                  0 1 ltac:(discriminate) Hvs Hts eq_refl eq_refl)
        as (vs' & p' & n0 & Evs & E1 & E2 & Hloop).
      exists (S (S n0)), (rootOf vs').
      split.
      + unfold parseTree, parseRoot. cbn [parseNodeBody].
        cbn [joined]. cbn [String.append lf].
        rewrite skipSpaces_start by reflexivity.
        regroup. cbn [joined lf String.append] in Hloop.
        rewrite Hloop by lia. cbn [pbind]. rewrite E2. reflexivity.
      + cbn [eraseNodeLines rootOf str]. rewrite Evs, Hh. reflexivity. }
  exists (joined (padOf (indent - 1)) true ts), fuel, node'.
  split; [reflexivity|]. split; [|exact Her].
  intros k. rewrite parseTree_mono; [exact Hrun|]. rewrite Hrun. discriminate.
Qed.

(** *** Strings that are not read back as they are printed *)

Lemma quoted_first (c : ascii) (t : string) :
  asciiByte c = true ->
  strings.ContainsAny (String c t) quotedChars = false ->
  (byteZ c =? backtick) = false /\ isComment (byteZ c) = false.
Proof.
  intros Hc H. rewrite (ContainsAny_cons _ _ _ Hc) in H.
  apply orb_false_iff in H. destruct H as [H _].
  vm_compute strings.runes in H. cbn [existsb] in H.
  repeat (apply orb_false_iff in H; destruct H as [? H]).
  unfold isComment, backtick. split; [assumption|].
  apply orb_false_iff. split; assumption.
Qed.

(** X14. A space does not make [Dump] quote a string: the string is read
    back up to its first space only. *)
Theorem space_is_not_quoted (u w rest inp : string) (l line : N) (k : nat) :
  u <> EmptyString -> plainWord u = true ->
  strings.ContainsAny (u ++ " " ++ w) quotedChars = false ->
  drop k inp = dumpString (mkString (u ++ " " ++ w) l) ++ rest ->
  forall n, (String.length u < n)%nat ->
    parseString n (cursor inp k line)
    = POk (mkString u line) (cursor inp (k + String.length u) line).
Proof.
  intros Hne Hu Hq Hi n Hn. unfold dumpString in Hi. cbn [str] in Hi.
  rewrite Hq in Hi.
  destruct u as [|c u]; [contradiction|].
  assert ((len (String c u ++ " " ++ w) =? 0) = false) as El.
  { apply Z.eqb_neq. unfold len. cbn [String.append String.length]. lia. }
  rewrite El in Hi. rewrite cat_assoc in Hi.
  pose proof Hu as Hc. cbn [plainWord] in Hc.
  apply andb_true_iff in Hc. destruct Hc as [Hc _].
  unfold plainByte in Hc. apply andb_true_iff in Hc. destruct Hc as [Ha Hs].
  cbn [String.append] in Hq.
  destruct (quoted_first _ _ Ha Hq) as [Hb _].
  unfold parseString. change (eod (cursor inp k line)) with false. cbv iota.
  pose proof Hi as Hi'. cbn [String.append] in Hi'.
  rewrite (cursor_r _ _ _ _ _ Hi'), Hb.
  assert ((byteZ c =? 91) = false) as ->.
  { destruct (byteZ c =? 91) eqn:E; [|reflexivity].
    apply Z.eqb_eq in E. rewrite E in Hs. discriminate Hs. }
  change (" " ++ w ++ rest) with (String " "%char (w ++ rest)) in Hi.
  rewrite (bareLoop_word " "%char _ eq_refl eq_refl _ _ _ _ _ Hu Hi) by lia.
  reflexivity.
Qed.

Lemma ReplaceByte_app (a b new : string) (old : ascii) :
  strings.ReplaceByte (a ++ b) old new
  = strings.ReplaceByte a old new ++ strings.ReplaceByte b old new.
Proof.
  induction a as [|c a IH]; cbn [String.append strings.ReplaceByte];
    [reflexivity|].
  rewrite IH, cat_assoc. reflexivity.
Qed.

Lemma ContainsAny_backtick (u t : string) :
  asciiText u = true ->
  strings.ContainsAny (u ++ String "`"%char t) quotedChars = true.
Proof.
  induction u as [|c u IH]; cbn [String.append asciiText]; intros H.
  - rewrite ContainsAny_cons by reflexivity. reflexivity.
  - apply andb_true_iff in H. destruct H as [Hc Hu].
    rewrite (ContainsAny_cons _ _ _ Hc), (IH Hu). apply orb_true_r.
Qed.

(** The text of a quoted string up to its first backtick. *)
Lemma backtickLoop_prefix (d : ascii) (t : string) :
  asciiByte d = true ->
  forall (s inp : string) (k : nat) (line : N) (acc : string) (prev : Z),
  asciiText s = true -> hasByte backtick s = false ->
  (prev =? backtick) = false -> drop k inp = s ++ String d t ->
  exists line' prev', (prev' =? backtick) = false
    /\ forall n,
       backtickLoop (String.length s + n) acc prev (cursor inp k line)
       = backtickLoop n (acc ++ s) prev'
           (cursor inp (k + String.length s) line').
Proof.
  intros Hd. induction s as [|c s IH];
    intros inp k line acc prev Ha Hs Hp Hi.
  - exists line, prev. split; [exact Hp|]. intros n.
    cbn [String.length]. rewrite Nat.add_0_r, cat_empty. reflexivity.
  - cbn [asciiText hasByte] in Ha, Hs.
    apply andb_true_iff in Ha. destruct Ha as [Hc Ha].
    apply orb_false_iff in Hs. destruct Hs as [Hcb Hs].
    cbn [String.append] in Hi.
    assert (exists d' t', s ++ String d t = String d' t'
                          /\ asciiByte d' = true) as (d' & t' & Et & Had).
    { destruct s as [|d' s]; cbn [String.append].
      - exists d, t. split; [reflexivity|exact Hd].
      - cbn [asciiText] in Ha. apply andb_true_iff in Ha.
        eexists _, _. split; [reflexivity|tauto]. }
    destruct (IH inp (S k) (lineAfter c line) (acc ++ String c EmptyString)
                 (byteZ c) Ha Hs Hcb (drop_next _ _ _ _ Hi))
      as (line' & prev' & Hp' & IH').
    exists line', prev'. split; [exact Hp'|]. intros n.
    cbn [String.length Nat.add backtickLoop].
    change (eod (cursor inp k line)) with false.
    rewrite (cursor_r _ _ _ _ _ Hi), Hcb, Hp. cbn [negb andb]. cbv iota.
    rewrite Et in Hi. rewrite (next_cursor _ _ _ _ _ _ Hi Had).
    cbn [pbind]. rewrite (encode_ascii _ Hc), IH', cat_one.
    rewrite Nat.add_succ_r. reflexivity.
Qed.

(** X15. A doubled backtick ends a quoted string at the next byte that
    is no backtick: a string with a backtick before another byte is read
    back up to this backtick only. *)
Theorem backtick_is_not_read_back (u w rest inp : string) (c : ascii)
        (l line : N) (k : nat) :
  asciiText u = true -> hasByte backtick u = false ->
  asciiByte c = true -> (byteZ c =? backtick) = false ->
  drop k inp = dumpString (mkString (u ++ "`" ++ String c w) l) ++ rest ->
  exists line', forall n, (String.length u + 3 < n)%nat ->
    parseString n (cursor inp k line)
    = POk (mkString (u ++ "`") line)
          (cursor inp (k + (String.length u + 3)) line').
Proof.
  intros Ha Hn Hc Hcb Hi. unfold dumpString in Hi. cbn [str] in Hi.
  assert ((len (u ++ "`" ++ String c w) =? 0) = false) as El.
  { apply Z.eqb_neq. unfold len. rewrite length_cat.
    cbn [String.append String.length]. lia. }
  rewrite El in Hi.
  change ("`" ++ String c w) with (String "`"%char (String c w)) in Hi.
  rewrite (ContainsAny_backtick _ _ Ha) in Hi.
  rewrite ReplaceByte_app, (ReplaceByte_none _ _ Hn) in Hi.
  cbn [strings.ReplaceByte] in Hi.
  change (Ascii.eqb "`" "`") with true in Hi.
  assert (Ecb : Ascii.eqb c "`" = false).
  { destruct (Ascii.eqb_spec c "`"%char) as [->|]; [discriminate|reflexivity]. }
  rewrite Ecb in Hi. cbv iota in Hi. cbn [String.append] in Hi.
  rewrite !cat_assoc in Hi. cbn [String.append] in Hi.
  pose proof (drop_next _ _ _ _ Hi) as Hi1.
  destruct (backtickLoop_prefix "`"%char _ eq_refl u inp (S k) line
              EmptyString (-1) Ha Hn eq_refl Hi1)
    as (line1 & prev1 & Hp1 & Hloop).
  apply drop_plus in Hi1.
  pose proof (drop_next _ _ _ _ Hi1) as Hi2.
  pose proof (drop_next _ _ _ _ Hi2) as Hi3.
  exists line1. intros n Hlt.
  unfold parseString. change (eod (cursor inp k line)) with false. cbv iota.
  rewrite (cursor_r _ _ _ _ _ Hi).
  change (byteZ "`" =? backtick) with true. cbv iota.
  assert (exists d t, u ++ String "`"%char
                        (String "`"%char
                           (String c (strings.ReplaceByte w "`" "``"
                                      ++ String "`"%char rest)))
                      = String d t /\ asciiByte d = true)
    as (d & t & Et & Had).
  { destruct u as [|d u]; cbn [String.append].
    - eexists _, _. split; reflexivity.
    - cbn [asciiText] in Ha. apply andb_true_iff in Ha.
      eexists _, _. split; [reflexivity|tauto]. }
  pose proof Hi as Hi0. rewrite Et in Hi0.
  rewrite (next_cursor _ _ _ _ _ _ Hi0 Had). cbn [pbind].
  change (lineAfter "`" line) with line.
  unfold parseBacktickString. cbn [lineNumber cursor].
  replace n with (String.length u + (S (S (S (n - String.length u - 3)))))%nat
    by lia.
  rewrite Hloop. cbn [String.append backtickLoop].
  change (eod (cursor inp (S k + String.length u) line1)) with false.
  rewrite (cursor_r _ _ _ _ _ Hi1).
  change (byteZ "`" =? backtick) with true. cbn [negb andb]. cbv iota.
  rewrite Hp1. rewrite (next_cursor _ _ _ _ _ _ Hi1 eq_refl). cbn [pbind].
  change (eod (cursor inp (S (S k + String.length u))
                      (lineAfter "`" line1))) with false.
  rewrite (cursor_r _ _ _ _ _ Hi2).
  change (byteZ "`" =? backtick) with true. cbn [negb andb]. cbv iota.
  rewrite (next_cursor _ _ _ _ _ _ Hi2 Hc). cbn [pbind].
  change (eod (cursor inp (S (S (S k + String.length u)))
                      (lineAfter "`" (lineAfter "`" line1)))) with false.
  rewrite (cursor_r _ _ _ _ _ Hi3), Hcb. cbn [negb andb]. cbv iota.
  cbn [pbind eod cursor]. change (lineAfter "`" line1) with line1.
  replace (S (S (S k + String.length u)))
    with (k + (String.length u + 3))%nat by lia.
  reflexivity.
Qed.

(** *** A bare string that runs to the end of the text *)

Lemma bareLoop_to_end : forall (w inp : string) (k : nat) (line : N)
                               (acc : string) (n : nat),
  w <> EmptyString -> plainWord w = true -> drop k inp = w ->
  bareLoop n acc (cursor inp k line) = POutOfFuel.
Proof.
  induction w as [|c w IH]; intros inp k line acc n Hne Hw Hi;
    [contradiction|].
  destruct n as [|n]; [reflexivity|].
  cbn [plainWord] in Hw. apply andb_true_iff in Hw. destruct Hw as [Hc Hw].
  pose proof Hc as Hc'. unfold plainByte in Hc'.
  apply andb_true_iff in Hc'. destruct Hc' as [Ha Hs].
  cbn [bareLoop]. rewrite (cursor_r _ _ _ _ _ Hi), Hs.
  destruct w as [|d w].
  - rewrite (next_cursor_last _ _ _ _ Hi). cbn [pbind].
    apply bareLoop_at_end; unfold cursorEnd; cbn [r input pos runeWidth].
    + rewrite Hi. exact Hs.
    + rewrite (drop_len _ _ _ _ Hi). change (len "") with 0. lia.
    + lia.
  - cbn [plainWord] in Hw. pose proof Hw as Hd.
    apply andb_true_iff in Hd. destruct Hd as [Hd _].
    unfold plainByte in Hd. apply andb_true_iff in Hd. destruct Hd as [Hd _].
    rewrite (next_cursor _ _ _ _ _ _ Hi Hd). cbn [pbind].
    apply IH; [discriminate|exact Hw|exact (drop_next _ _ _ _ Hi)].
Qed.

(** X16. A document that ends inside the bare head of a list is never
    parsed: whatever the fuel, the parser is still running. *)
Theorem unclosed_head_never_returns (w : string) (fuel : nat) :
  w <> EmptyString -> plainWord w = true ->
  (byteZ (firstByte w) =? backtick) = false ->
  parseTree fuel ("(" ++ w) = Unfinished.
Proof.
  intros Hne Hw Hb. unfold parseTree, parseRoot.
  change ("(" ++ w) with (String "("%char w).
  set (p := cursor (String "("%char w) 0 1).
  assert (Hsk : forall m, skipSpaces (S m) p = POk tt p) by reflexivity.
  destruct fuel as [|n]; [reflexivity|]. cbn [parseNodeBody].
  destruct n as [|n]; [reflexivity|].
  rewrite skipSpaces_start by reflexivity. fold p.
  destruct n as [|n]; [reflexivity|]. rewrite Hsk. cbn [pbind bodyLoop].
  change (negb (eod p) && negb (r p =? sexprClose)) with true. cbv iota.
  change (r p =? sexprOpen) with true. cbv iota. cbn [parseNode].
  destruct n as [|n]; [reflexivity|]. rewrite Hsk. cbn [pbind].
  change (negb (r p =? sexprOpen)) with false. cbv iota. unfold p.
    destruct w as [|c w]; [contradiction|].
    pose proof Hw as Hc. cbn [plainWord] in Hc.
    apply andb_true_iff in Hc. destruct Hc as [Hc _].
    unfold plainByte in Hc. apply andb_true_iff in Hc. destruct Hc as [Ha Hs].
    assert (Hi : drop 0 (String "("%char (String c w))
                 = String "("%char (String c w)) by reflexivity.
    rewrite (next_cursor _ _ _ _ _ _ Hi Ha). cbn [pbind].
    pose proof (drop_next _ _ _ _ Hi) as Hi1.
    unfold parseString.
    change (eod (cursor (String "("%char (String c w)) 1 (lineAfter "(" 1)))
      with false.
    cbv iota. rewrite (cursor_r _ _ _ _ _ Hi1).
    cbn [firstByte] in Hb. rewrite Hb.
    assert ((byteZ c =? 91) = false) as ->.
    { destruct (byteZ c =? 91) eqn:E; [|reflexivity].
      apply Z.eqb_eq in E. rewrite E in Hs. discriminate Hs. }
    rewrite (bareLoop_to_end _ _ _ _ _ _ Hne Hw Hi1). reflexivity.
Qed.

(** *** Bracketed strings *)

Lemma bracketLoop_text (e : ascii) (rest : string) :
  asciiByte e = true ->
  forall (s inp : string) (k : nat) (line : N) (acc : string) (level : Z),
  asciiText s = true -> bracketLevel level s = Some 1 ->
  drop k inp = s ++ String "]"%char (String e rest) ->
  exists line', forall n, (String.length s < n)%nat ->
    bracketLoop n level acc (cursor inp k line)
    = POk (acc ++ s) (cursor inp (k + S (String.length s)) line').
Proof.
  intros He. induction s as [|c s IH]; intros inp k line acc level Ha Hl Hi.
  - cbn [bracketLevel] in Hl. injection Hl as ->. cbn [String.append] in Hi.
    exists (lineAfter "]"%char line). intros [|n] Hn; [simpl in Hn; lia|].
    cbn [bracketLoop]. change (eod (cursor inp k line)) with false.
    rewrite (cursor_r _ _ _ _ _ Hi).
    change (byteZ "]" =? 93) with true. cbn [negb andb]. cbv iota.
    change (1 - 1 =? 0) with true. cbv iota.
    rewrite (next_cursor _ _ _ _ _ _ Hi He). cbn [pbind String.length].
    rewrite cat_empty, Nat.add_1_r. reflexivity.
  - cbn [asciiText] in Ha. apply andb_true_iff in Ha. destruct Ha as [Hc Ha].
    cbn [String.append] in Hi.
    assert (exists d t, s ++ String "]"%char (String e rest) = String d t
                        /\ asciiByte d = true) as (d & t & Et & Had).
    { destruct s as [|d s]; cbn [String.append].
      - eexists _, _. split; reflexivity.
      - cbn [asciiText] in Ha. apply andb_true_iff in Ha.
        eexists _, _. split; [reflexivity|tauto]. }
    cbn [bracketLevel] in Hl.
    assert (exists level',
              bracketLevel level' s = Some 1
              /\ forall n,
                 bracketLoop (S n) level acc (cursor inp k line)
                 = bracketLoop n level' (acc ++ String c EmptyString)
                     (cursor inp (S k) (lineAfter c line)))
      as (level' & Hl' & Hstep).
    { destruct (byteZ c =? 93) eqn:E93.
      - destruct (level - 1 =? 0) eqn:E0; [discriminate Hl|].
        exists (level - 1). split; [exact Hl|]. intros n.
        cbn [bracketLoop]. change (eod (cursor inp k line)) with false.
        rewrite (cursor_r _ _ _ _ _ Hi), E93, E0. cbn [negb andb]. cbv iota.
        assert ((byteZ c =? 91) = false) as ->.
        { apply Z.eqb_eq in E93. rewrite E93. reflexivity. }
        rewrite Et in Hi. rewrite (next_cursor _ _ _ _ _ _ Hi Had).
        cbn [pbind]. rewrite (encode_ascii _ Hc). reflexivity.
      - destruct (byteZ c =? 91) eqn:E91.
        + exists (level + 1). split; [exact Hl|]. intros n.
          cbn [bracketLoop]. change (eod (cursor inp k line)) with false.
          rewrite (cursor_r _ _ _ _ _ Hi), E93, E91. cbn [negb andb].
          cbv iota. rewrite Et in Hi.
          rewrite (next_cursor _ _ _ _ _ _ Hi Had).
          cbn [pbind]. rewrite (encode_ascii _ Hc). reflexivity.
        + exists level. split; [exact Hl|]. intros n.
          cbn [bracketLoop]. change (eod (cursor inp k line)) with false.
          rewrite (cursor_r _ _ _ _ _ Hi), E93, E91. cbn [negb andb].
          cbv iota. rewrite Et in Hi.
          rewrite (next_cursor _ _ _ _ _ _ Hi Had).
          cbn [pbind]. rewrite (encode_ascii _ Hc). reflexivity. }
    destruct (IH inp (S k) (lineAfter c line) (acc ++ String c EmptyString)
                 level' Ha Hl' (drop_next _ _ _ _ Hi)) as [line' IH'].
    exists line'. intros [|n] Hn; [lia|].
    rewrite Hstep, IH' by (simpl in Hn; lia).
    rewrite cat_one. cbn [String.length]. rewrite !Nat.add_succ_r.
    reflexivity.
Qed.

(** X17. A bracketed string is read up to the bracket that closes it:
    the brackets nested inside it are kept. *)
Theorem bracketed_string_keeps_nesting (s rest inp : string) (e : ascii)
        (line : N) (k : nat) :
  asciiText s = true -> bracketLevel 1 s = Some 1 -> asciiByte e = true ->
  drop k inp = "[" ++ s ++ "]" ++ String e rest ->
  exists line', forall n, (String.length s + 1 < n)%nat ->
    parseString n (cursor inp k line)
    = POk (mkString s line) (cursor inp (k + (String.length s + 2)) line').
Proof.
  intros Ha Hl He Hi. cbn [String.append] in Hi.
  destruct (bracketLoop_text e rest He s inp (S k) line EmptyString 1 Ha Hl
              (drop_next _ _ _ _ Hi)) as [line' Hloop].
  exists line'. intros n Hn.
  unfold parseString. change (eod (cursor inp k line)) with false. cbv iota.
  rewrite (cursor_r _ _ _ _ _ Hi).
  change (byteZ "[" =? backtick) with false.
  change (byteZ "[" =? 91) with true. cbv iota.
  assert (exists d t, s ++ String "]"%char (String e rest) = String d t
                      /\ asciiByte d = true) as (d & t & Et & Had).
  { destruct s as [|d s]; cbn [String.append].
    - eexists _, _. split; reflexivity.
    - cbn [asciiText] in Ha. apply andb_true_iff in Ha.
      eexists _, _. split; [reflexivity|tauto]. }
  rewrite Et in Hi. rewrite (next_cursor _ _ _ _ _ _ Hi Had). cbn [pbind].
  unfold parseBracketedString. rewrite Hloop by lia. cbn [pbind].
  cbn [eod cursor lineNumber]. change (lineAfter "[" line) with line.
  cbn [String.append].
  replace (S k + S (String.length s))%nat
    with (k + (String.length s + 2))%nat by lia.
  reflexivity.
Qed.

(** *** The properties above on documents *)

Lemma dump_round_trip_witness :
  printableRoot printedTree = true /\ 0 <= 0
  /\ exists text fuel node',
       dumpNode printedTree 0 = Return text
       /\ (forall k, parseTree (fuel + k) text = Returned node')
       /\ eraseNodeLines node' = eraseNodeLines printedTree.
Proof.
  split; [vm_compute; reflexivity|]. split; [lia|].
  exact (dump_round_trip printedTree 0 ltac:(vm_compute; reflexivity)
           ltac:(lia)).
Defined.

Lemma space_is_not_quoted_witness :
  "a" <> EmptyString /\ plainWord "a" = true
  /\ strings.ContainsAny ("a" ++ " " ++ "b") quotedChars = false
  /\ drop 3 "(X a b)" = dumpString (mkString ("a" ++ " " ++ "b") 0) ++ ")"
  /\ forall n, (String.length "a" < n)%nat ->
       parseString n (cursor "(X a b)" 3 1)
       = POk (mkString "a" 1) (cursor "(X a b)" (3 + String.length "a") 1).
Proof.
  split; [discriminate|]. split; [reflexivity|].
  split; [vm_compute; reflexivity|]. split; [vm_compute; reflexivity|].
  exact (space_is_not_quoted "a" "b" ")" "(X a b)" 0 1 3
           ltac:(discriminate) eq_refl ltac:(vm_compute; reflexivity)
           ltac:(vm_compute; reflexivity)).
Defined.

Lemma backtick_is_not_read_back_witness :
  asciiText "a" = true /\ hasByte backtick "a" = false
  /\ asciiByte "b" = true /\ (byteZ "b" =? backtick) = false
  /\ drop 3 "(X `a``b`)"
     = dumpString (mkString ("a" ++ "`" ++ String "b" "") 0) ++ ")"
  /\ exists line', forall n, (String.length "a" + 3 < n)%nat ->
       parseString n (cursor "(X `a``b`)" 3 1)
       = POk (mkString ("a" ++ "`") 1)
             (cursor "(X `a``b`)" (3 + (String.length "a" + 3)) line').
Proof.
  split; [reflexivity|]. split; [reflexivity|]. split; [reflexivity|].
  split; [reflexivity|]. split; [vm_compute; reflexivity|].
  exact (backtick_is_not_read_back "a" "" ")" "(X `a``b`)" "b" 0 1 3
           eq_refl eq_refl eq_refl eq_refl ltac:(vm_compute; reflexivity)).
Defined.

Lemma unclosed_head_never_returns_witness :
  "Name" <> EmptyString /\ plainWord "Name" = true
  /\ (byteZ (firstByte "Name") =? backtick) = false
  /\ forall fuel, parseTree fuel ("(" ++ "Name") = Unfinished.
Proof.
  split; [discriminate|]. split; [reflexivity|]. split; [reflexivity|].
  intros fuel.
  exact (unclosed_head_never_returns "Name" fuel ltac:(discriminate)
           eq_refl eq_refl).
Defined.

Lemma bracketed_string_keeps_nesting_witness :
  asciiText "a[b]c" = true /\ bracketLevel 1 "a[b]c" = Some 1
  /\ asciiByte ")" = true
  /\ drop 3 "(X [a[b]c])" = "[" ++ "a[b]c" ++ "]" ++ String ")" ""
  /\ exists line', forall n, (String.length "a[b]c" + 1 < n)%nat ->
       parseString n (cursor "(X [a[b]c])" 3 1)
       = POk (mkString "a[b]c" 1)
             (cursor "(X [a[b]c])" (3 + (String.length "a[b]c" + 2)) line').
Proof.
  split; [reflexivity|]. split; [reflexivity|]. split; [reflexivity|].
  split; [reflexivity|].
  exact (bracketed_string_keeps_nesting "a[b]c" "" "(X [a[b]c])" ")" 1 3
           eq_refl eq_refl eq_refl eq_refl).
Defined.
